(** * Dependent multi-step query execution: a shallow embedding

    This development embeds the execution engine of the NLP-to-SQL service
    ([service/execute_and_format.py], [service/generate_sql.py],
    [service/database_service.py] and the generate/validate loop of [app.py])
    and states the properties of its specification against it.

    Conventions.
    - A Python [str] is a [string]; its characters are the 8-bit characters
      of [Ascii], so [len] is [String.length].
    - A Python [dict] whose insertion order is observed (a result row) is an
      association list; a [dict] that is only looked up (the step results,
      the bound parameters, the configuration) is a [gmap].
    - [tuple(set(values))] has no specified order: it is a [gset].
    - The database, the file system and the language model are parameters
      of the sections that use them. *)

From Stdlib Require Import ZArith String Ascii.
From stdpp Require Import gmap strings list pretty sorting.

Local Open Scope Z_scope.

(** ** Python strings *)

Module Py.

(** [s.endswith(suffix)] *)
Definition endswith (s suffix : string) : bool :=
  let n := String.length s in
  let m := String.length suffix in
  if (m <=? n)%nat then String.eqb (String.substring (n - m) m s) suffix
  else false.

(** [s.startswith(p)] *)
Definition startswith (s p : string) : bool := String.prefix p s.

(** [s[:-k]] for [k > 0] *)
Definition drop_last (k : nat) (s : string) : string :=
  String.substring 0 (String.length s - k) s.

(** [c * n] for a one-character string [c] *)
Fixpoint repeat_char (c : ascii) (n : nat) : string :=
  match n with
  | O => ""
  | S k => String c (repeat_char c k)
  end.

(** [sep.join(parts)] *)
Fixpoint join (sep : string) (parts : list string) : string :=
  match parts with
  | [] => ""
  | [p] => p
  | p :: rest => p +:+ sep +:+ join sep rest
  end.

(** [f"{s:<{w}}"], and [f"{s:{w}}"] for a string [s]: left-justified,
    padded with spaces up to [w] characters, never truncated. *)
Definition ljust (s : string) (w : nat) : string :=
  s +:+ repeat_char " " (w - String.length s).

(** [needle in haystack] on two strings *)
Fixpoint contains (haystack needle : string) : bool :=
  String.prefix needle haystack ||
  match haystack with
  | EmptyString => false
  | String _ rest => contains rest needle
  end.

(** [max(xs, default=0)] on lengths *)
Definition max_default0 (xs : list nat) : nat := foldr Nat.max 0%nat xs.

End Py.

(** ** Values, rows and step results *)

(** A cell of a result row: SQL NULL is Python [None]. *)
Inductive Value : Type :=
  | VNone
  | VInt (n : Z)
  | VStr (s : string).

#[global] Instance Value_eq_dec : EqDecision Value.
Proof. solve_decision. Defined.

#[global] Instance Value_countable : Countable Value.
Proof.
  refine (inj_countable'
    (fun v => match v with
              | VNone => inl ()
              | VInt n => inr (inl n)
              | VStr s => inr (inr s)
              end)
    (fun x => match x with
              | inl _ => VNone
              | inr (inl n) => VInt n
              | inr (inr s) => VStr s
              end) _).
  intros []; reflexivity.
Defined.

(** [str(v)] *)
Definition py_str (v : Value) : string :=
  match v with
  | VNone => "None"
  | VInt n => pretty n
  | VStr s => s
  end.

(** A row is [dict(row._mapping)]: column name to value, in column order. *)
Definition Row : Type := list (string * Value).

(** [row[name]] when [name in row] *)
Fixpoint row_get (name : string) (row : Row) : option Value :=
  match row with
  | [] => None
  | (k, v) :: rest => if String.eqb k name then Some v else row_get name rest
  end.

(** [list(row.keys())] *)
Definition row_keys (row : Row) : list string := map fst row.

(** [step_results_for_deps]: [query_id] to the rows that step produced. *)
Abbreviation StepResultSet := (gmap string (list Row)).

(** What [_extract_parameter_value] returns: a cell value ([None] included)
    or [tuple(set(values))]. *)
Inductive PyObj : Type :=
  | PyVal (v : Value)
  | PyTuple (vs : gset Value).

#[global] Instance PyObj_eq_dec : EqDecision PyObj.
Proof. solve_decision. Defined.

(** [x is None] *)
Definition is_None (x : PyObj) : bool :=
  match x with
  | PyVal VNone => true
  | _ => false
  end.

Abbreviation Params := (gmap string PyObj).

(** ** Placeholder resolution ([execute_and_format.py], lines 63-148) *)

Module Resolver.

(** [param_name.endswith(('_ids', '_id', 's'))] *)
Definition is_list_parameter (param_name : string) : bool :=
  Py.endswith param_name "_ids" || Py.endswith param_name "_id"
  || Py.endswith param_name "s".

(** Case 3 of the list branch: the guessed column name. *)
Definition guess_column (param_name : string) : string :=
  if Py.endswith param_name "_ids" then Py.drop_last 4 param_name +:+ "_id"
  else if Py.endswith param_name "s" then Py.drop_last 1 param_name
  else param_name.

(** Body of the row loop for a scalar parameter: [Some v] is [return v]. *)
Definition scalar_row (param_name : string) (row : Row) : option Value :=
  match row_get param_name row with
  | Some v => Some v
  | None =>
      match row with
      | [(_, v)] => Some v
      | _ => None
      end
  end.

(** Body of the row loop for a list parameter: [Some v] is
    [values.append(v)]. *)
Definition list_row (param_name : string) (row : Row) : option Value :=
  match row with
  | [(_, v)] => Some v
  | _ =>
      match row_get param_name row with
      | Some v => Some v
      | None => row_get (guess_column param_name) row
      end
  end.

(** The first [return] reached by the two nested loops, scalar case. *)
Fixpoint scalar_rows (param_name : string) (rows : list Row) : option Value :=
  match rows with
  | [] => None
  | row :: rest =>
      match scalar_row param_name row with
      | Some v => Some v
      | None => scalar_rows param_name rest
      end
  end.

Fixpoint scalar_deps (param_name : string) (step_results : StepResultSet)
    (depends_on : list string) : option Value :=
  match depends_on with
  | [] => None
  | dep_query_id :: rest =>
      match step_results !! dep_query_id with
      | Some dep_results =>
          match scalar_rows param_name dep_results with
          | Some v => Some v
          | None => scalar_deps param_name step_results rest
          end
      | None => scalar_deps param_name step_results rest
      end
  end.

(** [values] after the two nested loops, list case. *)
Fixpoint collect_values (param_name : string) (step_results : StepResultSet)
    (depends_on : list string) : list Value :=
  match depends_on with
  | [] => []
  | dep_query_id :: rest =>
      match step_results !! dep_query_id with
      | Some dep_results =>
          omap (list_row param_name) dep_results
            ++ collect_values param_name step_results rest
      | None => collect_values param_name step_results rest
      end
  end.

Definition _extract_parameter_value (param_name : string)
    (step_results : StepResultSet) (depends_on : list string) : PyObj :=
  if is_list_parameter param_name then
    match collect_values param_name step_results depends_on with
    | [] => PyVal VNone
    | values => PyTuple (list_to_set values)
    end
  else
    match scalar_deps param_name step_results depends_on with
    | Some v => PyVal v
    | None => PyVal VNone
    end.

(** *** The pattern [\{\{([^}]+)\}\}] *)

(** Longest prefix without ["}"], and what follows it. *)
Fixpoint span_name (s : string) : string * string :=
  match s with
  | EmptyString => ("", "")
  | String c rest =>
      if Ascii.eqb c "}" then ("", s)
      else let '(name, tl) := span_name rest in (String c name, tl)
  end.

(** A match of the pattern starting at the first character of [s]:
    the captured group. The class [[^}]] stops at the first ["}"], so the
    greedy [+] has one candidate only. *)
Definition match_here (s : string) : option string :=
  match s with
  | String "{" (String "{" rest) =>
      let '(name, tl) := span_name rest in
      match name, tl with
      | String _ _, String "}" (String "}" _) => Some name
      | _, _ => None
      end
  | _ => None
  end.

(** The template cut at the non-overlapping matches, from the left, as
    [re.sub] visits it. *)
Inductive Token : Type :=
  | Lit (c : ascii)
  | Placeholder (param_name : string).

#[global] Instance Token_eq_dec : EqDecision Token.
Proof. solve_decision. Defined.

Fixpoint tokens_from (s : string) (skip : nat) : list Token :=
  match s with
  | EmptyString => []
  | String c rest =>
      match skip with
      | S k => tokens_from rest k
      | O =>
          match match_here s with
          | Some name =>
              Placeholder name :: tokens_from rest (String.length name + 3)
          | None => Lit c :: tokens_from rest 0
          end
      end
  end.

Definition tokens (sql_template : string) : list Token :=
  tokens_from sql_template 0.

(** [re.sub(parameter_pattern, replacer, sql_template)] with the closure
    state [params]; [None] is the [ValueError] of [replacer]. *)
Fixpoint substitute (toks : list Token) (step_results : StepResultSet)
    (depends_on : list string) (params : Params) : option (string * Params) :=
  match toks with
  | [] => Some ("", params)
  | Lit c :: rest =>
      match substitute rest step_results depends_on params with
      | Some (out, params') => Some (String c out, params')
      | None => None
      end
  | Placeholder param_name :: rest =>
      let continue_with (ps : Params) :=
        match substitute rest step_results depends_on ps with
        | Some (out, params') => Some ((":" +:+ param_name) +:+ out, params')
        | None => None
        end in
      match params !! param_name with
      | Some _ => continue_with params
      | None =>
          let param_value :=
            _extract_parameter_value param_name step_results depends_on in
          if is_None param_value then None
          else continue_with (<[param_name := param_value]> params)
      end
  end.

(** [None] is the pair [(None, None)]. *)
Definition _resolve_query_parameters (sql_template : string)
    (step_results : StepResultSet) (depends_on : list string)
    : option (string * Params) :=
  substitute (tokens sql_template) step_results depends_on ∅.

End Resolver.

Import Resolver.

(** ** Exceptions *)

(** The exceptions that the embedded code raises or lets through. *)
Inductive Exn : Type :=
  | FileNotFoundError (msg : string)
  | ValueError (msg : string)
  | ConnectionError (msg : string)
  | KeyError (key : string)
  | TypeError
  | AttributeError
  | SQLAlchemyError (msg : string)
  | StreamlitAPIException.

(** A computation that returns or raises. *)
Inductive Result (A : Type) : Type :=
  | Ok (a : A)
  | Raise (e : Exn).

Arguments Ok {A} a.
Arguments Raise {A} e.

#[global] Instance Result_ret : MRet Result := fun A a => Ok a.
#[global] Instance Result_bind : MBind Result := fun A B f m =>
  match m with
  | Ok a => f a
  | Raise e => Raise e
  end.

(** ** Plans and output records *)

(** One entry of [execution_plan["execution_plan"]], with the six fields that
    plan ingestion requires. *)
Record Step : Type := mkStep {
  step : Z;
  query_id : string;
  description : string;
  sql : string;
  depends_on : list string;
  table_used : string
}.

(** The dictionaries appended to [output_results]; [error] is [None] when the
    key is absent. *)
Record OutputRecord : Type := mkOutput {
  out_description : string;
  formatted_text : string;
  raw_results : list Row;
  error : option string
}.

#[global] Instance OutputRecord_eq_dec : EqDecision OutputRecord.
Proof. solve_decision. Defined.

(** The plan handed to the runner; [execution_plan.get("execution_plan", [])]
    is the field [execution_plan]. *)
Record ExecutionPlan : Type := mkPlan {
  execution_plan : list Step;
  tables_used : list string;
  total_steps : Z;
  has_dependencies : bool
}.

(** The newline character. *)
Definition nl : string := String "010" "".

(** ** The result formatter ([execute_and_format.py], lines 151-178) *)

Module Formatter.

(** [str(row.get(col, ''))] *)
Definition cell_text (row : Row) (col : string) : string :=
  match row_get col row with
  | Some v => py_str v
  | None => ""
  end.

(** [col_widths[col]] *)
Definition col_width (raw_results : list Row) (col : string) : nat :=
  Nat.max (String.length col)
    (Py.max_default0
       (map (fun row => String.length (cell_text row col)) raw_results)).

Definition header_line (raw_results : list Row) (columns : list string)
    : string :=
  Py.join " | " (map (fun col => Py.ljust col (col_width raw_results col))
                     columns).

Definition row_line (raw_results : list Row) (columns : list string)
    (row : Row) : string :=
  Py.join " | "
    (map (fun col => Py.ljust (cell_text row col) (col_width raw_results col))
         columns).

Definition title_line (step_info : Step) (raw_results : list Row) : string :=
  "步骤 " +:+ pretty (step step_info) +:+ " - " +:+ description step_info
    +:+ ": (共 " +:+ pretty (length raw_results) +:+ " 条记录)".

(** [result_lines] at the end of the [try] block, for non-empty
    [raw_results]. The [except] branch, a rendering without padding, is for
    values that cannot be formatted; column names that are strings and the
    cells of [Value] do not reach it. *)
Definition result_lines (step_info : Step) (raw_results : list Row)
    : list string :=
  let columns :=
    match raw_results with
    | first :: _ => row_keys first
    | [] => []
    end in
  let header := header_line raw_results columns in
  title_line step_info raw_results
    :: header
    :: Py.repeat_char "-" (String.length header)
    :: map (row_line raw_results columns) raw_results.

Definition _format_step_result (step_info : Step) (raw_results : list Row)
    : string :=
  match raw_results with
  | [] =>
      "步骤 " +:+ pretty (step step_info) +:+ " (" +:+ description step_info
        +:+ "): 未找到数据"
  | _ :: _ => Py.join nl (result_lines step_info raw_results)
  end.

End Formatter.

(** ** The plan runner ([execute_and_format.py], lines 18-61) *)

(** What [connection.execute] gives: the rows, or the text of the
    [SQLAlchemyError] it raised. *)
Inductive ExecResult : Type :=
  | ExecRows (rows : list Row)
  | ExecError (e : string).

Module Runner.
Section WithStore.

(** The backing store behind an open connection. *)
Variable DB : Type.
Variable db_execute : DB -> string -> Params -> DB * ExecResult.

(** The loop state. [executed] lists the queries announced by
    [print(f"Executing SQL: ...")], oldest first. *)
Record RunState : Type := mkRun {
  conn : DB;
  step_results_for_deps : StepResultSet;
  output_results : list OutputRecord;
  executed : list (string * Params)
}.

Definition resolution_failure_record (step_info : Step) : OutputRecord :=
  {| out_description := description step_info;
     formatted_text :=
       "Step " +:+ pretty (step step_info) +:+ " ("
         +:+ description step_info
         +:+ "): Execution failed because a dependent query returned no results.";
     raw_results := [];
     error := Some "Dependency resolution failed" |}.

Definition execution_failure_record (step_info : Step) (sql_query e : string)
    : OutputRecord :=
  {| out_description := description step_info;
     formatted_text :=
       "Step " +:+ pretty (step step_info) +:+ " failed to execute: " +:+ e
         +:+ nl +:+ "SQL: " +:+ sql_query;
     raw_results := [];
     error := Some e |}.

Definition success_record (step_info : Step) (rows : list Row)
    : OutputRecord :=
  match rows with
  | _ :: _ =>
      {| out_description := description step_info;
         formatted_text := Formatter._format_step_result step_info rows;
         raw_results := rows;
         error := None |}
  | [] =>
      {| out_description := description step_info;
         formatted_text :=
           "Step " +:+ pretty (step step_info) +:+ " ("
             +:+ description step_info +:+ "): No matching data found";
         raw_results := [];
         error := None |}
  end.

(** One iteration of [for step_info in execution_steps]. *)
Definition run_step (st : RunState) (step_info : Step) : RunState :=
  match _resolve_query_parameters (sql step_info)
          (step_results_for_deps st) (depends_on step_info) with
  | None =>
      {| conn := conn st;
         step_results_for_deps := step_results_for_deps st;
         output_results :=
           output_results st ++ [resolution_failure_record step_info];
         executed := executed st |}
  | Some (sql_query, params) =>
      match db_execute (conn st) sql_query params with
      | (conn', ExecRows rows) =>
          {| conn := conn';
             step_results_for_deps :=
               <[query_id step_info := rows]> (step_results_for_deps st);
             output_results :=
               output_results st ++ [success_record step_info rows];
             executed := executed st ++ [(sql_query, params)] |}
      | (conn', ExecError e) =>
          {| conn := conn';
             step_results_for_deps := step_results_for_deps st;
             output_results :=
               output_results st
                 ++ [execution_failure_record step_info sql_query e];
             executed := executed st ++ [(sql_query, params)] |}
      end
  end.

Definition run_steps (st : RunState) (execution_steps : list Step)
    : RunState :=
  foldl run_step st execution_steps.

Definition initial_state (connection : DB) : RunState :=
  {| conn := connection;
     step_results_for_deps := ∅;
     output_results := [];
     executed := [] |}.

(** The body of [with engine.connect() as connection]. *)
Definition run_plan (connection : DB) (execution_steps : list Step)
    : RunState :=
  run_steps (initial_state connection) execution_steps.

(** A step fails: its placeholders do not resolve, or the store raises. *)
Definition step_fails (st : RunState) (s : Step) : Prop :=
  match _resolve_query_parameters (sql s) (step_results_for_deps st)
          (depends_on s) with
  | None => True
  | Some (sql_query, params) =>
      match db_execute (conn st) sql_query params with
      | (_, ExecError _) => True
      | (_, ExecRows _) => False
      end
  end.

End WithStore.

Arguments mkRun {DB} _ _ _ _.
Arguments conn {DB} _.
Arguments step_results_for_deps {DB} _.
Arguments output_results {DB} _.
Arguments executed {DB} _.
Arguments run_step {DB} _ _ _.
Arguments run_steps {DB} _ _ _.
Arguments initial_state {DB} _.
Arguments run_plan {DB} _ _ _.
Arguments step_fails {DB} _ _ _.

End Runner.


(** ** Engine creation ([database_service.py], lines 10-54) *)

Module Database.

(** [os.path.join] (POSIX) *)
Definition os_path_join (a b : string) : string :=
  if Py.startswith b "/" then b
  else if String.eqb a "" || Py.endswith a "/" then a +:+ b
  else a +:+ "/" +:+ b.

Abbreviation Config := (gmap string Value).

(** [config[key]] *)
Definition config_item (config : Config) (key : string) : Result Value :=
  match config !! key with
  | Some v => Ok v
  | None => Raise (KeyError key)
  end.

Section WithEnvironment.

Variable Engine : Type.
(** [os.path.dirname(__file__)] *)
Variable script_dir : string.
(** [os.path.isfile] *)
Variable isfile : string -> bool.
(** [sqlalchemy.create_engine(url, pool_pre_ping=...)]: the engine, or
    the text of the [SQLAlchemyError] it raised. *)
Variable create_engine : string -> bool -> Engine + string.

(** The [except SQLAlchemyError] clause around the whole body. *)
Definition engine_or_connection_error (r : Engine + string)
    : Result Engine :=
  match r with
  | inl engine => Ok engine
  | inr e =>
      Raise (ConnectionError ("Failed to connect to the database: " +:+ e))
  end.

(** [f"...{user}:{password}@{host}:{port}/{database}"]; the keys are read
    from left to right. *)
Definition server_url (config : Config) (scheme : string)
    (user_key database_key : string) : Result string :=
  user ← config_item config user_key;
  password ← config_item config "password";
  host ← config_item config "host";
  port ← config_item config "port";
  database ← config_item config database_key;
  Ok (scheme +:+ py_str user +:+ ":" +:+ py_str password +:+ "@"
        +:+ py_str host +:+ ":" +:+ py_str port +:+ "/"
        +:+ py_str database).

Definition _create_engine (config : Config) : Result Engine :=
  let db_type := default VNone (config !! "database_type") in
  if decide (db_type = VStr "sqlite") then
    db_filename ← config_item config "database_path";
    match db_filename with
    | VStr name =>
        let data_dir :=
          os_path_join (os_path_join script_dir "..") "data" in
        let full_db_path := os_path_join data_dir name in
        if isfile full_db_path then
          engine_or_connection_error
            (create_engine ("sqlite:///" +:+ full_db_path) false)
        else
          Raise (FileNotFoundError
                   ("Database file not found: " +:+ full_db_path))
    | _ => Raise TypeError
    end
  else if decide (db_type = VStr "mysql") then
    conn_str ← server_url config "mysql+pymysql://" "user" "database";
    engine_or_connection_error (create_engine conn_str true)
  else if decide (db_type = VStr "postgresql") then
    conn_str ←
      server_url config "postgresql://" "username" "database_name";
    engine_or_connection_error (create_engine conn_str true)
  else if decide (db_type = VStr "sqlserver") then
    conn_str ← server_url config "mssql+pyodbc://" "user" "database";
    engine_or_connection_error
      (create_engine
         (conn_str +:+ "?driver=ODBC+Driver+17+for+SQL+Server") true)
  else
    Raise (ValueError
             ("Unsupported database type: '" +:+ py_str db_type +:+ "'")).

(** [DatabaseService(config).get_engine()] *)
Definition DatabaseService (config : Config) : Result Engine :=
  _create_engine config.

End WithEnvironment.
End Database.

(** ** The entry point ([execute_and_format.py], lines 7-61) *)

Module Service.
Section WithEnvironment.

Variable Engine : Type.
Variable script_dir : string.
Variable isfile : string -> bool.
Variable create_engine : string -> bool -> Engine + string.
Variable DB : Type.
(** [engine.connect()] *)
Variable connect : Engine -> Result DB.
Variable db_execute : DB -> string -> Params -> DB * ExecResult.

Definition connection_error_record (e : string) : OutputRecord :=
  {| out_description := "Database Connection Error";
     formatted_text := "Error: " +:+ e;
     raw_results := [];
     error := Some e |}.

Definition execute_queries_and_format_with_dependencies
    (config : Database.Config) (plan : ExecutionPlan)
    : Result (list OutputRecord) :=
  match Database.DatabaseService Engine script_dir isfile create_engine
          config with
  | Raise (FileNotFoundError e) | Raise (ValueError e)
  | Raise (ConnectionError e) => Ok [connection_error_record e]
  | Raise e => Raise e
  | Ok engine =>
      connection ← connect engine;
      Ok (Runner.output_results
            (Runner.run_plan db_execute connection (execution_plan plan)))
  end.

End WithEnvironment.
End Service.

(** ** Parsed JSON, with the Python operations the code applies to it *)

(** What [json.loads] returns. Numbers are integers here. *)
#[warnings="-register-all"]
Inductive JSON : Type :=
  | JNull
  | JBool (b : bool)
  | JNum (n : Z)
  | JStr (s : string)
  | JArr (items : list JSON)
  | JObj (members : list (string * JSON)).

Module PyJson.

(** [d[key]] on the members of a dictionary, when present *)
Fixpoint obj_get (key : string) (members : list (string * JSON))
    : option JSON :=
  match members with
  | [] => None
  | (k, v) :: rest => if String.eqb k key then Some v else obj_get key rest
  end.

(** [d[key] = v] on the members of a dictionary *)
Fixpoint obj_set (key : string) (v : JSON) (members : list (string * JSON))
    : list (string * JSON) :=
  match members with
  | [] => [(key, v)]
  | (k, old) :: rest =>
      if String.eqb k key then (k, v) :: rest
      else (k, old) :: obj_set key v rest
  end.

(** [x == key] for a string [key] *)
Definition equals_str (x : JSON) (key : string) : bool :=
  match x with
  | JStr s => String.eqb s key
  | _ => false
  end.

(** [key in x]: key membership for a dictionary, element membership for
    a list, substring test for a string, [TypeError] otherwise. *)
Definition py_in (key : string) (x : JSON) : Result bool :=
  match x with
  | JObj members => Ok (bool_decide (is_Some (obj_get key members)))
  | JArr items => Ok (existsb (fun item => equals_str item key) items)
  | JStr s => Ok (Py.contains s key)
  | JNull | JBool _ | JNum _ => Raise TypeError
  end.

(** [x[key]] for a string [key] *)
Definition py_getitem (x : JSON) (key : string) : Result JSON :=
  match x with
  | JObj members =>
      match obj_get key members with
      | Some v => Ok v
      | None => Raise (KeyError key)
      end
  | _ => Raise TypeError
  end.

(** [x.get(key, default)] *)
Definition py_get (x : JSON) (key : string) (default : JSON) : Result JSON :=
  match x with
  | JObj members =>
      Ok (match obj_get key members with Some v => v | None => default end)
  | _ => Raise AttributeError
  end.

(** Truth value of [x] in a condition *)
Definition truthy (x : JSON) : bool :=
  match x with
  | JNull => false
  | JBool b => b
  | JNum n => negb (n =? 0)
  | JStr s => negb (String.eqb s "")
  | JArr items => match items with [] => false | _ => true end
  | JObj members => match members with [] => false | _ => true end
  end.

End PyJson.

Import PyJson.

(** ** Plan ingestion ([generate_sql.py], lines 19-51 and 183-213) *)

Module Ingest.

(** ASCII [lower] *)
Definition lower_char (c : ascii) : ascii :=
  let n := nat_of_ascii c in
  if ((65 <=? n) && (n <=? 90))%nat then ascii_of_nat (n + 32) else c.

Fixpoint lower (s : string) : string :=
  match s with
  | EmptyString => ""
  | String c rest => String (lower_char c) (lower rest)
  end.

(** Does [s] start with [pat], letter case ignored? *)
Fixpoint prefix_ignorecase (pat s : string) : bool :=
  match pat, s with
  | EmptyString, _ => true
  | String p pat', String c s' =>
      Ascii.eqb (lower_char p) (lower_char c) && prefix_ignorecase pat' s'
  | String _ _, EmptyString => false
  end.

(** [re.sub(re.escape(pat), repl, s, flags=re.IGNORECASE)] for a
    non-empty [pat] and a [repl] without backslashes. *)
Fixpoint sub_ignorecase_from (pat repl s : string) (skip : nat) : string :=
  match s with
  | EmptyString => ""
  | String c rest =>
      match skip with
      | S k => sub_ignorecase_from pat repl rest k
      | O =>
          if prefix_ignorecase pat s then
            repl +:+ sub_ignorecase_from pat repl rest (String.length pat - 1)
          else String c (sub_ignorecase_from pat repl rest 0)
      end
  end.

Definition translations : list (string * string) :=
  [ ("CURDATE()", "date('now')");
    ("NOW()", "datetime('now', 'localtime')");
    ("YEAR(CURDATE())", "strftime('%Y', 'now')");
    ("DATE_FORMAT(date_column, '%Y-%m')", "strftime('%Y-%m', date_column)") ].

(** [_translate_sql_for_dialect]; [re.sub] raises [TypeError] on a value
    that is not a string. *)
Definition _translate_sql_for_dialect (sql_query : JSON) (db_type : string)
    : Result JSON :=
  if String.eqb (lower db_type) "sqlite" then
    match sql_query with
    | JStr q =>
        Ok (JStr (foldl (fun acc '(non_sqlite_func, sqlite_func) =>
                           sub_ignorecase_from non_sqlite_func sqlite_func
                             acc 0)
                        q translations))
    | _ => Raise TypeError
    end
  else Ok sql_query.

Definition required_keys : list string :=
  ["execution_plan"; "tables_used"; "total_steps"; "has_dependencies"].

Definition step_required_keys : list string :=
  ["step"; "query_id"; "description"; "sql"; "depends_on"; "table_used"].

(** [for key in keys: if key not in x: raise ValueError(message(key))] *)
Fixpoint require_keys (keys : list string) (x : JSON)
    (message : string -> string) : Result unit :=
  match keys with
  | [] => Ok ()
  | key :: rest =>
      present ← py_in key x;
      if (present : bool) then require_keys rest x message
      else Raise (ValueError (message key))
  end.

Definition missing_top_key (key : string) : string :=
  "模型返回的JSON缺少 '" +:+ key +:+ "' 键。".

Definition missing_step_key (i : nat) (key : string) : string :=
  "执行计划第" +:+ pretty (i + 1)%nat +:+ "步缺少 '" +:+ key +:+ "' 键".

(** One iteration of [for i, step in enumerate(...)]: the step after
    [step["sql"] = translated_sql]. *)
Definition ingest_step (db_type : string) (i : nat) (step : JSON)
    : Result JSON :=
  _ ← require_keys step_required_keys step (missing_step_key i);
  original_sql ← py_getitem step "sql";
  translated_sql ← _translate_sql_for_dialect original_sql db_type;
  match step with
  | JObj members => Ok (JObj (obj_set "sql" translated_sql members))
  | _ => Raise TypeError
  end.

Fixpoint ingest_steps (db_type : string) (i : nat) (steps : list JSON)
    : Result (list JSON) :=
  match steps with
  | [] => Ok []
  | step :: rest =>
      step' ← ingest_step db_type i step;
      rest' ← ingest_steps db_type (S i) rest;
      Ok (step' :: rest')
  end.

(** The body of the [try] block after [json.loads]. *)
Definition ingest (db_type : string) (optimization_info : JSON)
    (result_json : JSON) : Result JSON :=
  _ ← require_keys required_keys result_json missing_top_key;
  plan ← py_getitem result_json "execution_plan";
  match plan with
  | JArr steps =>
      steps' ← ingest_steps db_type 0 steps;
      match result_json with
      | JObj members =>
          Ok (JObj (obj_set "optimization_info" optimization_info
                      (obj_set "execution_plan" (JArr steps') members)))
      | _ => Raise TypeError
      end
  | _ => Raise (ValueError "execution_plan 必须是列表格式")
  end.

(** What [generate_sql_with_dependencies] returns: an error string or the
    plan dictionary. *)
Inductive Generated : Type :=
  | GenError (message : string)
  | GenPlan (result_json : JSON).

(** A step that is a dictionary whose [sql], when present, is a string. *)
Definition step_is_object (step : JSON) : Prop :=
  ∃ members,
    step = JObj members
    ∧ ∀ v, obj_get "sql" members = Some v → ∃ q, v = JStr q.

(** A dictionary step without one of the six required fields. *)
Definition step_lacks_field (step : JSON) : Prop :=
  ∃ members key,
    step = JObj members ∧ key ∈ step_required_keys
    ∧ obj_get key members = None.

Definition parse_failure (model_output e : string) : string :=
  "错误：解析模型返回的JSON失败。模型原始输出: '" +:+ model_output
    +:+ "'. 错误详情: " +:+ e.

(** Lines 183-213: [parsed] is [json.loads(model_output)], with the text of
    the [JSONDecodeError] on the right. Only [JSONDecodeError] and
    [ValueError] are caught. *)
Definition parse_plan (db_type : string) (optimization_info : JSON)
    (model_output : string) (parsed : JSON + string) : Result Generated :=
  match parsed with
  | inr e => Ok (GenError (parse_failure model_output e))
  | inl result_json =>
      match ingest db_type optimization_info result_json with
      | Ok plan => Ok (GenPlan plan)
      | Raise (ValueError e) => Ok (GenError (parse_failure model_output e))
      | Raise e => Raise e
      end
  end.

End Ingest.

(** ** The generate/validate loop ([app.py], lines 216-268) *)

Module Acquisition.

(** What the loop does, in order: the two service calls and the three
    messages it shows ([st.error] for a failed generation, [st.write] for
    an accepted plan, [st.warning] for a rejected one). *)
Inductive Event : Type :=
  | OracleCall (last_error : option JSON)
  | GenerationFailed (message : string)
  | ValidatorCall (plan : JSON)
  | Accepted
  | Rejected (reason : JSON).

(** The variables [final_execution_plan] and [last_error] when the [for]
    loop is left, or the exception that left it. *)
Inductive LoopEnd : Type :=
  | Finished (final_execution_plan : option JSON) (last_error : option JSON)
  | Crashed (e : Exn).

(** What follows the loop: [st.error] without any execution, the call of
    [execute_queries_and_format_with_dependencies] on the plan, or the
    handler of the enclosing [try]. *)
Inductive Outcome : Type :=
  | NoValidPlan (last_error : option JSON)
  | ExecutePlan (plan : JSON)
  | Aborted (e : Exn).

(** The dictionary built when the validator's answer cannot be used. *)
Definition invalid (reason : string) : JSON :=
  JObj [("is_valid", JBool false); ("reason", JStr reason)].

Section WithServices.

(** The state of the language model service. *)
Variable World : Type.
(** The model output for the generation prompt, which carries
    [last_error]. *)
Variable plan_oracle : World -> option JSON -> World * string.
(** The model output for the validation prompt built from the plan, or
    the exception raised while building it. *)
Variable plan_validator : World -> JSON -> World * Result string.
(** [json.loads], with the text of the [JSONDecodeError] on the right. *)
Variable json_loads : string -> JSON + string.
Variable db_type : string.
Variable optimization_info : JSON.
(** [progress_bar.progress(value)], which may raise. *)
Variable progress : nat -> Result unit.

Definition generate_sql_with_dependencies (w : World)
    (last_error : option JSON) : World * Result Ingest.Generated :=
  let '(w', model_output) := plan_oracle w last_error in
  (w', Ingest.parse_plan db_type optimization_info model_output
         (json_loads model_output)).

(** [generate_sql.py], lines 290-305. *)
Definition validate_final_sql_result (w : World) (execution_plan : JSON)
    : World * Result JSON :=
  let '(w', answer) := plan_validator w execution_plan in
  (w',
   validation_result ← answer;
   match json_loads validation_result with
   | inr e => Ok (invalid ("解析验证结果失败: " +:+ e))
   | inl result_json =>
       present ← py_in "is_valid" result_json;
       if (present : bool) then Ok result_json
       else Ok (invalid ("解析验证结果失败: "
                           +:+ "模型返回的JSON缺少 'is_valid' 键。"))
   end).

(** One iteration after its progress update: the two calls and what
    becomes of [final_execution_plan] and [last_error]; [continue_with]
    is the rest of the loop. *)
Definition attempt_body (w : World) (last_error : option JSON)
    (continue_with : World -> option JSON -> World * list Event * LoopEnd)
    : World * list Event * LoopEnd :=
      let '(w1, generated) := generate_sql_with_dependencies w last_error in
      match generated with
      | Raise e => (w1, [OracleCall last_error], Crashed e)
      | Ok (Ingest.GenError message) =>
          let '(w', events, fin) := continue_with w1 last_error in
          (w', OracleCall last_error :: GenerationFailed message :: events,
           fin)
      | Ok (Ingest.GenPlan execution_plan) =>
          let '(w2, validated) :=
            validate_final_sql_result w1 execution_plan in
          let called :=
            [OracleCall last_error; ValidatorCall execution_plan] in
          match validated with
          | Raise e => (w2, called, Crashed e)
          | Ok validation_result =>
              match py_get validation_result "is_valid" (JBool false) with
              | Raise e => (w2, called, Crashed e)
              | Ok is_valid =>
                  if truthy is_valid then
                    (w2, called ++ [Accepted],
                     Finished (Some execution_plan) last_error)
                  else
                    match py_get validation_result "reason"
                            (JStr "未知原因") with
                    | Raise e => (w2, called, Crashed e)
                    | Ok reason =>
                        let '(w', events, fin) :=
                          continue_with w2 (Some reason) in
                        (w', called ++ Rejected reason :: events, fin)
                    end
              end
          end
      end.

(** [for attempt in range(...)] from iteration [attempt] on, with
    [remaining] iterations left; the events are those of these
    iterations. *)
Fixpoint attempts (remaining attempt : nat) (w : World)
    (last_error : option JSON) : World * list Event * LoopEnd :=
  match remaining with
  | O => (w, [], Finished None last_error)
  | S k =>
      match progress (40 + attempt * 20) with
      | Raise e => (w, [], Crashed e)
      | Ok _ => attempt_body w last_error (attempts k (S attempt))
      end
  end.

(** Lines 216-268: the loop from [last_error = None], then the test
    [if not final_execution_plan]. *)
Definition acquire (max_attempts : nat) (w : World)
    : World * list Event * Outcome :=
  let '(w', events, fin) := attempts max_attempts 1 w None in
  (w', events,
   match fin with
   | Crashed e => Aborted e
   | Finished None last_error => NoValidPlan last_error
   | Finished (Some plan) last_error =>
       if truthy plan then ExecutePlan plan else NoValidPlan last_error
   end).

End WithServices.

(** Counting in the event log. *)
Definition is_oracle_call (ev : Event) : bool :=
  match ev with OracleCall _ => true | _ => false end.
Definition is_validator_call (ev : Event) : bool :=
  match ev with ValidatorCall _ => true | _ => false end.
Definition is_rejection (ev : Event) : bool :=
  match ev with Rejected _ => true | _ => false end.

Definition count (p : Event -> bool) (events : list Event) : nat :=
  length (List.filter p events).

(** The reason of the last rejection in the log, if any. *)
Fixpoint last_rejection (events : list Event) (seen : option JSON)
    : option JSON :=
  match events with
  | [] => seen
  | Rejected reason :: rest => last_rejection rest (Some reason)
  | _ :: rest => last_rejection rest seen
  end.

(** What holds of the events and the end of [n] iterations entered with
    [last_error]. *)
Definition loop_invariant (n : nat) (last_error : option JSON)
    (events : list Event) (fin : LoopEnd) : Prop :=
  (count is_oracle_call events ≤ n)%nat
  ∧ match fin with
    | Finished (Some plan) _ =>
        truthy plan = true
        ∧ ∃ pre e,
            events = pre ++ [OracleCall e; ValidatorCall plan; Accepted]
            ∧ Accepted ∉ pre
    | Finished None last =>
        last = last_rejection events last_error
        ∧ (Accepted ∉ events)
        ∧ count is_oracle_call events = n
    | Crashed _ => True
    end.

End Acquisition.

(** ** Ordering by [step], as the specification words it *)

Module SpecOrder.

(** Stable insertion of a step among steps in ascending [step] order. *)
Fixpoint insert_by_step (s : Step) (sorted : list Step) : list Step :=
  match sorted with
  | [] => [s]
  | t :: rest =>
      if step s <=? step t then s :: t :: rest
      else t :: insert_by_step s rest
  end.

(** The steps in ascending [step] order. *)
Fixpoint ascending_step_order (steps : list Step) : list Step :=
  match steps with
  | [] => []
  | s :: rest => insert_by_step s (ascending_step_order rest)
  end.

(** Is the list already in ascending [step] order? *)
Fixpoint is_ascending (steps : list Step) : bool :=
  match steps with
  | [] => true
  | s :: rest =>
      forallb (fun t => step s <=? step t) rest && is_ascending rest
  end.

(** Execution in ascending [step] order: the runner behaves as if the steps
    were first put in that order. *)
Definition runs_in_step_order {DB : Type}
    (db_execute : DB -> string -> Params -> DB * ExecResult)
    (connection : DB) (steps : list Step) : Prop :=
  Runner.run_plan db_execute connection steps
  = Runner.run_plan db_execute connection
      (ascending_step_order steps).

End SpecOrder.

(** ** Concrete stores, plans and results used in the examples *)

Module Examples.

(** A store that records the SQL text it receives and returns no row. *)
Definition recording_execute (received : list string) (sql_query : string)
    (params : Params) : list string * ExecResult :=
  (received ++ [sql_query], ExecRows []).

(** A store with one table: [SELECT bad] fails, [SELECT none] returns no
    row, every other query returns one row. *)
Definition small_execute (received : list string) (sql_query : string)
    (params : Params) : list string * ExecResult :=
  (received ++ [sql_query],
   if String.eqb sql_query "SELECT bad" then ExecError "no such table: bad"
   else if String.eqb sql_query "SELECT none" then ExecRows []
   else ExecRows [[("n", VInt 1)]]).

Definition second_then_first : list Step :=
  [ mkStep 2 "q2" "second" "SELECT 2" [] "t";
    mkStep 1 "q1" "first" "SELECT 1" [] "t" ].

Definition first_then_second : list Step :=
  [ mkStep 1 "q1" "first" "SELECT 1" [] "t";
    mkStep 2 "q2" "second" "SELECT 2" [] "t" ].

Definition plan_with_failures : list Step :=
  [ mkStep 1 "a" "fine" "SELECT 1" [] "t";
    mkStep 2 "b" "unresolved" "SELECT {{missing_field}}" ["a"] "t";
    mkStep 3 "c" "broken" "SELECT bad" [] "t";
    mkStep 4 "d" "empty" "SELECT none" [] "t";
    mkStep 5 "e" "after" "SELECT 5" [] "t" ].

Definition uses_product_ids : Step :=
  mkStep 2 "details" "products"
    "SELECT * FROM products WHERE id IN {{product_ids}}" ["find_ids"] "products".

(** [find_ids] ran and returned rows that carry no usable column. *)
Definition two_column_results : StepResultSet :=
  {[ "find_ids" := [[("a", VInt 1); ("b", VInt 2)]] ]}.

Definition find_top_dept_results : StepResultSet :=
  {[ "find_top_dept" := [[("department_id", VInt 7)]] ]}.

Definition find_ids_results : StepResultSet :=
  {[ "find_ids" := [[("id", VInt 1)]; [("id", VInt 2)]; [("id", VInt 1)]] ]}.
(** The configuration of [config.py], on a machine without the file. *)
Definition default_config : Database.Config :=
  {[ "database_type" := VStr "sqlite";
     "database_path" := VStr "enterprise_database.db" ]}.

Definition no_file (path : string) : bool := false.

Definition unit_engine (url : string) (pool_pre_ping : bool)
    : unit + string := inl ().

Definition open_connection (engine : unit) : Result (list string) := Ok [].

Definition one_step_plan : ExecutionPlan :=
  mkPlan [mkStep 1 "q1" "first" "SELECT 1" [] "t"] ["t"] 1 false.

(** A well-formed answer of the oracle, and one whose only step is
    [null]. *)
Definition plan_json : JSON :=
  JObj [ ("execution_plan",
          JArr [ JObj [ ("step", JNum 1); ("query_id", JStr "q1");
                        ("description", JStr "first");
                        ("sql", JStr "SELECT 1"); ("depends_on", JArr []);
                        ("table_used", JStr "t") ] ]);
         ("tables_used", JArr [JStr "t"]);
         ("total_steps", JNum 1);
         ("has_dependencies", JBool false) ].

Definition null_step_json : JSON :=
  JObj [ ("execution_plan", JArr [JNull]);
         ("tables_used", JArr []);
         ("total_steps", JNum 1);
         ("has_dependencies", JBool false) ].

(** An answer whose second step lacks its fields, after a step whose
    [sql] is [null]. *)
Definition null_sql_json : JSON :=
  JObj [ ("execution_plan",
          JArr [ JObj [ ("step", JNum 1); ("query_id", JStr "q1");
                        ("description", JStr "first");
                        ("sql", JNull); ("depends_on", JArr []);
                        ("table_used", JStr "t") ];
                 JObj [ ("step", JNum 2) ] ]);
         ("tables_used", JArr [JStr "t"]);
         ("total_steps", JNum 2);
         ("has_dependencies", JBool true) ].

(** A parser for the texts that the scripted services produce. *)
Definition scripted_loads (text : string) : JSON + string :=
  if String.eqb text "plan" then inl plan_json
  else if String.eqb text "null step" then inl null_step_json
  else if String.eqb text "null sql" then inl null_sql_json
  else if String.eqb text "yes" then
    inl (JObj [("is_valid", JBool true); ("reason", JStr "fine")])
  else if String.eqb text "no" then
    inl (JObj [("is_valid", JBool false); ("reason", JStr "wrong join")])
  else inr "Expecting value".

(** Streamlit's progress bar accepts the integers from 0 to 100. *)
Definition streamlit_progress (value : nat) : Result unit :=
  if (value <=? 100)%nat then Ok () else Raise StreamlitAPIException.

(** An oracle that always answers [text]; the world counts its calls. *)
Definition counting_oracle (text : string) (calls : nat)
    (last_error : option JSON) : nat * string :=
  (S calls, text).

(** A validator that accepts from the [k]-th oracle call on. *)
Definition validator_accepting_from (k : nat) (calls : nat) (plan : JSON)
    : nat * Result string :=
  (calls, Ok (if (k <=? calls)%nat then "yes" else "no")).

Definition employees_of_department : string :=
  "SELECT * FROM employees WHERE department_id = {{department_id}}".

Definition name_qty_rows : list Row :=
  [ [("name", VStr "A"); ("qty", VInt 10)];
    [("name", VStr "BB"); ("qty", VInt 5)] ].

(** Two states before [uses_product_ids] runs: [find_ids] returned rows
    without a usable column, and [find_ids] never produced a result. *)
Definition zero_values_state : Runner.RunState (list string) :=
  Runner.mkRun [] two_column_results [] [].

Definition absent_state : Runner.RunState (list string) :=
  Runner.mkRun [] ∅ [] [].

End Examples.

(** ** Table selection ([generate_sql.py], lines 74-103, and [app.py],
    lines 188-193) *)

Module Selection.

(** [table in table_names], for an element of the model's list and the
    names of the existing tables: only a string can be equal to a name. *)
Definition known_table (table_names : list string) (table : JSON)
    : option string :=
  match table with
  | JStr name => if bool_decide (name ∈ table_names) then Some name else None
  | _ => None
  end.

(** The body of the [try] block; [parsed] is [json.loads(model_output)]. *)
Definition selected (table_names : list string) (result_json : JSON)
    : Result (list string) :=
  present ← py_in "relevant_tables" result_json;
  if (present : bool) then
    tables ← py_getitem result_json "relevant_tables";
    match tables with
    | JArr items => Ok (omap (known_table table_names) items)
    | _ => Ok []
    end
  else Ok [].

(** [select_relevant_tables]: [JSONDecodeError] and [TypeError] give the
    empty list. *)
Definition select_relevant_tables (table_names : list string)
    (parsed : JSON + string) : Result (list string) :=
  match parsed with
  | inr _ => Ok []
  | inl result_json =>
      match selected table_names result_json with
      | Raise TypeError => Ok []
      | other => other
      end
  end.

(** [app.py], lines 189-193: the tables used for the query, with the
    tables the user selected as a fallback. *)
Definition relevant_tables (all_table_names selected_tables : list string)
    (parsed : JSON + string) : Result (list string) :=
  tables ← select_relevant_tables all_table_names parsed;
  match tables with
  | [] => Ok selected_tables
  | _ => Ok tables
  end.

End Selection.

(** ** Parts of the answer synthesis ([generate_sql.py], lines 320-328) *)

Module Synthesis.

(** [formatted_data]: the non-empty texts, separated by a blank line. *)
Definition formatted_data (execution_results : list OutputRecord) : string :=
  Py.join (nl +:+ nl)
    (map formatted_text
       (List.filter (fun res => negb (String.eqb (formatted_text res) ""))
          execution_results)).

(** [data_for_visualization]: the raw results of the last record that has
    some, [None] when no record has any. *)
Definition data_for_visualization (execution_results : list OutputRecord)
    : option (list Row) :=
  match List.find (fun result =>
                     match raw_results result with
                     | [] => false
                     | _ :: _ => true
                     end)
          (rev execution_results) with
  | Some result => Some (raw_results result)
  | None => None
  end.

End Synthesis.

(** ** Templates and their tokens *)

Module Template.

(** The text that a token was cut from. *)
Definition token_source (t : Token) : string :=
  match t with
  | Lit c => String c ""
  | Placeholder name => "{{" +:+ name +:+ "}}"
  end.

(** What [re.sub] writes for a token once its parameter is bound. *)
Definition token_marker (t : Token) : string :=
  match t with
  | Lit c => String c ""
  | Placeholder name => ":" +:+ name
  end.

Fixpoint concat_map (f : Token -> string) (toks : list Token) : string :=
  match toks with
  | [] => ""
  | t :: rest => f t +:+ concat_map f rest
  end.

(** [s[k:]] *)
Fixpoint string_drop (k : nat) (s : string) : string :=
  match k, s with
  | O, _ => s
  | S _, EmptyString => ""
  | S k', String _ rest => string_drop k' rest
  end.

(** A value that some row of some listed dependency holds in some column. *)
Definition cell_of_dependency (step_results : StepResultSet)
    (depends_on : list string) (v : Value) : Prop :=
  ∃ dep rows row col,
    dep ∈ depends_on ∧ step_results !! dep = Some rows
    ∧ row ∈ rows ∧ (col, v) ∈ row.

End Template.

(** ** Steps that ask the store the same thing *)

Module Plans.

(** Two steps with the same template, dependencies and [query_id]; they may
    differ in [step], [description] and [table_used]. *)
Definition same_queries (s t : Step) : Prop :=
  sql s = sql t ∧ depends_on s = depends_on t ∧ query_id s = query_id t.

(** Two states that the store and later steps cannot tell apart. *)
Definition same_traffic {DB : Type} (st st' : Runner.RunState DB) : Prop :=
  Runner.conn st = Runner.conn st'
  ∧ Runner.step_results_for_deps st = Runner.step_results_for_deps st'
  ∧ Runner.executed st = Runner.executed st'
  ∧ map raw_results (Runner.output_results st)
    = map raw_results (Runner.output_results st')
  ∧ map error (Runner.output_results st)
    = map error (Runner.output_results st').

End Plans.

(** ** More concrete environments *)

Module Environments.

Definition any_file (path : string) : bool := true.

(** A connection that cannot be opened. *)
Definition refused_connection (engine : unit) : Result (list string) :=
  Raise (SQLAlchemyError "unable to open database file").

(** A SQLite configuration without [database_path]. *)
Definition config_without_path : Database.Config :=
  {[ "database_type" := VStr "sqlite" ]}.

(** What ingestion makes of [Examples.plan_json]. *)
Definition accepted_plan : JSON :=
  JObj [ ("execution_plan",
          JArr [ JObj [ ("step", JNum 1); ("query_id", JStr "q1");
                        ("description", JStr "first");
                        ("sql", JStr "SELECT 1"); ("depends_on", JArr []);
                        ("table_used", JStr "t") ] ]);
         ("tables_used", JArr [JStr "t"]);
         ("total_steps", JNum 1);
         ("has_dependencies", JBool false);
         ("optimization_info", JNull) ].

(** A plan whose second step names a field that no dependency provides
    and whose third step fails in the store; the fourth reads the result of
    the first. *)
Definition missing_field_plan : list Step :=
  [ mkStep 1 "a" "fine" "SELECT 1" [] "t";
    mkStep 2 "b" "unresolved" "SELECT {{missing_field}}" [] "t";
    mkStep 3 "c" "broken" "SELECT bad" [] "t";
    mkStep 4 "d" "after" "SELECT 4 WHERE n = {{n}}" ["a"] "t" ].

(** The members of [Examples.plan_json]. *)
Definition plan_members : list (string * JSON) :=
  match Examples.plan_json with
  | JObj members => members
  | _ => []
  end.

End Environments.

(** ** What an ingested plan looks like *)

Module Shape.

(** A step as plan ingestion hands it on: a dictionary with the six
    required fields, whose [sql] is a string when the dialect is SQLite. *)
Definition complete_step (db_type : string) (step : JSON) : Prop :=
  ∃ members,
    step = JObj members
    ∧ (∀ key, key ∈ Ingest.step_required_keys →
              is_Some (obj_get key members))
    ∧ (Ingest.lower db_type = "sqlite" →
       ∃ q, obj_get "sql" members = Some (JStr q)).

(** A step before and after ingestion: the same dictionary but for [sql],
    and the very same one when the dialect is not SQLite. *)
Definition same_but_sql (db_type : string) (step step' : JSON) : Prop :=
  ∃ members members',
    step = JObj members ∧ step' = JObj members'
    ∧ (∀ key, key ≠ "sql" → obj_get key members' = obj_get key members)
    ∧ (Ingest.lower db_type ≠ "sqlite" → members' = members).

End Shape.

(** ** Reading the log of the loop *)

Module LoopLog.

Import Acquisition.

Definition is_accepted (ev : Event) : bool :=
  match ev with Accepted => true | _ => false end.
Definition is_generation_failure (ev : Event) : bool :=
  match ev with GenerationFailed _ => true | _ => false end.


(** How the numbers of events relate. *)
Definition counts_ok (events : list Event) : Prop :=
  (count is_validator_call events + count is_generation_failure events
   ≤ count is_oracle_call events)%nat
  ∧ (count is_rejection events + count is_accepted events
     ≤ count is_validator_call events)%nat
  ∧ (count is_accepted events ≤ 1)%nat.

End LoopLog.

(** ** Schema texts from the cache ([get_table_schema.py], lines 134-248,
    and [generate_sql.py], lines 125-152) *)

Module Schema.

(** The cache file as [extract_database_info] writes it, with the fields
    that the formatting functions read. A [dict] read back from JSON keeps
    its order, so [tables] is an association list. *)
Record ColumnInfo : Type := mkColumn {
  col_name : string;
  col_type : string;
  nullable : bool;
  default_value : option string
}.

Record TableData : Type := mkTable {
  create_sql : string;
  columns : list ColumnInfo;
  column_count : nat
}.

Record Relationship : Type := mkRelationship {
  from_table : string;
  from_columns : list string;
  to_table : string;
  to_columns : list string;
  rel_description : string
}.

Record CacheData : Type := mkCache {
  timestamp : string;
  tables : list (string * TableData);
  relationships : list Relationship
}.

(** [cache_data["tables"][table_name]] when the name is a key *)
Fixpoint table_get (table_name : string) (ts : list (string * TableData))
    : option TableData :=
  match ts with
  | [] => None
  | (k, d) :: rest =>
      if String.eqb k table_name then Some d else table_get table_name rest
  end.

(** The two lines appended for a table; none when it has no column. *)
Definition table_lines (table_name : string) (table_data : TableData)
    : list string :=
  match columns table_data with
  | [] => []
  | cols =>
      [ "-- Table: `" +:+ table_name +:+ "`";
        "-- Columns: "
          +:+ Py.join ", "
                (map (fun col =>
                        "`" +:+ col_name col +:+ "` (" +:+ col_type col
                          +:+ ")")
                     cols) ]
  end.

(** The lines of a table looked up by name. *)
Definition known_table_lines (cache_data : CacheData) (table_name : string)
    : list string :=
  match table_get table_name (tables cache_data) with
  | Some table_data => table_lines table_name table_data
  | None => []
  end.

(** The relationship section: a heading, then one line per description. *)
Definition relationship_lines (descriptions : list string) : list string :=
  match descriptions with
  | [] => []
  | _ => (nl +:+ "-- Relationships:")
           :: map (fun d => "-- " +:+ d) descriptions
  end.

Definition format_table_overview (cache_data : CacheData) : string :=
  Py.join nl
    (flat_map (fun '(table_name, table_data) =>
                 table_lines table_name table_data)
              (tables cache_data)
     ++ relationship_lines (map rel_description (relationships cache_data))).

(** [sorted(list(related_tables))] *)
Definition related_tables (cache_data : CacheData) : list string :=
  merge_sort String.le
    (elements
       (list_to_set
          (flat_map (fun rel => [from_table rel; to_table rel])
                    (relationships cache_data)) : gset string)).

Definition format_table_overview_for_selection (cache_data : CacheData)
    : string :=
  match relationships cache_data with
  | [] =>
      "No relationships found between tables. Unable to provide a filtered view."
  | rels =>
      Py.join nl
        (flat_map (known_table_lines cache_data) (related_tables cache_data)
         ++ relationship_lines (map rel_description rels))
  end.

(** [table_name in table_names] *)
Definition listed (table_names : list string) (table_name : string) : bool :=
  bool_decide (table_name ∈ table_names).

(** [cache_data] is what [load_cache] returned: [None] without a readable
    cache file. *)
Definition get_simplified_schemas_for_tables (cache_data : option CacheData)
    (table_names : list string) : string :=
  match cache_data with
  | None =>
      "Error: Cache data not found. Please run 'Get Table Overview' first."
  | Some cache =>
      Py.join nl
        (flat_map (known_table_lines cache) table_names
         ++ relationship_lines
              (map rel_description
                 (List.filter
                    (fun rel => listed table_names (from_table rel)
                                && listed table_names (to_table rel))
                    (relationships cache))))
  end.

Definition get_specific_table_schemas (cache_data : option CacheData)
    (table_names : list string) : string :=
  match cache_data with
  | None =>
      "Error: Cache data not found. Please run get_table_overview() first."
  | Some cache =>
      let relevant_relationships :=
        map rel_description
          (List.filter
             (fun rel => listed table_names (from_table rel)
                         || listed table_names (to_table rel))
             (relationships cache)) in
      Py.join (nl +:+ nl)
        (omap (fun table_name =>
                 create_sql <$> table_get table_name (tables cache))
              table_names
         ++ match relevant_relationships with
            | [] => []
            | _ =>
                [ nl +:+ "/*" +:+ nl +:+ "Foreign Key Relationships:" +:+ nl
                    +:+ Py.join nl
                          (map (fun rel => "-- " +:+ rel)
                               relevant_relationships)
                    +:+ nl +:+ "*/" ]
            end)
  end.

(** [detailed_schema] when the generation prompt is built
    ([generate_sql.py], lines 125-152). *)
Definition detailed_schema (cache_data : option CacheData)
    (table_overview : string) (relevant_tables : list string) : string :=
  match relevant_tables with
  | [] => table_overview
  | _ =>
      let schema := get_specific_table_schemas cache_data relevant_tables in
      if Py.contains schema "错误" then table_overview else schema
  end.

End Schema.

(** ** Column types for the charts ([generate_visualization.py],
    lines 8-25 and 184-189) *)

Module Charts.

Inductive ColumnType : Type :=
  | Temporal
  | Numerical
  | Categorical
  | Other.

#[global] Instance ColumnType_eq_dec : EqDecision ColumnType.
Proof. solve_decision. Defined.

(** [isinstance(value, (int, float))] and [isinstance(value, str)], over
    the values of a row. *)
Definition is_number (value : Value) : bool :=
  match value with VInt _ => true | _ => false end.
Definition is_str (value : Value) : bool :=
  match value with VStr _ => true | _ => false end.

(** One iteration of the loop over [sample_row.items()]. *)
Definition column_type (col : string) (value : Value) : ColumnType :=
  let lowered := Ingest.lower col in
  if Py.contains lowered "date" || Py.contains lowered "time" then Temporal
  else if is_number value && negb (Py.contains lowered "id") then Numerical
  else if is_str value || Py.contains lowered "id" then Categorical
  else Other.

Definition _infer_column_types (data : list Row)
    : list (string * ColumnType) :=
  match data with
  | [] => []
  | sample_row :: _ =>
      map (fun '(col, value) => (col, column_type col value)) sample_row
  end.

(** [[col for col, type in col_types.items() if type == wanted]] *)
Definition columns_of_type (wanted : ColumnType)
    (col_types : list (string * ColumnType)) : list string :=
  map fst (List.filter (fun '(_, t) => bool_decide (t = wanted)) col_types).

(** The category and measure columns of the fallback bar chart, when there
    are both. *)
Definition fallback_columns (data_results : list Row)
    : option (string * string) :=
  let col_types := _infer_column_types data_results in
  match columns_of_type Categorical col_types,
        columns_of_type Numerical col_types with
  | cat_col :: _, num_col :: _ => Some (cat_col, num_col)
  | _, _ => None
  end.

End Charts.

(** ** A cache file *)

Module Caches.

(** The keys of [tables] are distinct, as those of a dictionary are, and
    every relationship joins two of them: each foreign key refers to a
    table that [extract_database_info] listed. *)
Definition consistent (cache_data : Schema.CacheData) : Prop :=
  NoDup (map fst (Schema.tables cache_data))
  ∧ ∀ rel,
      rel ∈ Schema.relationships cache_data →
      Schema.from_table rel ∈ map fst (Schema.tables cache_data)
      ∧ Schema.to_table rel ∈ map fst (Schema.tables cache_data).

(** Two tables joined by one foreign key. *)
Definition orders_cache : Schema.CacheData :=
  Schema.mkCache "2024-01-01T00:00:00"
    [ ("customers",
       Schema.mkTable "CREATE TABLE `customers` (`id` INTEGER)"
         [Schema.mkColumn "id" "INTEGER" false None] 1);
      ("orders",
       Schema.mkTable
         "CREATE TABLE `orders` (`id` INTEGER, `customer_id` INTEGER)"
         [ Schema.mkColumn "id" "INTEGER" false None;
           Schema.mkColumn "customer_id" "INTEGER" true None ] 2) ]
    [ Schema.mkRelationship "orders" ["customer_id"] "customers" ["id"]
        "`orders`.`customer_id` can be joined with `customers`.`id`" ].

End Caches.

(** * Properties *)

(** ** The embedded helpers on sample inputs *)

Example endswith_suffixes :
  Py.endswith "user_ids" "_ids" = true ∧ Py.endswith "ids" "_ids" = false
  ∧ is_list_parameter "total" = false ∧ is_list_parameter "status" = true.
Proof. split_and!; reflexivity. Qed.

Example guess_column_samples :
  guess_column "user_ids" = "user_id" ∧ guess_column "products" = "product"
  ∧ guess_column "dept_id" = "dept_id".
Proof. split_and!; reflexivity. Qed.

(** The group may hold ["{"], never ["}"], and is never empty. *)
Example tokens_samples :
  tokens "a{{b}}" = [Lit "a"; Placeholder "b"]
  ∧ tokens "{{{b}}" = [Placeholder "{b"]
  ∧ tokens "{{}}" = [Lit "{"; Lit "{"; Lit "}"; Lit "}"]
  ∧ tokens "{{c}d}}"
    = [Lit "{"; Lit "{"; Lit "c"; Lit "}"; Lit "d"; Lit "}"; Lit "}"].
Proof. split_and!; reflexivity. Qed.

(** A repeated placeholder is resolved once and rewritten twice. *)
Example repeated_placeholder :
  fst <$> _resolve_query_parameters "{{n}} + {{n}}"
            {[ "q" := [[("n", VInt 3)]] ]} ["q"]
  = Some ":n + :n".
Proof. reflexivity. Qed.

(** A scalar placeholder takes the first value found; a NULL found there
    is Python's [None], and resolution fails. *)
Example scalar_samples :
  _extract_parameter_value "total"
    {[ "q" := [[("a", VInt 1); ("total", VInt 9)]; [("total", VInt 8)]] ]}
    ["missing"; "q"]
  = PyVal (VInt 9)
  ∧ _extract_parameter_value "total" {[ "q" := [[("n", VInt 4)]] ]} ["q"]
    = PyVal (VInt 4)
  ∧ _resolve_query_parameters "{{total}}" {[ "q" := [[("total", VNone)]] ]}
      ["q"]
    = None.
Proof. split_and!; reflexivity. Qed.

Example translate_samples :
  Ingest._translate_sql_for_dialect (JStr "SELECT curdate(), Now()") "SQLite"
  = Ok (JStr "SELECT date('now'), datetime('now', 'localtime')")
  ∧ Ingest._translate_sql_for_dialect (JStr "SELECT NOW()") "mysql"
    = Ok (JStr "SELECT NOW()")
  ∧ Ingest._translate_sql_for_dialect JNull "sqlite" = Raise TypeError.
Proof. split_and!; reflexivity. Qed.

Example py_in_samples :
  py_in "step" (JObj [("step", JNum 1)]) = Ok true
  ∧ py_in "step" (JArr [JStr "step"]) = Ok true
  ∧ py_in "step" (JStr "one step") = Ok true
  ∧ py_in "step" (JNum 3) = Raise TypeError.
Proof. split_and!; reflexivity. Qed.

Example os_path_join_samples :
  Database.os_path_join "/app/service" ".." = "/app/service/.."
  ∧ Database.os_path_join "/app/" "data" = "/app/data"
  ∧ Database.os_path_join "/app" "/tmp/x.db" = "/tmp/x.db".
Proof. split_and!; reflexivity. Qed.

(** ** Strings *)

Lemma string_length_app (s1 s2 : string) :
  String.length (s1 +:+ s2) = (String.length s1 + String.length s2)%nat.
Proof.
  induction s1 as [|c s1 IH]; [reflexivity|].
  change (String c s1 +:+ s2) with (String c (s1 +:+ s2)).
  simpl. now rewrite IH.
Qed.

Lemma app_nonempty_l (s1 s2 : string) : s1 ≠ "" → s1 +:+ s2 ≠ "".
Proof. destruct s1; [congruence|discriminate]. Qed.

(** ** The plan runner *)

Section RunnerFacts.

Context {DB : Type} (db_execute : DB -> string -> Params -> DB * ExecResult).

Local Abbreviation run_step := (Runner.run_step db_execute).
Local Abbreviation run_steps := (Runner.run_steps db_execute).
Local Abbreviation run_plan := (Runner.run_plan db_execute).
Local Abbreviation outputs := Runner.output_results.
Local Abbreviation results := Runner.step_results_for_deps.

Lemma run_steps_app st l1 l2 :
  run_steps st (l1 ++ l2) = run_steps (run_steps st l1) l2.
Proof. apply foldl_app. Qed.

Lemma run_steps_cons st s l :
  run_steps st (s :: l) = run_steps (run_step st s) l.
Proof. reflexivity. Qed.

(** Every iteration appends one record, which carries the step's
    description. *)
Lemma run_step_appends st s :
  ∃ r, outputs (run_step st s) = outputs st ++ [r]
       ∧ out_description r = description s.
Proof.
  unfold Runner.run_step.
  destruct (_resolve_query_parameters _ _ _) as [[q ps]|]; simpl.
  - destruct (db_execute _ q ps) as [c [rows|e]]; simpl.
    + eexists; split; [reflexivity|]. now destruct rows.
    + eexists; split; reflexivity.
  - eexists; split; reflexivity.
Qed.

Lemma run_steps_descriptions st l :
  map out_description (outputs (run_steps st l))
  = map out_description (outputs st) ++ map description l.
Proof.
  revert st. induction l as [|s l IH]; intros st.
  - simpl. now rewrite app_nil_r.
  - rewrite run_steps_cons, IH.
    destruct (run_step_appends st s) as (r & -> & Hd).
    rewrite map_app. simpl. rewrite Hd, <- app_assoc. reflexivity.
Qed.

Lemma run_steps_length st l :
  length (outputs (run_steps st l)) = (length (outputs st) + length l)%nat.
Proof.
  rewrite <- (length_map out_description), run_steps_descriptions.
  now rewrite length_app, !length_map.
Qed.

Lemma run_steps_outputs_prefix st l :
  outputs st `prefix_of` outputs (run_steps st l).
Proof.
  revert st. induction l as [|s l IH]; intros st; [reflexivity|].
  rewrite run_steps_cons. etrans; [|apply IH].
  destruct (run_step_appends st s) as (r & -> & _).
  now apply prefix_app_r.
Qed.

(** The record of a failed step. *)
Lemma run_step_failure st s :
  Runner.step_fails db_execute st s →
  ∃ r, outputs (run_step st s) = outputs st ++ [r]
       ∧ out_description r = description s
       ∧ is_Some (error r) ∧ raw_results r = [] ∧ formatted_text r ≠ "".
Proof.
  unfold Runner.step_fails, Runner.run_step.
  destruct (_resolve_query_parameters _ _ _) as [[q ps]|]; simpl.
  - destruct (db_execute _ q ps) as [c [rows|e]]; simpl; [tauto|].
    intros _. eexists; split; [reflexivity|]. simpl.
    split_and!; eauto; try discriminate.
  - intros _. eexists; split; [reflexivity|]. simpl.
    split_and!; eauto; try discriminate.
Qed.

Lemma sorted_is_fixed (l : list Step) :
  SpecOrder.is_ascending l = true → SpecOrder.ascending_step_order l = l.
Proof.
  induction l as [|s l IH]; [reflexivity|]. simpl.
  intros [Hall Hl]%andb_prop. rewrite (IH Hl).
  destruct l as [|t l]; [reflexivity|]. simpl in *.
  apply andb_prop in Hall as [Hst _]. now rewrite Hst.
Qed.

End RunnerFacts.

(** ** Placeholder resolution *)

Lemma collect_values_absent name (sr : StepResultSet) deps :
  (∀ dep, dep ∈ deps → sr !! dep = None) →
  collect_values name sr deps = [].
Proof.
  induction deps as [|d deps IH]; [reflexivity|]. intros Habs. simpl.
  rewrite (Habs d) by apply list_elem_of_here.
  apply IH. intros dep Hin. apply Habs. now apply list_elem_of_further.
Qed.

Lemma extract_list_empty name (sr : StepResultSet) deps :
  is_list_parameter name = true →
  collect_values name sr deps = [] →
  _extract_parameter_value name sr deps = PyVal VNone.
Proof.
  intros Hl Hc. unfold _extract_parameter_value. now rewrite Hl, Hc.
Qed.

(** An unresolvable placeholder aborts the substitution, wherever it stands
    in the template. *)
Lemma substitute_fails name (sr : StepResultSet) deps toks :
  is_None (_extract_parameter_value name sr deps) = true →
  ∀ params : Params,
    Placeholder name ∈ toks → params !! name = None →
    substitute toks sr deps params = None.
Proof.
  intros Hnone. induction toks as [|tok toks IH]; intros params Hin Hfresh.
  - now apply elem_of_nil in Hin.
  - apply elem_of_cons in Hin as [<-|Hin].
    + simpl. now rewrite Hfresh, Hnone.
    + destruct tok as [c|p]; simpl.
      * now rewrite (IH params Hin Hfresh).
      * destruct (params !! p) eqn:Hp.
        -- now rewrite (IH params Hin Hfresh).
        -- destruct (is_None (_extract_parameter_value p sr deps)) eqn:Hv;
             [reflexivity|].
           rewrite IH; [reflexivity|assumption|].
           rewrite lookup_insert_ne; [assumption|].
           intros ->. congruence.
Qed.

(** C1, as stated, fails: a plan that lists step 2 before step 1 is run in
    list order, and the store receives [SELECT 2] before [SELECT 1]. *)
Lemma C1_counterexample :
  ¬ SpecOrder.runs_in_step_order Examples.recording_execute []
Examples.second_then_first.
Proof.
  unfold SpecOrder.runs_in_step_order. intros H.
  apply (f_equal Runner.conn) in H. vm_compute in H. discriminate H.
Qed.

Section RunnerOrder.

Context {DB : Type} (db_execute : DB -> string -> Params -> DB * ExecResult).

Lemma run_step_executed_prefix (st : Runner.RunState DB) s :
  Runner.executed st
  `prefix_of` Runner.executed (Runner.run_step db_execute st s).
Proof.
  unfold Runner.run_step.
  destruct (_resolve_query_parameters _ _ _) as [[q ps]|]; simpl;
    [|reflexivity].
  destruct (db_execute _ q ps) as [c [rows|e]]; simpl;
    now apply prefix_app_r.
Qed.

Lemma run_steps_executed_prefix (st : Runner.RunState DB) l :
  Runner.executed st
  `prefix_of` Runner.executed (Runner.run_steps db_execute st l).
Proof.
  revert st. induction l as [|s l IH]; intros st; [reflexivity|].
  rewrite run_steps_cons. etrans; [apply run_step_executed_prefix|apply IH].
Qed.

Lemma run_step_results (st : Runner.RunState DB) s :
  Runner.step_results_for_deps (Runner.run_step db_execute st s)
  = match _resolve_query_parameters (sql s)
            (Runner.step_results_for_deps st) (depends_on s) with
    | None => Runner.step_results_for_deps st
    | Some (sql_query, params) =>
        match db_execute (Runner.conn st) sql_query params with
        | (_, ExecRows rows) =>
            <[query_id s := rows]> (Runner.step_results_for_deps st)
        | (_, ExecError _) => Runner.step_results_for_deps st
        end
    end.
Proof.
  unfold Runner.run_step.
  destruct (_resolve_query_parameters _ _ _) as [[q ps]|]; [|reflexivity].
  now destruct (db_execute _ q ps) as [c [rows|e]].
Qed.

Lemma run_step_dom (st : Runner.RunState DB) s :
  dom (Runner.step_results_for_deps st)
  ⊆ dom (Runner.step_results_for_deps (Runner.run_step db_execute st s)).
Proof.
  rewrite run_step_results.
  destruct (_resolve_query_parameters _ _ _) as [[q ps]|]; [|reflexivity].
  destruct (db_execute _ q ps) as [c [rows|e]]; [|reflexivity].
  rewrite dom_insert_L. set_solver.
Qed.

Lemma run_steps_dom (st : Runner.RunState DB) l :
  dom (Runner.step_results_for_deps st)
  ⊆ dom (Runner.step_results_for_deps (Runner.run_steps db_execute st l)).
Proof.
  revert st. induction l as [|s l IH]; intros st; [reflexivity|].
  rewrite run_steps_cons. etrans; [apply run_step_dom|apply IH].
Qed.

End RunnerOrder.

(** C1, amended: the runner processes the steps in the order of the
    [execution_plan] list. The i-th output record belongs to the i-th list
    entry, the queries of a prefix of the list are executed before those of
    the entries that follow, and nothing looks at the [step] field to order
    the run; the run is in ascending [step] order when the list is. *)
Theorem C1_runs_in_list_order {DB : Type}
    (db_execute : DB -> string -> Params -> DB * ExecResult)
    (connection : DB) (steps : list Step) :
  map out_description
    (Runner.output_results (Runner.run_plan db_execute connection steps))
  = map description steps
  ∧ (∀ i,
       Runner.executed (Runner.run_plan db_execute connection (take i steps))
       `prefix_of`
       Runner.executed (Runner.run_plan db_execute connection steps))
  ∧ (SpecOrder.is_ascending steps = true →
     SpecOrder.runs_in_step_order db_execute connection steps).
Proof.
  split_and!.
  - unfold Runner.run_plan. now rewrite run_steps_descriptions.
  - intros i. unfold Runner.run_plan.
    rewrite <- (take_drop i steps) at 2. rewrite run_steps_app.
    apply run_steps_executed_prefix.
  - intros Hasc. unfold SpecOrder.runs_in_step_order.
    now rewrite sorted_is_fixed.
Qed.

Lemma C1_runs_in_list_order_witness :
  SpecOrder.is_ascending Examples.first_then_second = true
  ∧ SpecOrder.runs_in_step_order Examples.recording_execute []
Examples.first_then_second.
Proof.
  split; [reflexivity|].
  apply (C1_runs_in_list_order Examples.recording_execute []
Examples.first_then_second).
reflexivity.
Defined.

(** C5: one iteration adds the step's [query_id] to the step results
    exactly when its query ran without error, with the rows it returned
    (the empty list for a query without rows); a step that fails resolution
    or execution leaves the step results as they are; and no key ever
    leaves them in the iterations that follow. *)
Theorem C5_step_results_grow {DB : Type}
    (db_execute : DB -> string -> Params -> DB * ExecResult)
    (st : Runner.RunState DB) (s : Step) (rest : list Step) :
  Runner.step_results_for_deps (Runner.run_step db_execute st s)
  = match _resolve_query_parameters (sql s)
            (Runner.step_results_for_deps st) (depends_on s) with
    | None => Runner.step_results_for_deps st
    | Some (sql_query, params) =>
        match db_execute (Runner.conn st) sql_query params with
        | (_, ExecRows rows) =>
            <[query_id s := rows]> (Runner.step_results_for_deps st)
        | (_, ExecError _) => Runner.step_results_for_deps st
        end
    end
  ∧ dom (Runner.step_results_for_deps st)
    ⊆ dom (Runner.step_results_for_deps (Runner.run_step db_execute st s))
  ∧ dom (Runner.step_results_for_deps (Runner.run_step db_execute st s))
    ⊆ dom (Runner.step_results_for_deps
             (Runner.run_steps db_execute st (s :: rest))).
Proof.
  split_and!.
  - apply run_step_results.
  - apply run_step_dom.
  - rewrite run_steps_cons. apply run_steps_dom.
Qed.

(** C3, as stated, fails: a list placeholder that collects nothing from the
    rows of its dependency and one whose dependency is absent altogether
    fail in the same way; the resolver result and the record are equal. *)
Lemma C3_counterexample :
  collect_values "product_ids" Examples.two_column_results ["find_ids"] = []
  ∧ Examples.two_column_results !! "find_ids"
    = Some [[("a", VInt 1); ("b", VInt 2)]]
  ∧ (∅ : StepResultSet) !! "find_ids" = None
  ∧ ¬ (_resolve_query_parameters (sql Examples.uses_product_ids)
Examples.two_column_results (depends_on Examples.uses_product_ids)
≠ _resolve_query_parameters (sql Examples.uses_product_ids)
  ∅ (depends_on Examples.uses_product_ids)
∨ Runner.output_results
  (Runner.run_step Examples.recording_execute
Examples.zero_values_state Examples.uses_product_ids)
≠ Runner.output_results
(Runner.run_step Examples.recording_execute
Examples.absent_state Examples.uses_product_ids)).
Proof.
  split_and!; [reflexivity..|].
  intros [H|H]; apply H; reflexivity.
Qed.

(** C3, amended: a list-typed placeholder that collects no value fails
    resolution, both when the rows of its dependencies yield nothing and
    when no dependency has a result at all; in both cases the step gets the
    same record, "Dependency resolution failed", and nothing is executed. *)
Theorem C3_list_placeholder_failure {DB : Type}
    (db_execute : DB -> string -> Params -> DB * ExecResult)
    (st : Runner.RunState DB) (s : Step) (name : string) :
  is_list_parameter name = true →
  Placeholder name ∈ tokens (sql s) →
  collect_values name (Runner.step_results_for_deps st) (depends_on s) = []
  ∨ (∀ dep, dep ∈ depends_on s →
       Runner.step_results_for_deps st !! dep = None) →
  _resolve_query_parameters (sql s) (Runner.step_results_for_deps st)
    (depends_on s) = None
  ∧ Runner.run_step db_execute st s
    = Runner.mkRun (Runner.conn st) (Runner.step_results_for_deps st)
        (Runner.output_results st
           ++ [mkOutput (description s)
                 ("Step " +:+ pretty (step s) +:+ " (" +:+ description s
                    +:+ "): Execution failed because a dependent query returned no results.")
                 [] (Some "Dependency resolution failed")])
        (Runner.executed st).
Proof.
  intros Hlist Hin Hcase.
  assert (Hnone : collect_values name (Runner.step_results_for_deps st)
                    (depends_on s) = []).
  { destruct Hcase as [H|H]; [exact H|now apply collect_values_absent]. }
  assert (Hres : _resolve_query_parameters (sql s)
                   (Runner.step_results_for_deps st) (depends_on s) = None).
  { unfold _resolve_query_parameters.
    apply (substitute_fails name); [|assumption|apply lookup_empty].
    now rewrite extract_list_empty. }
  split; [exact Hres|].
  unfold Runner.run_step. now rewrite Hres.
Qed.

Lemma C3_list_placeholder_failure_witness :
  is_list_parameter "product_ids" = true
  ∧ Placeholder "product_ids" ∈ tokens (sql Examples.uses_product_ids)
  ∧ _resolve_query_parameters (sql Examples.uses_product_ids)
Examples.two_column_results (depends_on Examples.uses_product_ids) = None.
Proof.
  split; [reflexivity|].
  split; [apply (bool_decide_unpack _); vm_compute; exact I|].
  apply (C3_list_placeholder_failure Examples.recording_execute
Examples.zero_values_state Examples.uses_product_ids "product_ids").
- reflexivity.
- apply (bool_decide_unpack _). vm_compute. exact I.
- left. reflexivity.
Defined.

(** What the resolver does on the scalar example of the specification. *)
Lemma resolve_department_id :
  _resolve_query_parameters Examples.employees_of_department
Examples.find_top_dept_results ["find_top_dept"]
= Some ("SELECT * FROM employees WHERE department_id = :department_id",
      {[ "department_id" := PyTuple {[ VInt 7 ]} ]}).
Proof. vm_compute. reflexivity. Qed.

(** C2, as stated, fails: [department_id] is not bound to the scalar 7. *)
Lemma C2_counterexample :
  ¬ ∃ sql_query (params : Params),
      _resolve_query_parameters Examples.employees_of_department
Examples.find_top_dept_results ["find_top_dept"]
= Some (sql_query, params)
∧ params !! "department_id" = Some (PyVal (VInt 7)).
Proof.
  intros (q & ps & Hres & Hlook).
  rewrite resolve_department_id in Hres. injection Hres as <- <-.
  rewrite lookup_singleton_eq in Hlook. discriminate Hlook.
Qed.

(** C2, amended: [department_id] ends in [_id], so the suffix rule makes it
    list-typed; resolution rewrites the placeholder to the named marker
    [:department_id] and binds that one parameter to the deduplicated
    collection whose only element is 7. *)
Theorem C2_department_id_binds_collection :
  is_list_parameter "department_id" = true
  ∧ ∃ params : Params,
      _resolve_query_parameters Examples.employees_of_department
Examples.find_top_dept_results ["find_top_dept"]
= Some ("SELECT * FROM employees WHERE department_id = :department_id",
      params)
∧ params !! "department_id" = Some (PyTuple {[ VInt 7 ]})
∧ dom params = {[ "department_id" ]}.
Proof.
  split; [reflexivity|].
  eexists. split; [apply resolve_department_id|].
  split; [apply lookup_singleton_eq|apply dom_singleton_L].
Qed.

(** C7: with [find_ids] giving the rows [{id: 1}, {id: 2}, {id: 1}], the
    list-typed placeholder [product_ids] is bound to the collection whose
    elements are exactly 1 and 2, each once, behind the marker
    [:product_ids]. *)
Theorem C7_product_ids_deduplicated :
  is_list_parameter "product_ids" = true
  ∧ collect_values "product_ids" Examples.find_ids_results ["find_ids"]
    = [VInt 1; VInt 2; VInt 1]
  ∧ ∃ (params : Params) (vs : gset Value),
      _resolve_query_parameters (sql Examples.uses_product_ids)
Examples.find_ids_results (depends_on Examples.uses_product_ids)
= Some ("SELECT * FROM products WHERE id IN :product_ids", params)
∧ params !! "product_ids" = Some (PyTuple vs)
∧ (∀ v, v ∈ vs ↔ v = VInt 1 ∨ v = VInt 2)
∧ size vs = 2%nat.
Proof.
  split; [reflexivity|]. split; [reflexivity|].
  exists {[ "product_ids" := PyTuple {[ VInt 1; VInt 2 ]} ]},
         {[ VInt 1; VInt 2 ]}.
  split_and!.
  - vm_compute. reflexivity.
  - apply lookup_singleton_eq.
  - set_solver.
  - rewrite size_union by set_solver. now rewrite !size_singleton.
Qed.

(** ** The result formatter *)

Lemma repeat_char_length c n : String.length (Py.repeat_char c n) = n.
Proof. induction n as [|n IH]; simpl; congruence. Qed.

(** Padding reaches the width exactly when the text fits. *)
Lemma ljust_length s w :
  (String.length s ≤ w)%nat → String.length (Py.ljust s w) = w.
Proof.
  intros H. unfold Py.ljust.
  rewrite string_length_app, repeat_char_length. lia.
Qed.

Lemma max_default0_upper (xs : list nat) x :
  x ∈ xs → (x ≤ Py.max_default0 xs)%nat.
Proof.
  induction xs as [|y xs IH]; intros Hin.
  - now apply elem_of_nil in Hin.
  - change (Py.max_default0 (y :: xs))
      with (Nat.max y (Py.max_default0 xs)).
    apply elem_of_cons in Hin as [->|Hin]; [lia|].
    specialize (IH Hin). lia.
Qed.

Lemma max_default0_attained (xs : list nat) :
  Py.max_default0 xs = 0%nat ∨ Py.max_default0 xs ∈ xs.
Proof.
  induction xs as [|y xs IH]; [now left|].
  change (Py.max_default0 (y :: xs)) with (Nat.max y (Py.max_default0 xs)).
  destruct (Nat.max_spec y (Py.max_default0 xs)) as [[_ ->]|[_ ->]].
  - destruct IH as [->|IH]; [now left|]. right. now apply list_elem_of_further.
  - right. apply list_elem_of_here.
Qed.

Section ColumnWidths.

Variable raw_results : list Row.
Variable col : string.

Lemma col_width_header :
  (String.length col ≤ Formatter.col_width raw_results col)%nat.
Proof. unfold Formatter.col_width. lia. Qed.

Lemma col_width_cell row :
  row ∈ raw_results →
  (String.length (Formatter.cell_text row col)
   ≤ Formatter.col_width raw_results col)%nat.
Proof.
  intros Hin. unfold Formatter.col_width.
  etrans; [|apply Nat.le_max_r].
  apply max_default0_upper.
  apply (list_elem_of_fmap_2
           (fun r => String.length (Formatter.cell_text r col))).
  exact Hin.
Qed.

Lemma col_width_attained :
  Formatter.col_width raw_results col = String.length col
  ∨ ∃ row, row ∈ raw_results
           ∧ Formatter.col_width raw_results col
             = String.length (Formatter.cell_text row col).
Proof.
  unfold Formatter.col_width.
  set (cells := map _ raw_results).
  destruct (Nat.max_spec (String.length col) (Py.max_default0 cells))
    as [[Hlt ->]|[_ ->]]; [|now left].
  destruct (max_default0_attained cells) as [H0|Hin].
  - lia.
  - right. apply list_elem_of_fmap in Hin as (row & Heq & Hrow). eauto.
Qed.

End ColumnWidths.

(** C9: for a non-empty list of rows the formatter joins, with newlines, a
    title, the header row, a rule of dashes as long as the header, and one
    line per row. Header and cells are joined by [" | "] after being
    left-justified to the column width, which is the largest of the
    header's length and the lengths of the column's cell texts, so every
    padded header and cell has exactly that length. On the rows
    [{name: "A", qty: 10}, {name: "BB", qty: 5}] the widths are 4 and 3. *)
Theorem C9_aligned_table (step_info : Step) (first : Row) (rest : list Row) :
  let rows := first :: rest in
  let columns := row_keys first in
  let header :=
    Py.join " | "
      (map (fun c => Py.ljust c (Formatter.col_width rows c)) columns) in
  Formatter._format_step_result step_info rows
  = Py.join nl
      (Formatter.title_line step_info rows
       :: header
       :: Py.repeat_char "-" (String.length header)
       :: map (fun row =>
                 Py.join " | "
                   (map (fun c => Py.ljust (Formatter.cell_text row c)
                                    (Formatter.col_width rows c))
                        columns))
              rows)
  ∧ length (Formatter.result_lines step_info rows) = (3 + length rows)%nat
  ∧ (∀ c,
       let w := Formatter.col_width rows c in
       (String.length c ≤ w)%nat
       ∧ (∀ row, row ∈ rows → (String.length (Formatter.cell_text row c) ≤ w)%nat)
       ∧ (w = String.length c
          ∨ ∃ row, row ∈ rows ∧ w = String.length (Formatter.cell_text row c))
       ∧ String.length (Py.ljust c w) = w
       ∧ (∀ row, row ∈ rows →
            String.length (Py.ljust (Formatter.cell_text row c) w) = w
            ∧ Py.ljust (Formatter.cell_text row c) w
              = Formatter.cell_text row c
                +:+ Py.repeat_char " "
                      (w - String.length (Formatter.cell_text row c))))
  ∧ Formatter.col_width Examples.name_qty_rows "name" = 4%nat
  ∧ Formatter.col_width Examples.name_qty_rows "qty" = 3%nat
  ∧ tail (Formatter.result_lines step_info Examples.name_qty_rows)
    = [ "name | qty";
        "----------";
        "A    | 10 ";
        "BB   | 5  " ].
Proof.
  intros rows columns header. split_and!.
  - reflexivity.
  - unfold Formatter.result_lines. simpl. now rewrite length_map.
  - intros c w. split_and!.
    + apply col_width_header.
    + intros row Hrow. now apply col_width_cell.
    + apply col_width_attained.
    + apply ljust_length, col_width_header.
    + intros row Hrow. split; [|reflexivity].
      now apply ljust_length, col_width_cell.
  - reflexivity.
  - reflexivity.
  - reflexivity.
Qed.

(** ** Engine creation and the entry point *)

Section EntryPoint.

Context {Engine DB : Type}.
Variable script_dir : string.
Variable isfile : string -> bool.
Variable create_engine : string -> bool -> Engine + string.
Variable connect : Engine -> Result DB.
Variable db_execute : DB -> string -> Params -> DB * ExecResult.

Local Abbreviation DatabaseService :=
  (Database.DatabaseService Engine script_dir isfile create_engine).
Local Abbreviation entry_point :=
  (Service.execute_queries_and_format_with_dependencies
     Engine script_dir isfile create_engine DB connect db_execute).

(** The database file of a SQLite configuration is missing. *)
Lemma missing_file_raises (config : Database.Config) name :
  config !! "database_type" = Some (VStr "sqlite") →
  config !! "database_path" = Some (VStr name) →
  isfile (Database.os_path_join
            (Database.os_path_join
               (Database.os_path_join script_dir "..") "data") name)
  = false →
  DatabaseService config
  = Raise (FileNotFoundError
             ("Database file not found: "
                +:+ Database.os_path_join
                      (Database.os_path_join
                         (Database.os_path_join script_dir "..") "data")
                      name)).
Proof.
  intros Ht Hp Hf.
  unfold Database.DatabaseService, Database._create_engine,
    Database.config_item.
  rewrite Ht, Hp. simpl. now rewrite Hf.
Qed.

(** The database type is none of the four supported ones. *)
Lemma unsupported_type_raises (config : Database.Config) :
  let db_type := default VNone (config !! "database_type") in
  db_type ∉ [VStr "sqlite"; VStr "mysql"; VStr "postgresql";
             VStr "sqlserver"] →
  DatabaseService config
  = Raise (ValueError
             ("Unsupported database type: '" +:+ py_str db_type +:+ "'")).
Proof.
  intros db_type Hnot.
  unfold Database.DatabaseService, Database._create_engine.
  fold db_type.
  repeat case_decide;
    first [ reflexivity
          | exfalso; apply Hnot;
            match goal with H : db_type = _ |- _ => rewrite H end;
            set_solver ].
Qed.

(** [create_engine] raises while a SQLite engine is being made. *)
Lemma sqlite_engine_failure_raises (config : Database.Config) name e :
  config !! "database_type" = Some (VStr "sqlite") →
  config !! "database_path" = Some (VStr name) →
  let full_db_path :=
    Database.os_path_join
      (Database.os_path_join (Database.os_path_join script_dir "..") "data")
      name in
  isfile full_db_path = true →
  create_engine ("sqlite:///" +:+ full_db_path) false = inr e →
  DatabaseService config
  = Raise (ConnectionError ("Failed to connect to the database: " +:+ e)).
Proof.
  intros Ht Hp full Hf He.
  unfold Database.DatabaseService, Database._create_engine,
    Database.config_item.
  rewrite Ht, Hp. simpl. fold full. now rewrite Hf, He.
Qed.

(** [create_engine] raises while a MySQL engine is being made. *)
Lemma mysql_engine_failure_raises (config : Database.Config) url e :
  config !! "database_type" = Some (VStr "mysql") →
  Database.server_url config "mysql+pymysql://" "user" "database" = Ok url →
  create_engine url true = inr e →
  DatabaseService config
  = Raise (ConnectionError ("Failed to connect to the database: " +:+ e)).
Proof.
  intros Ht Hu He.
  unfold Database.DatabaseService, Database._create_engine.
  rewrite Ht. simpl. rewrite Hu. simpl. now rewrite He.
Qed.

Lemma entry_point_on_failure (config : Database.Config)
    (plan : ExecutionPlan) e m :
  DatabaseService config = Raise e →
  e = FileNotFoundError m ∨ e = ValueError m ∨ e = ConnectionError m →
  entry_point config plan
  = Ok [mkOutput "Database Connection Error" ("Error: " +:+ m) []
          (Some m)].
Proof.
  intros Hraise Hclass.
  unfold Service.execute_queries_and_format_with_dependencies.
  rewrite Hraise. now destruct Hclass as [->|[->| ->]].
Qed.

End EntryPoint.

(** C10: when the engine cannot be created, because the SQLite file is
    missing, the database type is unsupported, or [create_engine] fails with
    a connection error, the entry point returns one record, with
    description "Database Connection Error", no raw result, the error text
    in [error] and in [formatted_text]. It does so for every plan, every
    connection function and every store, so no step is executed. *)
Theorem C10_connection_error_record {Engine DB : Type}
    (script_dir : string) (isfile : string -> bool)
    (create_engine : string -> bool -> Engine + string)
    (connect : Engine -> Result DB)
    (db_execute : DB -> string -> Params -> DB * ExecResult)
    (config : Database.Config) (plan : ExecutionPlan) :
  let entry_point :=
    Service.execute_queries_and_format_with_dependencies
      Engine script_dir isfile create_engine DB connect db_execute in
  let failure (m : string) :=
    Ok [mkOutput "Database Connection Error" ("Error: " +:+ m) [] (Some m)] in
  let data_dir :=
    Database.os_path_join (Database.os_path_join script_dir "..") "data" in
  (∀ e m,
     Database.DatabaseService Engine script_dir isfile create_engine config
     = Raise e →
     e = FileNotFoundError m ∨ e = ValueError m ∨ e = ConnectionError m →
     entry_point config plan = failure m)
  ∧ (∀ name,
       config !! "database_type" = Some (VStr "sqlite") →
       config !! "database_path" = Some (VStr name) →
       isfile (Database.os_path_join data_dir name) = false →
       entry_point config plan
       = failure ("Database file not found: "
                    +:+ Database.os_path_join data_dir name))
  ∧ (default VNone (config !! "database_type")
       ∉ [VStr "sqlite"; VStr "mysql"; VStr "postgresql"; VStr "sqlserver"] →
     entry_point config plan
     = failure ("Unsupported database type: '"
                  +:+ py_str (default VNone (config !! "database_type"))
                  +:+ "'"))
  ∧ (∀ name cause,
       config !! "database_type" = Some (VStr "sqlite") →
       config !! "database_path" = Some (VStr name) →
       isfile (Database.os_path_join data_dir name) = true →
       create_engine
         ("sqlite:///" +:+ Database.os_path_join data_dir name) false
       = inr cause →
       entry_point config plan
       = failure ("Failed to connect to the database: " +:+ cause))
  ∧ (∀ url cause,
       config !! "database_type" = Some (VStr "mysql") →
       Database.server_url config "mysql+pymysql://" "user" "database"
       = Ok url →
       create_engine url true = inr cause →
       entry_point config plan
       = failure ("Failed to connect to the database: " +:+ cause)).
Proof.
  intros entry_point failure data_dir.
  assert (Hgen : ∀ e m,
            Database.DatabaseService Engine script_dir isfile create_engine
              config = Raise e →
            e = FileNotFoundError m ∨ e = ValueError m ∨ e = ConnectionError m →
            entry_point config plan = failure m).
  { intros e m. apply entry_point_on_failure. }
  split_and!.
  - exact Hgen.
  - intros name Ht Hp Hf.
    apply (Hgen _ _ (missing_file_raises _ _ _ _ name Ht Hp Hf)). now left.
  - intros Hnot.
    apply (Hgen _ _ (unsupported_type_raises _ _ _ _ Hnot)). right. now left.
  - intros name cause Ht Hp Hf He.
    apply (Hgen _ _ (sqlite_engine_failure_raises _ _ _ _ name cause
                       Ht Hp Hf He)).
    right. now right.
  - intros url cause Ht Hu He.
    apply (Hgen _ _ (mysql_engine_failure_raises _ _ _ _ url cause Ht Hu He)).
    right. now right.
Qed.

Lemma C10_connection_error_record_witness :
Examples.default_config !! "database_type" = Some (VStr "sqlite")
∧ Examples.default_config !! "database_path"
  = Some (VStr "enterprise_database.db")
∧ Service.execute_queries_and_format_with_dependencies
    unit "/app/service" Examples.no_file Examples.unit_engine
    (list string) Examples.open_connection Examples.recording_execute
Examples.default_config Examples.one_step_plan
= Ok [mkOutput "Database Connection Error"
      ("Error: Database file not found: /app/service/../data/enterprise_database.db")
      []
      (Some "Database file not found: /app/service/../data/enterprise_database.db")].
Proof.
  split; [reflexivity|]. split; [reflexivity|].
  apply (proj1 (proj2
           (C10_connection_error_record "/app/service" Examples.no_file
Examples.unit_engine Examples.open_connection
Examples.recording_execute Examples.default_config
Examples.one_step_plan))
"enterprise_database.db");
reflexivity.
Defined.

(** ** Plan ingestion and the generate/validate loop *)

Import Acquisition.

Lemma obj_set_nonempty key v members : obj_set key v members ≠ [].
Proof.
  destruct members as [|[k old] rest]; simpl; [discriminate|].
  destruct (String.eqb k key); discriminate.
Qed.

(** An ingested plan is a non-empty dictionary, hence true in a condition. *)
Lemma ingest_truthy db_type optimization_info result_json plan :
  Ingest.ingest db_type optimization_info result_json = Ok plan →
  truthy plan = true.
Proof.
  unfold Ingest.ingest.
  destruct (Ingest.require_keys _ _ _); simpl; [|discriminate].
  destruct (py_getitem _ _) as [[| | | |steps|]|]; simpl; try discriminate.
  destruct (Ingest.ingest_steps _ _ _); simpl; [|discriminate].
  destruct result_json; try discriminate.
  intros [= <-]. simpl.
  destruct (obj_set _ _ _) eqn:Hset; [|reflexivity].
  now apply obj_set_nonempty in Hset.
Qed.

Lemma parse_plan_truthy db_type optimization_info model_output parsed plan :
  Ingest.parse_plan db_type optimization_info model_output parsed
  = Ok (Ingest.GenPlan plan) →
  truthy plan = true.
Proof.
  unfold Ingest.parse_plan. destruct parsed as [result_json|e]; [|discriminate].
  destruct (Ingest.ingest _ _ _) as [p|[]] eqn:Hing; try discriminate.
  intros [= <-]. exact (ingest_truthy _ _ _ _ Hing).
Qed.

Section LoopFacts.

Context {World : Type}.
Variable plan_oracle : World -> option JSON -> World * string.
Variable plan_validator : World -> JSON -> World * Result string.
Variable json_loads : string -> JSON + string.
Variable db_type : string.
Variable optimization_info : JSON.
Variable progress : nat -> Result unit.

Local Abbreviation attempts :=
  (Acquisition.attempts World plan_oracle plan_validator json_loads db_type
     optimization_info progress).

Lemma loop_invariant_cons n last_error ev events fin :
  ev ≠ Accepted → is_rejection ev = false →
  loop_invariant n last_error events fin →
  loop_invariant (if is_oracle_call ev then S n else n) last_error
    (ev :: events) fin.
Proof.
  intros Hacc Hrej [Hcount Hfin]. split.
  - unfold count in *. simpl. destruct (is_oracle_call ev); simpl; lia.
  - destruct fin as [[plan|] last|e]; [| |exact I].
    + destruct Hfin as (Ht & pre & e & -> & Hpre). split; [exact Ht|].
      exists (ev :: pre), e. split; [reflexivity|].
      intros [?|?]%elem_of_cons; congruence.
    + destruct Hfin as (-> & Hno & Hn). split_and!.
      * now destruct ev.
      * intros [?|?]%elem_of_cons; congruence.
      * unfold count in *. simpl.
        destruct (is_oracle_call ev); simpl; lia.
Qed.

Lemma attempts_invariant n :
  ∀ attempt w last_error w' events fin,
    attempts n attempt w last_error = (w', events, fin) →
    loop_invariant n last_error events fin.
Proof.
  induction n as [|n IH]; intros attempt w last_error w' events fin Hrun.
  - injection Hrun as <- <- <-. split; [reflexivity|].
    split_and!; [reflexivity|apply not_elem_of_nil|reflexivity].
  - simpl in Hrun.
    destruct (progress _) as [[]|e].
    2:{ injection Hrun as <- <- <-. split; [|exact I].
        unfold count. simpl. lia. }
    unfold attempt_body, generate_sql_with_dependencies in Hrun.
    destruct (plan_oracle w last_error) as [w1 model_output].
    destruct (Ingest.parse_plan _ _ _ _) as [[message|plan]|e] eqn:Hgen.
    + destruct (attempts n (S attempt) w1 last_error) as [[w2 evs] f]
        eqn:Hrec.
      injection Hrun as <- <- <-. apply IH in Hrec.
      apply (loop_invariant_cons n last_error (OracleCall last_error));
        [discriminate|reflexivity|].
      now apply (loop_invariant_cons n last_error (GenerationFailed message)).
    + destruct (validate_final_sql_result _ _ _ w1 plan)
        as [w2 [validation_result|e]].
      2:{ injection Hrun as <- <- <-. split; [|exact I].
          unfold count. simpl. lia. }
      destruct (py_get validation_result "is_valid" _) as [is_valid|e].
      2:{ injection Hrun as <- <- <-. split; [|exact I].
          unfold count. simpl. lia. }
      destruct (truthy is_valid).
      * injection Hrun as <- <- <-. split; [unfold count; simpl; lia|].
        split; [exact (parse_plan_truthy _ _ _ _ _ Hgen)|].
        exists [], last_error. split; [reflexivity|apply not_elem_of_nil].
      * destruct (py_get validation_result "reason" _) as [reason|e].
        2:{ injection Hrun as <- <- <-. split; [|exact I].
            unfold count. simpl. lia. }
        destruct (attempts n (S attempt) w2 (Some reason))
          as [[w3 evs] f] eqn:Hrec.
        injection Hrun as <- <- <-. apply IH in Hrec.
        destruct Hrec as [Hcount Hfin]. split.
        { unfold count in *. simpl. lia. }
        destruct f as [[p|] last|e]; [| |exact I].
        -- destruct Hfin as (Ht & pre & e & -> & Hpre). split; [exact Ht|].
           exists (OracleCall last_error :: ValidatorCall plan
                     :: Rejected reason :: pre), e.
           split; [reflexivity|].
           intros Hin. repeat apply elem_of_cons in Hin as [?|Hin];
             congruence.
        -- destruct Hfin as (-> & Hno & Hn). split_and!.
           ++ reflexivity.
           ++ intros Hin. repeat apply elem_of_cons in Hin as [?|Hin];
                congruence.
           ++ unfold count in *. simpl. lia.
    + injection Hrun as <- <- <-. split; [|exact I].
      unfold count. simpl. lia.
Qed.

End LoopFacts.

(** *** Malformed plans that are dictionaries of dictionaries *)

Lemma require_keys_object keys members message :
  (Ingest.require_keys keys (JObj members) message = Ok ()
   ∧ ∀ key, key ∈ keys → is_Some (obj_get key members))
  ∨ ∃ key, key ∈ keys ∧ obj_get key members = None
           ∧ Ingest.require_keys keys (JObj members) message
             = Raise (ValueError (message key)).
Proof.
  induction keys as [|k keys IH].
  - left. split; [reflexivity|]. intros key Hin. now apply elem_of_nil in Hin.
  - simpl. destruct (obj_get k members) as [v|] eqn:Hk.
    + rewrite bool_decide_eq_true_2 by eauto.
      destruct IH as [[Hok Hall]|(key & Hin & Hnone & Hraise)].
      * left. split; [exact Hok|].
        intros key [->|Hin]%elem_of_cons; eauto.
      * right. exists key. split_and!; try assumption.
        now apply list_elem_of_further.
    + rewrite bool_decide_eq_false_2 by (intros [? ?]; discriminate).
      right. exists k. split_and!; [apply list_elem_of_here|done..].
Qed.

Lemma ingest_step_object db_type i step :
  Ingest.step_is_object step →
  (∃ step', Ingest.ingest_step db_type i step = Ok step'
            ∧ ¬ Ingest.step_lacks_field step)
  ∨ ∃ message, Ingest.ingest_step db_type i step = Raise (ValueError message).
Proof.
  intros (members & -> & Hsql). unfold Ingest.ingest_step.
  destruct (require_keys_object Ingest.step_required_keys members
              (Ingest.missing_step_key i))
    as [[-> Hall]|(key & Hin & Hnone & ->)]; simpl; [|eauto].
  left.
  destruct (Hall "sql") as [v Hv]; [set_solver|]. rewrite Hv.
  destruct (Hsql v Hv) as [q ->]. unfold Ingest._translate_sql_for_dialect.
  assert (Hcomplete : ¬ Ingest.step_lacks_field (JObj members)).
  { intros (members' & key & [= <-] & Hin & Hnone).
    destruct (Hall key Hin) as [? ?]. congruence. }
  destruct (String.eqb _ _); simpl; eauto.
Qed.

Lemma ingest_steps_object db_type steps :
  ∀ i,
    Forall Ingest.step_is_object steps →
    Exists Ingest.step_lacks_field steps →
    ∃ message, Ingest.ingest_steps db_type i steps = Raise (ValueError message).
Proof.
  induction steps as [|step steps IH]; intros i Hobj Hlack.
  - now apply Exists_nil in Hlack.
  - apply Forall_cons in Hobj as [Hstep Hobj]. simpl.
    destruct (ingest_step_object db_type i step Hstep)
      as [(step' & -> & Hcomplete)|(message & ->)]; simpl; [|eauto].
    apply Exists_cons in Hlack as [Hlack|Hlack]; [contradiction|].
    destruct (IH (S i) Hobj Hlack) as (message & ->). simpl. eauto.
Qed.

(** Where the claim on malformed plans holds: the answer is a dictionary
    and, when [execution_plan] is a list, its entries are dictionaries whose
    [sql] is a string. Such an answer is turned into an error string, so the
    loop goes to its next iteration without calling the validator. *)
Lemma malformed_object_rejected db_type optimization_info model_output
    members :
  (∃ key, key ∈ Ingest.required_keys ∧ obj_get key members = None)
  ∨ (∃ v, obj_get "execution_plan" members = Some v
          ∧ ∀ steps, v ≠ JArr steps)
  ∨ (∃ steps, obj_get "execution_plan" members = Some (JArr steps)
              ∧ Forall Ingest.step_is_object steps
              ∧ Exists Ingest.step_lacks_field steps) →
  ∃ message,
    Ingest.parse_plan db_type optimization_info model_output
      (inl (JObj members))
    = Ok (Ingest.GenError message).
Proof.
  intros Hmal. unfold Ingest.parse_plan, Ingest.ingest.
  destruct (require_keys_object Ingest.required_keys members
              Ingest.missing_top_key)
    as [[-> Hall]|(key & Hin & Hnone & ->)]; simpl; [|eauto].
  destruct Hmal as [(key & Hin & Hnone)|[(v & Hv & Hnot)|(steps & Hv & Ho & Hl)]].
  - destruct (Hall key Hin) as [? ?]. congruence.
  - rewrite Hv. destruct v; simpl; eauto. now destruct (Hnot items).
  - rewrite Hv. simpl.
    destruct (ingest_steps_object db_type steps 0%nat Ho Hl) as (message & ->).
    simpl. eauto.
Qed.

(** C8, at two malformed answers. When the only step is [null], the
    membership test on the step raises [TypeError]; when a step whose [sql]
    is [null] comes before a step that lacks its fields, the dialect
    translation raises [TypeError]. Plan ingestion does not catch it: no
    error string is returned, and the loop is left at the first of its three
    attempts instead of going on to the next one. *)
Theorem C8_malformed_plan_escapes :
  Ingest.parse_plan "sqlite" JNull "null step" (inl Examples.null_step_json)
  = Raise TypeError
  ∧ acquire nat (Examples.counting_oracle "null step")
      (Examples.validator_accepting_from 0) Examples.scripted_loads
      "sqlite" JNull Examples.streamlit_progress 3 0%nat
    = (1%nat, [OracleCall None], Aborted TypeError)
  ∧ Ingest.parse_plan "sqlite" JNull "null sql" (inl Examples.null_sql_json)
    = Raise TypeError
  ∧ acquire nat (Examples.counting_oracle "null sql")
      (Examples.validator_accepting_from 0) Examples.scripted_loads
      "sqlite" JNull Examples.streamlit_progress 3 0%nat
    = (1%nat, [OracleCall None], Aborted TypeError).
Proof. split_and!; reflexivity. Qed.

(** * Further properties of the embedded code *)

(** ** Templates, tokens and resolution *)

Lemma string_app_assoc (a b c : string) : (a +:+ b) +:+ c = a +:+ (b +:+ c).
Proof.
  induction a as [|x a IH]; [reflexivity|].
  change ((String x a +:+ b) +:+ c) with (String x ((a +:+ b) +:+ c)).
  now rewrite IH.
Qed.

Lemma string_drop_app (a b : string) :
  Template.string_drop (String.length a) (a +:+ b) = b.
Proof. induction a as [|x a IH]; [now destruct b|exact IH]. Qed.

(** What [span_name] returns: the text is the name followed by the rest,
    and the name holds no closing brace. *)
Lemma span_name_spec s name tl :
  span_name s = (name, tl) →
  s = name +:+ tl ∧ "}"%char ∉ list_ascii_of_string name.
Proof.
  revert name tl. induction s as [|c s IH]; intros name tl Hspan.
  - injection Hspan as <- <-. split; [reflexivity|apply not_elem_of_nil].
  - simpl in Hspan. destruct (Ascii.eqb c "}") eqn:Hc.
    + injection Hspan as <- <-. split; [reflexivity|apply not_elem_of_nil].
    + destruct (span_name s) as [n t]. injection Hspan as <- <-.
      destruct (IH n t eq_refl) as [-> Hno]. split; [reflexivity|].
      simpl. intros [Heq|Hin]%elem_of_cons; [|contradiction].
      subst c. now rewrite Ascii.eqb_refl in Hc.
Qed.

Lemma match_here_spec s name :
  match_here s = Some name →
  (∃ rest, s = "{{" +:+ name +:+ "}}" +:+ rest)
  ∧ name ≠ "" ∧ "}"%char ∉ list_ascii_of_string name.
Proof.
  unfold match_here.
  destruct s as [|c1 [|c2 rest]]; try discriminate.
  - destruct c1 as [[] [] [] [] [] [] [] []]; discriminate.
  - destruct (Ascii.eqb_spec c1 "{") as [->|Hn1].
    2:{ destruct c1 as [[] [] [] [] [] [] [] []]; try discriminate.
        now contradiction Hn1. }
    destruct (Ascii.eqb_spec c2 "{") as [->|Hn2].
    2:{ destruct c2 as [[] [] [] [] [] [] [] []]; try discriminate.
        now contradiction Hn2. }
    destruct (span_name rest) as [n tl] eqn:Hspan.
    destruct (span_name_spec _ _ _ Hspan) as [-> Hno].
    destruct n as [|a n]; [discriminate|].
    destruct tl as [|t1 [|t2 tl]]; try discriminate.
    + destruct t1 as [[] [] [] [] [] [] [] []]; discriminate.
    + destruct (Ascii.eqb_spec t1 "}") as [->|Ht1].
      2:{ destruct t1 as [[] [] [] [] [] [] [] []]; try discriminate.
          now contradiction Ht1. }
      destruct (Ascii.eqb_spec t2 "}") as [->|Ht2].
      2:{ destruct t2 as [[] [] [] [] [] [] [] []]; try discriminate.
          now contradiction Ht2. }
      intros [= <-]. split_and!; [|discriminate|exact Hno].
      exists tl. reflexivity.
Qed.

Lemma tokens_from_step c rest :
  tokens_from (String c rest) 0
  = match match_here (String c rest) with
    | Some name =>
        Placeholder name :: tokens_from rest (String.length name + 3)
    | None => Lit c :: tokens_from rest 0
    end.
Proof. reflexivity. Qed.

Lemma tokens_from_source s :
  ∀ k, Template.concat_map Template.token_source (tokens_from s k)
       = Template.string_drop k s.
Proof.
  induction s as [|c rest IH]; intros k; [now destruct k|].
  destruct k as [|k]; [|exact (IH k)].
  rewrite tokens_from_step.
  destruct (match_here (String c rest)) as [name|] eqn:Hm.
  - destruct (match_here_spec _ _ Hm) as ((r & Hs) & _ & _).
    change ("{{" +:+ name +:+ "}}" +:+ r)
      with (String "{" (String "{" (name +:+ "}}" +:+ r))) in Hs.
    injection Hs as Hc Hrest. clear Hm. subst c rest.
    cbn [Template.concat_map]. rewrite IH.
    change (String "{" (name +:+ "}}" +:+ r))
      with ("{" +:+ (name +:+ "}}" +:+ r)).
    rewrite <- (string_app_assoc name "}}" r).
    rewrite <- (string_app_assoc "{" (name +:+ "}}") r).
    replace (String.length name + 3)%nat
      with (String.length ("{" +:+ (name +:+ "}}"))).
    2:{ rewrite !string_length_app. simpl. lia. }
    rewrite string_drop_app.
    unfold Template.token_source.
    rewrite !string_app_assoc. reflexivity.
  - cbn [Template.concat_map]. rewrite IH. reflexivity.
Qed.

Lemma tokens_from_names s :
  ∀ k name,
    Placeholder name ∈ tokens_from s k →
    name ≠ "" ∧ "}"%char ∉ list_ascii_of_string name.
Proof.
  induction s as [|c rest IH]; intros k name Hin.
  - destruct k; now apply elem_of_nil in Hin.
  - destruct k as [|k]; [|exact (IH _ _ Hin)].
    rewrite tokens_from_step in Hin.
    destruct (match_here (String c rest)) as [n|] eqn:Hm.
    + apply elem_of_cons in Hin as [[= ->]|Hin]; [|exact (IH _ _ Hin)].
      now destruct (match_here_spec _ _ Hm) as (_ & ? & ?).
    + apply elem_of_cons in Hin as [Hin|Hin]; [discriminate|].
      exact (IH _ _ Hin).
Qed.

(** X1: cutting a template into tokens loses nothing: writing each
    placeholder back as [{{name}}] and each literal as itself gives the
    template again; and a placeholder name is never empty and never holds a
    closing brace. *)
Theorem tokens_rebuild_template (sql_template : string) :
  Template.concat_map Template.token_source (tokens sql_template)
  = sql_template
  ∧ ∀ name,
      Placeholder name ∈ tokens sql_template →
      name ≠ "" ∧ "}"%char ∉ list_ascii_of_string name.
Proof.
  split.
  - unfold tokens. now rewrite tokens_from_source.
  - intros name. apply tokens_from_names.
Qed.

(** The substitution over literal tokens only. *)
Lemma tokens_without_opening s :
  Py.contains s "{{" = false →
  ∀ (sr : StepResultSet) deps (params : Params),
    substitute (tokens_from s 0) sr deps params = Some (s, params).
Proof.
  induction s as [|c rest IH]; intros Hno sr deps params; [reflexivity|].
  change (Py.contains (String c rest) "{{")
    with (String.prefix "{{" (String c rest) || Py.contains rest "{{")
    in Hno.
  apply orb_false_elim in Hno as [Hpre Hrest].
  assert (Hm : match_here (String c rest) = None).
  { destruct (match_here (String c rest)) as [name|] eqn:Hm; [|reflexivity].
    destruct (match_here_spec _ _ Hm) as ((r & Hs) & _).
    rewrite Hs in Hpre.
    change ("{{" +:+ name +:+ "}}" +:+ r)
      with (String "{" (String "{" (name +:+ "}}" +:+ r))) in Hpre.
    cbn in Hpre. destruct (name +:+ "}}" +:+ r); discriminate Hpre. }
  rewrite tokens_from_step, Hm. simpl. now rewrite (IH Hrest).
Qed.

(** X2: a template in which [{{] does not occur is resolved to itself,
    with no parameter, whatever the step results and the dependencies. *)
Theorem template_without_placeholder (sql_template : string)
    (step_results : StepResultSet) (depends_on : list string) :
  Py.contains sql_template "{{" = false →
  _resolve_query_parameters sql_template step_results depends_on
  = Some (sql_template, ∅).
Proof. intros Hno. now apply tokens_without_opening. Qed.

Lemma template_without_placeholder_witness :
  _resolve_query_parameters "SELECT {1} FROM t" ∅ ["q"]
  = Some ("SELECT {1} FROM t", ∅).
Proof.
  apply (template_without_placeholder "SELECT {1} FROM t" ∅ ["q"]).
  reflexivity.
Defined.

(** What a successful substitution returns, from any starting [params]. *)
Lemma substitute_spec (sr : StepResultSet) deps toks :
  ∀ (params0 : Params) out (params : Params),
    substitute toks sr deps params0 = Some (out, params) →
    out = Template.concat_map Template.token_marker toks
    ∧ (∀ name, is_Some (params !! name)
               ↔ is_Some (params0 !! name) ∨ Placeholder name ∈ toks)
    ∧ (∀ name v, params !! name = Some v →
                 params0 !! name = Some v
                 ∨ (v = _extract_parameter_value name sr deps
                    ∧ is_None v = false)).
Proof.
  induction toks as [|tok toks IH]; intros params0 out params Hsub.
  - injection Hsub as <- <-. split_and!; [reflexivity| |auto].
    intros name. split; [auto|]. intros [H|H]; [exact H|].
    now apply elem_of_nil in H.
  - destruct tok as [c|p]; simpl in Hsub.
    + destruct (substitute toks sr deps params0) as [[o ps]|] eqn:Hrest;
        [|discriminate].
      injection Hsub as <- <-.
      destruct (IH _ _ _ Hrest) as (-> & Hkeys & Hvals).
      split_and!; [reflexivity| |exact Hvals].
      intros name. rewrite Hkeys. split; intros [H|H]; auto.
      * right. now apply list_elem_of_further.
      * apply elem_of_cons in H as [H|H]; [discriminate|auto].
    + destruct (params0 !! p) as [old|] eqn:Hp.
      * destruct (substitute toks sr deps params0) as [[o ps]|] eqn:Hrest;
          [|discriminate].
        injection Hsub as <- <-.
        destruct (IH _ _ _ Hrest) as (-> & Hkeys & Hvals).
        split_and!; [reflexivity| |exact Hvals].
        intros name. rewrite Hkeys. split; intros [H|H]; auto.
        -- right. now apply list_elem_of_further.
        -- apply elem_of_cons in H as [[= ->]|H]; [|auto].
           left. rewrite Hp. eauto.
      * destruct (is_None (_extract_parameter_value p sr deps)) eqn:Hv;
          [discriminate|].
        destruct (substitute toks sr deps _) as [[o ps]|] eqn:Hrest;
          [|discriminate].
        injection Hsub as <- <-.
        destruct (IH _ _ _ Hrest) as (-> & Hkeys & Hvals).
        split_and!; [reflexivity| |].
        -- intros name. rewrite Hkeys.
           destruct (decide (p = name)) as [->|Hne].
           ++ rewrite lookup_insert_eq. split; intros _.
              ** right. apply list_elem_of_here.
              ** left. eauto.
           ++ rewrite lookup_insert_ne by exact Hne.
              split; intros [H|H]; auto.
              ** right. now apply list_elem_of_further.
              ** apply elem_of_cons in H as [[= ->]|H]; [done|auto].
        -- intros name v Hlook. destruct (Hvals _ _ Hlook) as [H|H]; [|auto].
           destruct (decide (p = name)) as [->|Hne].
           ++ rewrite lookup_insert_eq in H. injection H as <-. auto.
           ++ rewrite lookup_insert_ne in H by exact Hne. auto.
Qed.

(** X3: when resolution succeeds, the SQL is the template with every
    placeholder replaced by its marker [:name], whatever the step results;
    the parameters bound are exactly the placeholder names of the template;
    and each is bound to the value extracted for it, which is not [None]. *)
Theorem resolved_parameters (sql_template : string)
    (step_results : StepResultSet) (depends_on : list string)
    (sql_query : string) (params : Params) :
  _resolve_query_parameters sql_template step_results depends_on
  = Some (sql_query, params) →
  sql_query
  = Template.concat_map Template.token_marker (tokens sql_template)
  ∧ (∀ name, name ∈ dom params ↔ Placeholder name ∈ tokens sql_template)
  ∧ (∀ name v,
       params !! name = Some v →
       v = _extract_parameter_value name step_results depends_on
       ∧ is_None v = false).
Proof.
  intros Hres. destruct (substitute_spec _ _ _ _ _ _ Hres) as (Hq & Hk & Hv).
  split_and!; [exact Hq| |].
  - intros name. rewrite elem_of_dom, Hk, lookup_empty. split.
    + intros [[? H]|H]; [discriminate|exact H].
    + auto.
  - intros name v Hlook. destruct (Hv _ _ Hlook) as [H|H]; [|exact H].
    rewrite lookup_empty in H. discriminate.
Qed.

Lemma resolved_parameters_witness :
  "SELECT * FROM employees WHERE department_id = :department_id"
  = Template.concat_map Template.token_marker
      (tokens Examples.employees_of_department)
  ∧ (∀ name,
       name ∈ dom ({[ "department_id" := PyTuple {[ VInt 7 ]} ]} : Params)
       ↔ Placeholder name ∈ tokens Examples.employees_of_department)
  ∧ (∀ name v,
       ({[ "department_id" := PyTuple {[ VInt 7 ]} ]} : Params) !! name
       = Some v →
       v = _extract_parameter_value name Examples.find_top_dept_results
             ["find_top_dept"]
       ∧ is_None v = false).
Proof.
  apply (resolved_parameters Examples.employees_of_department
           Examples.find_top_dept_results ["find_top_dept"]).
  vm_compute. reflexivity.
Defined.

(** *** Only the listed dependencies are read *)

Section Agreement.

Variables (sr sr' : StepResultSet) (deps : list string).
Hypothesis agree : ∀ dep, dep ∈ deps → sr !! dep = sr' !! dep.

Lemma extract_agree_on (l : list string) name :
  (∀ dep, dep ∈ l → sr !! dep = sr' !! dep) →
  scalar_deps name sr l = scalar_deps name sr' l
  ∧ collect_values name sr l = collect_values name sr' l.
Proof.
  induction l as [|d l IH]; intros Hl; [split; reflexivity|].
  simpl. rewrite <- (Hl d) by apply list_elem_of_here.
  destruct IH as [-> ->];
    [intros dep Hin; apply Hl; now apply list_elem_of_further|].
  split; reflexivity.
Qed.

Lemma extract_agree name :
  _extract_parameter_value name sr deps
  = _extract_parameter_value name sr' deps.
Proof.
  unfold _extract_parameter_value.
  now destruct (extract_agree_on deps name agree) as [-> ->].
Qed.

Lemma substitute_agree toks :
  ∀ params : Params,
    substitute toks sr deps params = substitute toks sr' deps params.
Proof.
  induction toks as [|[c|p] toks IH]; intros params; simpl;
    [reflexivity|now rewrite IH|].
  rewrite extract_agree. destruct (params !! p); rewrite ?IH; [reflexivity|].
  destruct (is_None _); reflexivity.
Qed.

End Agreement.

(** X4: resolution reads the step results of the listed dependencies only:
    two result sets that agree on the [depends_on] of a step give the same
    SQL, the same parameters, or the same failure. *)
Theorem resolution_reads_dependencies_only (sql_template : string)
    (step_results step_results' : StepResultSet) (depends_on : list string) :
  (∀ dep, dep ∈ depends_on → step_results !! dep = step_results' !! dep) →
  _resolve_query_parameters sql_template step_results depends_on
  = _resolve_query_parameters sql_template step_results' depends_on.
Proof. intros Hagree. now apply substitute_agree. Qed.

Lemma resolution_reads_dependencies_only_witness :
  _resolve_query_parameters (sql Examples.uses_product_ids)
    Examples.find_ids_results ["find_ids"]
  = _resolve_query_parameters (sql Examples.uses_product_ids)
      (<["other" := [[("id", VInt 9)]]]> Examples.find_ids_results)
      ["find_ids"].
Proof.
  apply (resolution_reads_dependencies_only (sql Examples.uses_product_ids)
           Examples.find_ids_results
           (<["other" := [[("id", VInt 9)]]]> Examples.find_ids_results)
           ["find_ids"]).
  intros dep Hin. apply list_elem_of_singleton in Hin. subst dep.
  reflexivity.
Defined.

(** *** Dependencies without rows *)

Lemma nothing_to_extract name (sr : StepResultSet) deps :
  (∀ dep, dep ∈ deps → sr !! dep = None ∨ sr !! dep = Some []) →
  scalar_deps name sr deps = None ∧ collect_values name sr deps = [].
Proof.
  induction deps as [|d deps IH]; intros Hdeps; [split; reflexivity|].
  destruct IH as [Hs Hc];
    [intros dep Hin; apply Hdeps; now apply list_elem_of_further|].
  simpl. destruct (Hdeps d) as [-> | ->]; [apply list_elem_of_here|..];
    simpl; now rewrite ?Hs, ?Hc.
Qed.

(** X5: a step whose listed dependencies have produced no row (no entry in
    the step results, or an empty list), a step without dependencies
    included, cannot resolve any placeholder, scalar or list-typed: a
    template with a placeholder makes resolution fail. *)
Theorem placeholder_needs_rows (sql_template : string)
    (step_results : StepResultSet) (depends_on : list string)
    (name : string) :
  (∀ dep, dep ∈ depends_on →
     step_results !! dep = None ∨ step_results !! dep = Some []) →
  Placeholder name ∈ tokens sql_template →
  _extract_parameter_value name step_results depends_on = PyVal VNone
  ∧ _resolve_query_parameters sql_template step_results depends_on = None.
Proof.
  intros Hdeps Hin.
  assert (Hnone : _extract_parameter_value name step_results depends_on
                  = PyVal VNone).
  { unfold _extract_parameter_value.
    destruct (nothing_to_extract name _ _ Hdeps) as [-> ->].
    now destruct (is_list_parameter name). }
  split; [exact Hnone|].
  apply (substitute_fails name); [now rewrite Hnone|exact Hin|].
  apply lookup_empty.
Qed.

Lemma placeholder_needs_rows_witness :
  _extract_parameter_value "total" {[ "q" := [] ]} ["q"; "r"] = PyVal VNone
  ∧ _resolve_query_parameters "SELECT {{total}}" {[ "q" := [] ]} ["q"; "r"]
    = None.
Proof.
  apply (placeholder_needs_rows "SELECT {{total}}" {[ "q" := [] ]}
           ["q"; "r"] "total").
  - intros dep Hin.
    destruct (decide (dep = "q")) as [->|Hne]; [right|left].
    + reflexivity.
    + apply lookup_singleton_ne. congruence.
  - apply (bool_decide_unpack _). vm_compute. exact I.
Defined.

(** *** Where bound values come from *)

Lemma row_get_elem name (row : Row) v :
  row_get name row = Some v → (name, v) ∈ row.
Proof.
  induction row as [|[k w] row IH]; [discriminate|]. simpl.
  destruct (String.eqb_spec k name) as [->|Hne].
  - intros [= ->]. apply list_elem_of_here.
  - intros H. apply list_elem_of_further. auto.
Qed.

Lemma scalar_row_cell name (row : Row) v :
  scalar_row name row = Some v → ∃ col, (col, v) ∈ row.
Proof.
  unfold scalar_row. destruct (row_get name row) as [w|] eqn:Hget.
  - intros [= ->]. eauto using row_get_elem.
  - destruct row as [|[k w] [|]]; try discriminate.
    intros [= ->]. exists k. apply list_elem_of_here.
Qed.

Lemma list_row_cell name (row : Row) v :
  list_row name row = Some v → ∃ col, (col, v) ∈ row.
Proof.
  unfold list_row.
  destruct row as [|[k w] [|kv row]].
  - discriminate.
  - intros [= ->]. exists k. apply list_elem_of_here.
  - destruct (row_get name _) as [x|] eqn:Hget.
    + intros [= ->]. eauto using row_get_elem.
    + intros H. eauto using row_get_elem.
Qed.

Lemma scalar_rows_cell name (rows : list Row) v :
  scalar_rows name rows = Some v →
  ∃ row col, row ∈ rows ∧ (col, v) ∈ row.
Proof.
  induction rows as [|row rows IH]; [discriminate|]. simpl.
  destruct (scalar_row name row) as [w|] eqn:Hrow.
  - intros [= ->]. destruct (scalar_row_cell _ _ _ Hrow) as [col Hcol].
    exists row, col. split; [apply list_elem_of_here|exact Hcol].
  - intros H. destruct (IH H) as (r & col & Hr & Hcol).
    exists r, col. split; [now apply list_elem_of_further|exact Hcol].
Qed.

Lemma scalar_deps_cell name (sr : StepResultSet) deps v :
  scalar_deps name sr deps = Some v → Template.cell_of_dependency sr deps v.
Proof.
  induction deps as [|d deps IH]; [discriminate|]. simpl.
  assert (Hmore : Template.cell_of_dependency sr deps v →
                  Template.cell_of_dependency sr (d :: deps) v).
  { intros (dep & rows & row & col & Hin & ?). exists dep, rows, row, col.
    split; [now apply list_elem_of_further|assumption]. }
  destruct (sr !! d) as [rows|] eqn:Hd; [|auto].
  destruct (scalar_rows name rows) as [w|] eqn:Hrows; [|auto].
  intros [= ->]. destruct (scalar_rows_cell _ _ _ Hrows) as (row & col & ? & ?).
  exists d, rows, row, col. split_and!; try assumption.
  apply list_elem_of_here.
Qed.

Lemma collect_values_cell name (sr : StepResultSet) deps v :
  v ∈ collect_values name sr deps → Template.cell_of_dependency sr deps v.
Proof.
  induction deps as [|d deps IH]; [intros H; now apply elem_of_nil in H|].
  simpl.
  assert (Hmore : Template.cell_of_dependency sr deps v →
                  Template.cell_of_dependency sr (d :: deps) v).
  { intros (dep & rows & row & col & Hin & ?). exists dep, rows, row, col.
    split; [now apply list_elem_of_further|assumption]. }
  destruct (sr !! d) as [rows|] eqn:Hd; [|auto].
  intros [Hin|Hin]%elem_of_app; [|auto].
  apply list_elem_of_omap in Hin as (row & Hrow & Hv).
  destruct (list_row_cell _ _ _ Hv) as [col Hcol].
  exists d, rows, row, col. split_and!; try assumption.
  apply list_elem_of_here.
Qed.

(** X6: resolution invents no value. A parameter bound to a single value
    holds a cell of some row of a listed dependency; a parameter bound to a
    collection holds at least one value, and each is such a cell. *)
Theorem bound_values_come_from_rows (sql_template : string)
    (step_results : StepResultSet) (depends_on : list string)
    (sql_query : string) (params : Params) (name : string) (bound : PyObj) :
  _resolve_query_parameters sql_template step_results depends_on
  = Some (sql_query, params) →
  params !! name = Some bound →
  match bound with
  | PyVal v => Template.cell_of_dependency step_results depends_on v
  | PyTuple vs =>
      vs ≠ ∅
      ∧ ∀ v, v ∈ vs → Template.cell_of_dependency step_results depends_on v
  end.
Proof.
  intros Hres Hlook.
  destruct (substitute_spec _ _ _ _ _ _ Hres) as (_ & _ & Hv).
  destruct (Hv _ _ Hlook) as [H|[-> Hsome]];
    [rewrite lookup_empty in H; discriminate|].
  unfold _extract_parameter_value in *.
  destruct (is_list_parameter name).
  - destruct (collect_values name step_results depends_on) as [|x l] eqn:Hc;
      [discriminate|].
    split.
    + intros Hempty. assert (Hx : x ∈ (list_to_set (x :: l) : gset Value))
        by (apply elem_of_list_to_set, list_elem_of_here).
      rewrite Hempty in Hx. now apply not_elem_of_empty in Hx.
    + intros v Hin. apply elem_of_list_to_set in Hin.
      apply (collect_values_cell name). now rewrite Hc.
  - destruct (scalar_deps name step_results depends_on) as [v|] eqn:Hs;
      [|discriminate].
    now apply (scalar_deps_cell name).
Qed.

Lemma bound_values_come_from_rows_witness :
  (∅ : gset Value) ≠ {[ VInt 1; VInt 2 ]}
  ∧ ∀ v, v ∈ ({[ VInt 1; VInt 2 ]} : gset Value) →
         Template.cell_of_dependency Examples.find_ids_results ["find_ids"] v.
Proof.
  split; [set_solver|].
  apply (bound_values_come_from_rows (sql Examples.uses_product_ids)
           Examples.find_ids_results ["find_ids"]
           "SELECT * FROM products WHERE id IN :product_ids"
           {[ "product_ids" := PyTuple {[ VInt 1; VInt 2 ]} ]}
           "product_ids" (PyTuple {[ VInt 1; VInt 2 ]})).
  - vm_compute. reflexivity.
  - reflexivity.
Defined.

(** ** The rendered table *)

Lemma join_length sep (parts : list string) :
  String.length (Py.join sep parts)
  = (sum_list (map String.length parts)
     + String.length sep * (length parts - 1))%nat.
Proof.
  induction parts as [|p [|q parts] IH]; [simpl; lia|simpl; lia|].
  change (Py.join sep (p :: q :: parts))
    with (p +:+ sep +:+ Py.join sep (q :: parts)).
  rewrite !string_length_app, IH. simpl. lia.
Qed.

Lemma padded_lengths (raw_results : list Row) (columns : list string)
    (text : string -> string) :
  (∀ col, (String.length (text col)
           ≤ Formatter.col_width raw_results col)%nat) →
  map String.length
    (map (fun col => Py.ljust (text col) (Formatter.col_width raw_results col))
         columns)
  = map (Formatter.col_width raw_results) columns.
Proof.
  intros Hfit. rewrite map_map. apply map_ext. intros col.
  now apply ljust_length.
Qed.

(** X7: the table is rectangular. For a non-empty result, the header, the
    rule of dashes and every row line have the same length: the sum of the
    column widths plus three characters for each separator. *)
Theorem table_is_rectangular (step_info : Step) (first : Row)
    (rest : list Row) (line : string) :
  line ∈ tail (Formatter.result_lines step_info (first :: rest)) →
  String.length line
  = (sum_list (map (Formatter.col_width (first :: rest)) (row_keys first))
     + 3 * (length (row_keys first) - 1))%nat.
Proof.
  pose (rows := first :: rest). pose (columns := row_keys first).
  assert (Hheader :
    String.length (Formatter.header_line rows columns)
    = (sum_list (map (Formatter.col_width rows) columns)
       + 3 * (length columns - 1))%nat).
  { unfold Formatter.header_line.
    rewrite join_length, (padded_lengths rows columns (fun col => col)),
      !length_map; [reflexivity|].
    intros col. apply col_width_header. }
  change (tail (Formatter.result_lines step_info (first :: rest)))
    with (Formatter.header_line rows columns
          :: Py.repeat_char "-"
               (String.length (Formatter.header_line rows columns))
          :: map (Formatter.row_line rows columns) rows).
  intros [->|[->|Hin]%elem_of_cons]%elem_of_cons.
  - exact Hheader.
  - now rewrite repeat_char_length.
  - apply list_elem_of_fmap in Hin as (row & -> & Hrow).
    unfold Formatter.row_line.
    rewrite join_length,
      (padded_lengths rows columns (Formatter.cell_text row)),
      !length_map; [reflexivity|].
    intros col. now apply col_width_cell.
Qed.

Lemma table_is_rectangular_witness :
  String.length "BB   | 5  " = 10%nat.
Proof.
  apply (table_is_rectangular (mkStep 1 "q" "d" "SELECT 1" [] "t")
           [("name", VStr "A"); ("qty", VInt 10)]
           [[("name", VStr "BB"); ("qty", VInt 5)]] "BB   | 5  ").
  apply (bool_decide_unpack _). vm_compute. exact I.
Defined.

(** ** More on the plan runner *)

Lemma join_nonempty sep p rest : p ≠ "" → Py.join sep (p :: rest) ≠ "".
Proof.
  intros Hp. destruct rest as [|q rest]; [exact Hp|].
  change (Py.join sep (p :: q :: rest))
    with (p +:+ sep +:+ Py.join sep (q :: rest)).
  now apply app_nonempty_l.
Qed.

Lemma success_record_fields s rows :
  raw_results (Runner.success_record s rows) = rows
  ∧ error (Runner.success_record s rows) = None
  ∧ out_description (Runner.success_record s rows) = description s
  ∧ formatted_text (Runner.success_record s rows) ≠ "".
Proof.
  destruct rows as [|row rows]; split_and!; try reflexivity.
  - discriminate.
  - apply join_nonempty. discriminate.
Qed.

Section RunnerMore.

Context {DB : Type} (db_execute : DB -> string -> Params -> DB * ExecResult).

Local Abbreviation run_step := (Runner.run_step db_execute).
Local Abbreviation run_steps := (Runner.run_steps db_execute).
Local Abbreviation run_plan := (Runner.run_plan db_execute).
Local Abbreviation outputs := Runner.output_results.
Local Abbreviation results := Runner.step_results_for_deps.

(** The three ways through one iteration. *)
Lemma run_step_cases (st : Runner.RunState DB) s :
  (_resolve_query_parameters (sql s) (results st) (depends_on s) = None
   ∧ run_step st s
     = Runner.mkRun (Runner.conn st) (results st)
         (outputs st ++ [Runner.resolution_failure_record s])
         (Runner.executed st))
  ∨ (∃ q ps c rows,
       _resolve_query_parameters (sql s) (results st) (depends_on s)
       = Some (q, ps)
       ∧ db_execute (Runner.conn st) q ps = (c, ExecRows rows)
       ∧ run_step st s
         = Runner.mkRun c (<[query_id s := rows]> (results st))
             (outputs st ++ [Runner.success_record s rows])
             (Runner.executed st ++ [(q, ps)]))
  ∨ (∃ q ps c e,
       _resolve_query_parameters (sql s) (results st) (depends_on s)
       = Some (q, ps)
       ∧ db_execute (Runner.conn st) q ps = (c, ExecError e)
       ∧ run_step st s
         = Runner.mkRun c (results st)
             (outputs st ++ [Runner.execution_failure_record s q e])
             (Runner.executed st ++ [(q, ps)])).
Proof.
  unfold Runner.run_step.
  destruct (_resolve_query_parameters _ _ _) as [[q ps]|]; [|now left].
  right. destruct (db_execute _ q ps) as [c [rows|e]] eqn:Hx.
  - left. exists q, ps, c, rows. now rewrite Hx.
  - right. exists q, ps, c, e. now rewrite Hx.
Qed.

(** The record of one iteration and what it does to the step results. *)
Lemma run_step_record (st : Runner.RunState DB) s :
  ∃ r,
    outputs (run_step st s) = outputs st ++ [r]
    ∧ formatted_text r ≠ ""
    ∧ ((error r = None
        ∧ results (run_step st s)
          = <[query_id s := raw_results r]> (results st))
       ∨ (is_Some (error r) ∧ raw_results r = []
          ∧ results (run_step st s) = results st)).
Proof.
  destruct (run_step_cases st s)
    as [[_ ->]|[(q & ps & c & rows & _ & _ & ->)|(q & ps & c & e & _ & _ & ->)]];
    eexists; (split; [reflexivity|]); simpl.
  - split; [discriminate|]. right. eauto.
  - destruct (success_record_fields s rows) as (Hraw & Herr & _ & Htxt).
    split; [exact Htxt|]. left. now rewrite Hraw, Herr.
  - split; [discriminate|]. right. eauto.
Qed.

(** The record at position [i] is the one appended when step [i] ran. *)
Lemma output_at connection (steps : list Step) i s :
  steps !! i = Some s →
  ∀ r,
    outputs (run_step (run_plan connection (take i steps)) s)
    = outputs (run_plan connection (take i steps)) ++ [r] →
    outputs (run_plan connection steps) !! i = Some r.
Proof.
  intros Hi r Hout.
  assert (Hsplit : run_plan connection steps
                   = run_steps (run_step (run_plan connection (take i steps)) s)
                       (drop (S i) steps)).
  { unfold Runner.run_plan at 1.
    rewrite <- (take_drop_middle steps i s Hi) at 1.
    now rewrite run_steps_app, run_steps_cons. }
  assert (Hlen : length (outputs (run_plan connection (take i steps))) = i).
  { unfold Runner.run_plan. rewrite run_steps_length. simpl.
    rewrite length_take. apply lookup_lt_Some in Hi. lia. }
  rewrite Hsplit.
  eapply prefix_lookup_Some; [|apply run_steps_outputs_prefix].
  rewrite Hout, lookup_app_r by lia.
  now rewrite Hlen, Nat.sub_diag.
Qed.

Lemma results_untouched (l : list Step) :
  ∀ (st : Runner.RunState DB) k,
    k ∉ map query_id l →
    results (run_steps st l) !! k = results st !! k.
Proof.
  induction l as [|s l IH]; intros st k Hk; [reflexivity|].
  rewrite run_steps_cons, IH.
  - apply not_elem_of_cons in Hk as [Hne _].
    destruct (run_step_record st s) as (r & _ & _ & [[_ ->]|(_ & _ & ->)]);
      [|reflexivity].
    now apply lookup_insert_ne.
  - now apply not_elem_of_cons in Hk as [_ Hk].
Qed.

Lemma results_and_records (l : list Step) :
  ∀ (st : Runner.RunState DB),
    NoDup (map query_id l) →
    ∀ i s r,
      l !! i = Some s →
      outputs (run_steps st l) !! (length (outputs st) + i)%nat = Some r →
      results (run_steps st l) !! query_id s
      = match error r with
        | None => Some (raw_results r)
        | Some _ => results st !! query_id s
        end.
Proof.
  induction l as [|s0 l IH]; intros st Hnd i s r Hi Hr; [discriminate|].
  apply NoDup_cons in Hnd as [Hfresh Hnd].
  rewrite run_steps_cons in *.
  destruct (run_step_record st s0) as (r0 & Hout & _ & Hres).
  destruct i as [|i]; simpl in Hi.
  - injection Hi as <-.
    assert (r = r0) as ->.
    { pose proof (run_steps_outputs_prefix db_execute (run_step st s0) l)
        as Hpre.
      assert (Hr0 : outputs (run_step st s0) !! (length (outputs st) + 0)%nat
                    = Some r0).
      { rewrite Hout, lookup_app_r by lia.
        now replace (length (outputs st) + 0 - length (outputs st))%nat
          with 0%nat by lia. }
      pose proof (prefix_lookup_Some _ _ _ _ Hr0 Hpre) as Hr0'.
      congruence. }
    rewrite results_untouched by exact Hfresh.
    destruct Hres as [[-> ->]|([e ->] & _ & ->)];
      [apply lookup_insert_eq|reflexivity].
  - assert (Hne : query_id s0 ≠ query_id s).
    { intros Heq. apply Hfresh. rewrite Heq.
      apply (list_elem_of_fmap_2 query_id). eapply list_elem_of_lookup_2, Hi. }
    rewrite (IH (run_step st s0) Hnd i s r Hi).
    + destruct (error r); [|reflexivity].
      destruct Hres as [[_ ->]|(_ & _ & ->)]; [|reflexivity].
      now apply lookup_insert_ne.
    + rewrite <- Hr. f_equal. rewrite Hout, length_app. simpl. lia.
Qed.

Lemma results_dom (l : list Step) :
  ∀ st : Runner.RunState DB,
    dom (results (run_steps st l))
    ⊆ dom (results st) ∪ list_to_set (map query_id l).
Proof.
  induction l as [|s l IH]; intros st; [set_solver|].
  rewrite run_steps_cons. etrans; [apply IH|].
  change (map query_id (s :: l)) with (query_id s :: map query_id l).
  rewrite list_to_set_cons.
  destruct (run_step_record st s) as (r & _ & _ & [[_ ->]|(_ & _ & ->)]).
  - rewrite dom_insert_L. apply union_least.
    + apply union_least.
      * apply union_subseteq_r', union_subseteq_l.
      * apply union_subseteq_l.
    + apply union_subseteq_r', union_subseteq_r.
  - apply union_mono_l, union_subseteq_r.
Qed.

Lemma records_invariant (P : OutputRecord → Prop) (l : list Step) :
  (∀ (st : Runner.RunState DB) s r,
     outputs (run_step st s) = outputs st ++ [r] → P r) →
  ∀ st : Runner.RunState DB,
    Forall P (outputs st) → Forall P (outputs (run_steps st l)).
Proof.
  intros Hstep. induction l as [|s l IH]; intros st Hst; [exact Hst|].
  rewrite run_steps_cons. apply IH.
  destruct (run_step_record st s) as (r & Hout & _).
  rewrite Hout. apply Forall_app. split; [exact Hst|].
  apply Forall_singleton. exact (Hstep st s r Hout).
Qed.

(** The state in which step [j] runs, and the run from there on. *)
Lemma run_plan_at connection (steps : list Step) j s :
  steps !! j = Some s →
  run_plan connection (take (S j) steps)
  = run_step (run_plan connection (take j steps)) s
  ∧ run_plan connection steps
    = run_steps (run_step (run_plan connection (take j steps)) s)
        (drop (S j) steps).
Proof.
  intros Hj. split.
  - rewrite (take_S_r steps j s Hj). unfold Runner.run_plan.
    now rewrite run_steps_app.
  - unfold Runner.run_plan at 1.
    rewrite <- (take_drop_middle steps j s Hj) at 1.
    now rewrite run_steps_app, run_steps_cons.
Qed.

End RunnerMore.

(** C4: a step that fails, by resolution or in the store, does not stop the
    run. Its record sits at the step's position with an error, no raw
    result and a non-empty text, and the step leaves the step results as
    they were. The runner returns one record per step of the plan. Every
    step after the failed one is attempted: its template is resolved
    against the step results reached; when it does not resolve the step
    gets the record of a failed resolution; when it resolves, the query is
    the next one sent to the store, and the record at the step's position
    is the one made from the store's answer: the rows it returned, without
    an error, or the error it raised. *)
Theorem C4_failure_is_recorded {DB : Type}
    (db_execute : DB -> string -> Params -> DB * ExecResult)
    (connection : DB) (steps : list Step) (i : nat) (s : Step) :
  steps !! i = Some s →
  Runner.step_fails db_execute
    (Runner.run_plan db_execute connection (take i steps)) s →
  let run := Runner.run_plan db_execute connection steps in
  (∃ r,
     Runner.output_results run !! i = Some r
     ∧ out_description r = description s
     ∧ is_Some (error r) ∧ raw_results r = [] ∧ formatted_text r ≠ "")
  ∧ length (Runner.output_results run) = length steps
  ∧ Runner.step_results_for_deps
      (Runner.run_plan db_execute connection (take (S i) steps))
    = Runner.step_results_for_deps
        (Runner.run_plan db_execute connection (take i steps))
  ∧ ∀ j s',
      (i < j)%nat →
      steps !! j = Some s' →
      let before := Runner.run_plan db_execute connection (take j steps) in
      match _resolve_query_parameters (sql s')
              (Runner.step_results_for_deps before) (depends_on s') with
      | None =>
          Runner.output_results run !! j
          = Some (Runner.resolution_failure_record s')
      | Some (sql_query, params) =>
          Runner.executed before ++ [(sql_query, params)]
          `prefix_of` Runner.executed run
          ∧ Runner.output_results run !! j
            = Some
                match (db_execute (Runner.conn before) sql_query params).2 with
                | ExecRows rows => Runner.success_record s' rows
                | ExecError e =>
                    Runner.execution_failure_record s' sql_query e
                end
      end.
Proof.
  intros Hi Hfail run. split_and!.
  - destruct (run_step_failure db_execute _ s Hfail)
      as (r & Hout & Hd & He & Hraw & Htxt).
    exists r. split_and!; try assumption.
    exact (output_at db_execute connection steps i s Hi r Hout).
  - unfold run, Runner.run_plan. now rewrite run_steps_length.
  - destruct (run_plan_at db_execute connection steps i s Hi) as [-> _].
    rewrite run_step_results. unfold Runner.step_fails in Hfail.
    destruct (_resolve_query_parameters _ _ _) as [[q ps]|]; [|reflexivity].
    destruct (db_execute _ q ps) as [c [rows|e]]; [contradiction|reflexivity].
  - intros j s' _ Hj before.
    destruct (run_plan_at db_execute connection steps j s' Hj)
      as [_ Hsplit].
    fold before in Hsplit.
    destruct (run_step_cases db_execute before s')
      as [[Hr Hstep]
         |[(q & ps & c & rows & Hr & Hx & Hstep)
          |(q & ps & c & e & Hr & Hx & Hstep)]];
      rewrite Hr.
    + apply (output_at db_execute connection steps j s' Hj).
      fold before. now rewrite Hstep.
    + split.
      * unfold run. rewrite Hsplit.
        etrans; [|apply run_steps_executed_prefix]. now rewrite Hstep.
      * rewrite Hx. apply (output_at db_execute connection steps j s' Hj).
        fold before. now rewrite Hstep.
    + split.
      * unfold run. rewrite Hsplit.
        etrans; [|apply run_steps_executed_prefix]. now rewrite Hstep.
      * rewrite Hx. apply (output_at db_execute connection steps j s' Hj).
        fold before. now rewrite Hstep.
Qed.

Lemma C4_failure_is_recorded_witness :
  let steps := Environments.missing_field_plan in
  let s := mkStep 2 "b" "unresolved" "SELECT {{missing_field}}" [] "t" in
  let run := Runner.run_plan Examples.small_execute [] steps in
  steps !! 1%nat = Some s
  ∧ (∃ r,
       Runner.output_results run !! 1%nat = Some r
       ∧ out_description r = description s
       ∧ is_Some (error r) ∧ raw_results r = [] ∧ formatted_text r ≠ "")
  ∧ length (Runner.output_results run) = length steps
  ∧ Runner.step_results_for_deps
      (Runner.run_plan Examples.small_execute [] (take 2 steps))
    = Runner.step_results_for_deps
        (Runner.run_plan Examples.small_execute [] (take 1 steps))
  ∧ ∀ j s',
      (1 < j)%nat →
      steps !! j = Some s' →
      let before := Runner.run_plan Examples.small_execute [] (take j steps) in
      match _resolve_query_parameters (sql s')
              (Runner.step_results_for_deps before) (depends_on s') with
      | None =>
          Runner.output_results run !! j
          = Some (Runner.resolution_failure_record s')
      | Some (sql_query, params) =>
          Runner.executed before ++ [(sql_query, params)]
          `prefix_of` Runner.executed run
          ∧ Runner.output_results run !! j
            = Some
                match (Examples.small_execute (Runner.conn before) sql_query
                         params).2 with
                | ExecRows rows => Runner.success_record s' rows
                | ExecError e =>
                    Runner.execution_failure_record s' sql_query e
                end
      end.
Proof.
  intros steps s run. split; [reflexivity|].
  apply (C4_failure_is_recorded Examples.small_execute [] steps 1 s).
  - reflexivity.
  - vm_compute. exact I.
Defined.

(** The plan of the example, step by step: the second step does not
    resolve and the third fails in the store; the third and the fourth are
    sent to the store all the same, and the fourth gets its row with the
    value of the first step bound to its parameter. *)
Example run_with_failures :
  let run :=
    Runner.run_plan Examples.small_execute []
      Environments.missing_field_plan in
  map (fun r => (out_description r, error r, raw_results r))
      (Runner.output_results run)
  = [ ("fine", None, [[("n", VInt 1)]]);
      ("unresolved", Some "Dependency resolution failed", []);
      ("broken", Some "no such table: bad", []);
      ("after", None, [[("n", VInt 1)]]) ]
  ∧ Runner.executed run
    = [ ("SELECT 1", ∅);
        ("SELECT bad", ∅);
        ("SELECT 4 WHERE n = :n", {[ "n" := PyVal (VInt 1) ]}) ]
  ∧ dom (Runner.step_results_for_deps run) = {[ "a"; "d" ]}.
Proof.
  split_and!.
  - reflexivity.
  - apply (bool_decide_unpack _). vm_compute. exact I.
  - apply (bool_decide_unpack _). vm_compute. exact I.
Qed.

(** X8: with distinct [query_id]s, at the end of a run the step results
    hold, for every step, exactly what its record shows: the [raw_results]
    of the record when it carries no error, and no entry at all when it
    carries one. *)
Theorem step_results_match_records {DB : Type}
    (db_execute : DB -> string -> Params -> DB * ExecResult)
    (connection : DB) (steps : list Step) (i : nat) (s : Step)
    (r : OutputRecord) :
  NoDup (map query_id steps) →
  steps !! i = Some s →
  Runner.output_results (Runner.run_plan db_execute connection steps) !! i
  = Some r →
  Runner.step_results_for_deps (Runner.run_plan db_execute connection steps)
    !! query_id s
  = match error r with
    | None => Some (raw_results r)
    | Some _ => None
    end.
Proof.
  intros Hnd Hi Hr. unfold Runner.run_plan in *.
  rewrite (results_and_records db_execute steps _ Hnd i s r Hi Hr).
  destruct (error r); [apply lookup_empty|reflexivity].
Qed.

Lemma step_results_match_records_witness :
  Runner.step_results_for_deps
    (Runner.run_plan Examples.small_execute [] Examples.plan_with_failures)
    !! "c"
  = None.
Proof.
  apply (step_results_match_records Examples.small_execute []
           Examples.plan_with_failures 2
           (mkStep 3 "c" "broken" "SELECT bad" [] "t")
           (Runner.execution_failure_record
              (mkStep 3 "c" "broken" "SELECT bad" [] "t")
              "SELECT bad" "no such table: bad")).
  - apply (bool_decide_unpack _). vm_compute. exact I.
  - reflexivity.
  - vm_compute. reflexivity.
Defined.

(** X9: in the output of every run, each record has a non-empty
    [formatted_text], and a record with an error has no raw result. *)
Theorem records_are_well_formed {DB : Type}
    (db_execute : DB -> string -> Params -> DB * ExecResult)
    (connection : DB) (steps : list Step) (r : OutputRecord) :
  r ∈ Runner.output_results (Runner.run_plan db_execute connection steps) →
  formatted_text r ≠ "" ∧ (is_Some (error r) → raw_results r = []).
Proof.
  revert r. apply Forall_forall.
  apply (records_invariant db_execute); [|apply Forall_nil_2].
  intros st s r Hout.
  destruct (run_step_record db_execute st s) as (r' & Hout' & Htxt & Hcase).
  rewrite Hout' in Hout. apply app_inj_tail in Hout as [_ <-].
  split; [exact Htxt|].
  destruct Hcase as [[Herr _]|(_ & Hraw & _)]; [|auto].
  rewrite Herr. intros [? ?]. discriminate.
Qed.

Lemma records_are_well_formed_witness :
  formatted_text
    (Runner.execution_failure_record
       (mkStep 3 "c" "broken" "SELECT bad" [] "t")
       "SELECT bad" "no such table: bad") ≠ "".
Proof.
  apply (records_are_well_formed Examples.small_execute []
           Examples.plan_with_failures
           (Runner.execution_failure_record
              (mkStep 3 "c" "broken" "SELECT bad" [] "t")
              "SELECT bad" "no such table: bad")).
  apply (bool_decide_unpack _). vm_compute. exact I.
Defined.

Section RunnerTraffic.

Context {DB : Type} (db_execute : DB -> string -> Params -> DB * ExecResult).

Local Abbreviation run_step := (Runner.run_step db_execute).
Local Abbreviation run_steps := (Runner.run_steps db_execute).

(** How the log of executed queries grows in one iteration. *)
Lemma run_step_executed (st : Runner.RunState DB) s :
  Runner.executed (run_step st s) = Runner.executed st
  ∨ ∃ q ps,
      _resolve_query_parameters (sql s) (Runner.step_results_for_deps st)
        (depends_on s) = Some (q, ps)
      ∧ Runner.executed (run_step st s) = Runner.executed st ++ [(q, ps)].
Proof.
  destruct (run_step_cases db_execute st s)
    as [[_ ->]|[(q & ps & c & rows & Hr & _ & ->)|(q & ps & c & e & Hr & _ & ->)]];
    [now left|right; eauto..].
Qed.

Lemma executed_invariant (P : string * Params → Prop) (l : list Step) :
  (∀ (st : Runner.RunState DB) s q ps,
     s ∈ l →
     _resolve_query_parameters (sql s) (Runner.step_results_for_deps st)
       (depends_on s) = Some (q, ps) →
     P (q, ps)) →
  ∀ st : Runner.RunState DB,
    Forall P (Runner.executed st) →
    Forall P (Runner.executed (run_steps st l))
    ∧ (length (Runner.executed (run_steps st l))
       ≤ length (Runner.executed st) + length l)%nat.
Proof.
  induction l as [|s l IH]; intros Hstep st Hst; [split; [exact Hst|simpl; lia]|].
  rewrite run_steps_cons.
  assert (Hl : ∀ (st : Runner.RunState DB) s q ps,
            s ∈ l →
            _resolve_query_parameters (sql s) (Runner.step_results_for_deps st)
              (depends_on s) = Some (q, ps) →
            P (q, ps)).
  { intros st' s' q ps Hin. apply Hstep. now apply list_elem_of_further. }
  destruct (run_step_executed st s) as [Heq|(q & ps & Hr & Heq)].
  - destruct (IH Hl (run_step st s)) as [Hall Hlen];
      [now rewrite Heq|].
    split; [exact Hall|]. rewrite Heq in Hlen. simpl. lia.
  - destruct (IH Hl (run_step st s)) as [Hall Hlen].
    { rewrite Heq. apply Forall_app. split; [exact Hst|].
      apply Forall_singleton. eapply Hstep; [apply list_elem_of_here|exact Hr]. }
    split; [exact Hall|]. rewrite Heq, length_app in Hlen. simpl in *. lia.
Qed.

End RunnerTraffic.

(** X10: the store is asked at most one query per step, and the SQL text of
    every query it receives is the template of a step of the plan with each
    placeholder replaced by its marker [:name]: no value taken from earlier
    results is ever written into the SQL text; the values travel in the
    parameters, bound under exactly the placeholder names. *)
Theorem store_receives_marked_templates {DB : Type}
    (db_execute : DB -> string -> Params -> DB * ExecResult)
    (connection : DB) (steps : list Step) :
  (length (Runner.executed (Runner.run_plan db_execute connection steps))
   ≤ length steps)%nat
  ∧ ∀ sql_query (params : Params),
      (sql_query, params)
      ∈ Runner.executed (Runner.run_plan db_execute connection steps) →
      ∃ s,
        s ∈ steps
        ∧ sql_query
          = Template.concat_map Template.token_marker (tokens (sql s))
        ∧ ∀ name, name ∈ dom params ↔ Placeholder name ∈ tokens (sql s).
Proof.
  pose (P := fun qp : string * Params =>
               ∃ s, s ∈ steps
                    ∧ qp.1 = Template.concat_map Template.token_marker
                               (tokens (sql s))
                    ∧ ∀ name, name ∈ dom qp.2
                              ↔ Placeholder name ∈ tokens (sql s)).
  destruct (executed_invariant db_execute P steps) with
    (st := Runner.initial_state connection) as [Hall Hlen].
  - intros st s q ps Hin Hres. exists s. split; [exact Hin|].
    destruct (substitute_spec _ _ _ _ _ _ Hres) as (Hq & Hk & _).
    split; [exact Hq|].
    intros name. simpl. rewrite elem_of_dom, Hk, lookup_empty. split.
    + intros [[? H]|H]; [discriminate|exact H].
    + auto.
  - apply Forall_nil_2.
  - split; [exact Hlen|].
    intros q ps Hin. rewrite Forall_forall in Hall. exact (Hall _ Hin).
Qed.

Section SameQueries.

Context {DB : Type} (db_execute : DB -> string -> Params -> DB * ExecResult).

Local Abbreviation run_step := (Runner.run_step db_execute).
Local Abbreviation run_steps := (Runner.run_steps db_execute).

Lemma run_step_same_traffic st st' s t :
  Plans.same_queries s t → Plans.same_traffic st st' →
  Plans.same_traffic (run_step st s) (run_step st' t).
Proof.
  intros (Hsql & Hdeps & Hid) (Hc & Hr & He & Hraw & Herr).
  unfold Plans.same_traffic, Runner.run_step.
  rewrite <- Hsql, <- Hdeps, <- Hid, <- Hr, <- Hc, <- He.
  destruct (_resolve_query_parameters _ _ _) as [[q ps]|]; simpl.
  - destruct (db_execute _ q ps) as [c [rows|e]]; simpl;
      rewrite !map_app, Hraw, Herr; simpl; split_and!; try reflexivity.
    + destruct (success_record_fields s rows) as (-> & _).
      now destruct (success_record_fields t rows) as (-> & _).
    + destruct (success_record_fields s rows) as (_ & -> & _).
      now destruct (success_record_fields t rows) as (_ & -> & _).
  - rewrite !map_app, Hraw, Herr. split_and!; reflexivity.
Qed.

Lemma run_steps_same_traffic l l' :
  Forall2 Plans.same_queries l l' →
  ∀ st st', Plans.same_traffic st st' →
            Plans.same_traffic (run_steps st l) (run_steps st' l').
Proof.
  induction 1 as [|s t l l' Hst _ IH]; intros st st' Hsame; [exact Hsame|].
  rewrite !run_steps_cons. apply IH. now apply run_step_same_traffic.
Qed.

End SameQueries.

(** X11: the fields [step], [description] and [table_used] have no effect
    on what is executed. Two plans whose steps agree, position by position,
    on [sql], [depends_on] and [query_id] send the same queries with the
    same parameters, leave the same step results and the same store, and
    give records with the same raw results and the same errors. *)
Theorem labels_do_not_affect_execution {DB : Type}
    (db_execute : DB -> string -> Params -> DB * ExecResult)
    (connection : DB) (steps steps' : list Step) :
  Forall2 Plans.same_queries steps steps' →
  let run := Runner.run_plan db_execute connection steps in
  let run' := Runner.run_plan db_execute connection steps' in
  Runner.executed run = Runner.executed run'
  ∧ Runner.conn run = Runner.conn run'
  ∧ Runner.step_results_for_deps run = Runner.step_results_for_deps run'
  ∧ map raw_results (Runner.output_results run)
    = map raw_results (Runner.output_results run')
  ∧ map error (Runner.output_results run)
    = map error (Runner.output_results run').
Proof.
  intros Hsame run run'.
  destruct (run_steps_same_traffic db_execute steps steps' Hsame
              (Runner.initial_state connection)
              (Runner.initial_state connection))
    as (Hc & Hr & He & Hraw & Herr).
  { split_and!; reflexivity. }
  split_and!; assumption.
Qed.

Lemma labels_do_not_affect_execution_witness :
  Runner.executed
    (Runner.run_plan Examples.recording_execute [] Examples.first_then_second)
  = Runner.executed
      (Runner.run_plan Examples.recording_execute []
         [ mkStep 7 "q1" "renamed" "SELECT 1" [] "other";
           mkStep 3 "q2" "too" "SELECT 2" [] "other" ]).
Proof.
  apply (labels_do_not_affect_execution Examples.recording_execute []
           Examples.first_then_second
           [ mkStep 7 "q1" "renamed" "SELECT 1" [] "other";
             mkStep 3 "q2" "too" "SELECT 2" [] "other" ]).
  repeat constructor.
Defined.

(** X12: a placeholder cannot be fed by a step that has not run. When none
    of the dependencies listed by a step is the [query_id] of a step placed
    before it in the list (they are listed later, or name no step), and its
    template holds a placeholder, the step gets the record of a failed
    resolution. *)
Theorem forward_reference_fails {DB : Type}
    (db_execute : DB -> string -> Params -> DB * ExecResult)
    (connection : DB) (steps : list Step) (i : nat) (s : Step)
    (name : string) :
  steps !! i = Some s →
  (∀ dep, dep ∈ depends_on s → dep ∉ map query_id (take i steps)) →
  Placeholder name ∈ tokens (sql s) →
  Runner.output_results (Runner.run_plan db_execute connection steps) !! i
  = Some (Runner.resolution_failure_record s).
Proof.
  intros Hi Hdeps Hin.
  set (before := Runner.run_plan db_execute connection (take i steps)).
  assert (Habsent : ∀ dep, dep ∈ depends_on s →
            Runner.step_results_for_deps before !! dep = None
            ∨ Runner.step_results_for_deps before !! dep = Some []).
  { intros dep Hdep. left. apply not_elem_of_dom.
    intros Hdom.
    apply (results_dom db_execute (take i steps)
             (Runner.initial_state connection)) in Hdom.
    apply elem_of_union in Hdom as [Hdom|Hdom].
    - simpl in Hdom. rewrite dom_empty_L in Hdom.
      now apply not_elem_of_empty in Hdom.
    - apply elem_of_list_to_set in Hdom. exact (Hdeps dep Hdep Hdom). }
  assert (Hnone : _resolve_query_parameters (sql s)
                    (Runner.step_results_for_deps before) (depends_on s)
                  = None).
  { apply (substitute_fails name); [|exact Hin|apply lookup_empty].
    unfold _extract_parameter_value.
    destruct (nothing_to_extract name _ _ Habsent) as [-> ->].
    now destruct (is_list_parameter name). }
  apply (output_at db_execute connection steps i s Hi).
  fold before. unfold Runner.run_step. now rewrite Hnone.
Qed.

Lemma forward_reference_fails_witness :
  Runner.output_results
    (Runner.run_plan Examples.small_execute []
       [ mkStep 1 "first" "uses the next" "SELECT {{n}}" ["second"] "t";
         mkStep 2 "second" "gives n" "SELECT 1" [] "t" ]) !! 0%nat
  = Some (Runner.resolution_failure_record
            (mkStep 1 "first" "uses the next" "SELECT {{n}}" ["second"] "t")).
Proof.
  apply (forward_reference_fails Examples.small_execute []
           [ mkStep 1 "first" "uses the next" "SELECT {{n}}" ["second"] "t";
             mkStep 2 "second" "gives n" "SELECT 1" [] "t" ]
           0 (mkStep 1 "first" "uses the next" "SELECT {{n}}" ["second"] "t")
           "n").
  - reflexivity.
  - intros dep _. apply not_elem_of_nil.
  - apply (bool_decide_unpack _). vm_compute. exact I.
Defined.

(** ** More on the entry point *)

(** X13: when the engine is created and the connection opens, the entry
    point returns the records of the run: one per step of the plan, in the
    order of the list, each with the description of its step. *)
Theorem entry_point_one_record_per_step {Engine DB : Type}
    (script_dir : string) (isfile : string -> bool)
    (create_engine : string -> bool -> Engine + string)
    (connect : Engine -> Result DB)
    (db_execute : DB -> string -> Params -> DB * ExecResult)
    (config : Database.Config) (plan : ExecutionPlan)
    (engine : Engine) (connection : DB) :
  Database.DatabaseService Engine script_dir isfile create_engine config
  = Ok engine →
  connect engine = Ok connection →
  ∃ records,
    Service.execute_queries_and_format_with_dependencies
      Engine script_dir isfile create_engine DB connect db_execute config plan
    = Ok records
    ∧ records
      = Runner.output_results
          (Runner.run_plan db_execute connection (execution_plan plan))
    ∧ map out_description records = map description (execution_plan plan)
    ∧ length records = length (execution_plan plan).
Proof.
  intros Hengine Hconn.
  unfold Service.execute_queries_and_format_with_dependencies.
  rewrite Hengine, Hconn. simpl.
  eexists. split; [reflexivity|]. split; [reflexivity|].
  unfold Runner.run_plan. split.
  - now rewrite run_steps_descriptions.
  - now rewrite run_steps_length.
Qed.

Lemma entry_point_one_record_per_step_witness :
  ∃ records,
    Service.execute_queries_and_format_with_dependencies
      unit "/app/service" Environments.any_file Examples.unit_engine
      (list string) Examples.open_connection Examples.recording_execute
      Examples.default_config Examples.one_step_plan
    = Ok records
    ∧ records
      = Runner.output_results
          (Runner.run_plan Examples.recording_execute []
             (execution_plan Examples.one_step_plan))
    ∧ map out_description records = ["first"]
    ∧ length records = 1%nat.
Proof.
  apply (entry_point_one_record_per_step "/app/service" Environments.any_file
           Examples.unit_engine Examples.open_connection
           Examples.recording_execute Examples.default_config
           Examples.one_step_plan () []);
    reflexivity.
Defined.

(** X14: errors that the entry point does not turn into a record. A SQLite
    configuration without [database_path] and a MySQL configuration without
    [user] raise [KeyError]; an exception of [engine.connect()] passes
    through as it is. In none of these cases is a list returned. *)
Theorem entry_point_lets_errors_through {Engine DB : Type}
    (script_dir : string) (isfile : string -> bool)
    (create_engine : string -> bool -> Engine + string)
    (connect : Engine -> Result DB)
    (db_execute : DB -> string -> Params -> DB * ExecResult)
    (config : Database.Config) (plan : ExecutionPlan) :
  let entry_point :=
    Service.execute_queries_and_format_with_dependencies
      Engine script_dir isfile create_engine DB connect db_execute in
  (config !! "database_type" = Some (VStr "sqlite") →
   config !! "database_path" = None →
   entry_point config plan = Raise (KeyError "database_path"))
  ∧ (config !! "database_type" = Some (VStr "mysql") →
     config !! "user" = None →
     entry_point config plan = Raise (KeyError "user"))
  ∧ (∀ engine e,
       Database.DatabaseService Engine script_dir isfile create_engine config
       = Ok engine →
       connect engine = Raise e →
       entry_point config plan = Raise e).
Proof.
  intros entry_point. subst entry_point.
  unfold Service.execute_queries_and_format_with_dependencies.
  split_and!.
  - intros Ht Hp.
    unfold Database.DatabaseService, Database._create_engine,
      Database.config_item.
    now rewrite Ht, Hp.
  - intros Ht Hu.
    unfold Database.DatabaseService, Database._create_engine,
      Database.server_url, Database.config_item.
    now rewrite Ht, Hu.
  - intros engine e -> ->. reflexivity.
Qed.

Lemma entry_point_lets_errors_through_witness :
  Service.execute_queries_and_format_with_dependencies
    unit "/app/service" Environments.any_file Examples.unit_engine
    (list string) Environments.refused_connection Examples.recording_execute
    Environments.config_without_path Examples.one_step_plan
  = Raise (KeyError "database_path")
  ∧ Service.execute_queries_and_format_with_dependencies
      unit "/app/service" Environments.any_file Examples.unit_engine
      (list string) Environments.refused_connection
      Examples.recording_execute Examples.default_config
      Examples.one_step_plan
    = Raise (SQLAlchemyError "unable to open database file").
Proof.
  split.
  - apply (entry_point_lets_errors_through "/app/service"
             Environments.any_file Examples.unit_engine
             Environments.refused_connection Examples.recording_execute
             Environments.config_without_path Examples.one_step_plan);
      reflexivity.
  - apply (proj2 (proj2
             (entry_point_lets_errors_through "/app/service"
                Environments.any_file Examples.unit_engine
                Environments.refused_connection Examples.recording_execute
                Examples.default_config Examples.one_step_plan)) ());
      reflexivity.
Defined.

(** ** More on plan ingestion *)

Lemma obj_get_set_eq key v members :
  obj_get key (obj_set key v members) = Some v.
Proof.
  induction members as [|[k old] rest IH]; simpl.
  - now rewrite String.eqb_refl.
  - destruct (String.eqb k key) eqn:Hk; simpl; now rewrite Hk.
Qed.

Lemma obj_get_set_ne key key' v members :
  key ≠ key' → obj_get key' (obj_set key v members) = obj_get key' members.
Proof.
  intros Hne. induction members as [|[k old] rest IH]; simpl.
  - destruct (String.eqb_spec key key'); [contradiction|reflexivity].
  - destruct (String.eqb_spec k key) as [->|Hk]; simpl.
    + destruct (String.eqb_spec key key'); [contradiction|reflexivity].
    + now rewrite IH.
Qed.

Lemma obj_set_same key v members :
  obj_get key members = Some v → obj_set key v members = members.
Proof.
  induction members as [|[k old] rest IH]; [discriminate|]. simpl.
  destruct (String.eqb k key).
  - now intros [= ->].
  - intros H. now rewrite IH.
Qed.

Lemma obj_set_keeps key key' v members :
  is_Some (obj_get key' members) →
  is_Some (obj_get key' (obj_set key v members)).
Proof.
  intros Hsome. destruct (decide (key = key')) as [->|Hne].
  - rewrite obj_get_set_eq. eauto.
  - now rewrite obj_get_set_ne.
Qed.

Lemma translate_ok v db_type v' :
  Ingest._translate_sql_for_dialect v db_type = Ok v' →
  (Ingest.lower db_type = "sqlite" → ∃ q q', v = JStr q ∧ v' = JStr q')
  ∧ (Ingest.lower db_type ≠ "sqlite" → v' = v).
Proof.
  unfold Ingest._translate_sql_for_dialect.
  destruct (String.eqb_spec (Ingest.lower db_type) "sqlite") as [Heq|Hne].
  - destruct v; try discriminate. intros [= <-].
    split; [eauto|contradiction].
  - intros [= <-]. split; [contradiction|reflexivity].
Qed.

Lemma ingest_step_ok db_type i step step' :
  Ingest.ingest_step db_type i step = Ok step' →
  ∃ members v v',
    step = JObj members
    ∧ (∀ key, key ∈ Ingest.step_required_keys →
              is_Some (obj_get key members))
    ∧ obj_get "sql" members = Some v
    ∧ Ingest._translate_sql_for_dialect v db_type = Ok v'
    ∧ step' = JObj (obj_set "sql" v' members).
Proof.
  unfold Ingest.ingest_step.
  destruct (Ingest.require_keys _ step _) as [[]|e] eqn:Hreq; [|discriminate].
  simpl. destruct step as [| | | | |members]; try discriminate.
  destruct (require_keys_object Ingest.step_required_keys members
              (Ingest.missing_step_key i))
    as [[_ Hall]|(key & _ & _ & Hraise)]; [|congruence].
  simpl. destruct (obj_get "sql" members) as [v|] eqn:Hsql; [|discriminate].
  simpl.
  destruct (Ingest._translate_sql_for_dialect v db_type) as [v'|e] eqn:Htr;
    [|discriminate].
  simpl. intros [= <-]. exists members, v, v'. auto.
Qed.

Lemma ingest_steps_ok db_type steps :
  ∀ i steps',
    Ingest.ingest_steps db_type i steps = Ok steps' →
    Forall2 (fun step step' =>
               ∃ j, Ingest.ingest_step db_type j step = Ok step')
      steps steps'.
Proof.
  induction steps as [|step steps IH]; intros i steps'; simpl.
  - intros [= <-]. constructor.
  - destruct (Ingest.ingest_step db_type i step) as [st'|e] eqn:Hstep;
      [|discriminate].
    simpl.
    destruct (Ingest.ingest_steps db_type (S i) steps) as [rest'|e] eqn:Hrest;
      [|discriminate].
    simpl. intros [= <-]. constructor; [eauto|]. exact (IH _ _ Hrest).
Qed.

Lemma ingest_ok db_type optimization_info result_json plan :
  Ingest.ingest db_type optimization_info result_json = Ok plan →
  ∃ members steps steps',
    result_json = JObj members
    ∧ (∀ key, key ∈ Ingest.required_keys → is_Some (obj_get key members))
    ∧ obj_get "execution_plan" members = Some (JArr steps)
    ∧ Ingest.ingest_steps db_type 0 steps = Ok steps'
    ∧ plan = JObj (obj_set "optimization_info" optimization_info
                     (obj_set "execution_plan" (JArr steps') members)).
Proof.
  unfold Ingest.ingest.
  destruct (Ingest.require_keys _ result_json _) as [[]|e] eqn:Hreq;
    [|discriminate].
  simpl. destruct result_json as [| | | | |members]; try discriminate.
  destruct (require_keys_object Ingest.required_keys members
              Ingest.missing_top_key)
    as [[_ Hall]|(key & _ & _ & Hraise)]; [|congruence].
  simpl.
  destruct (obj_get "execution_plan" members) as [[| | | |steps|]|] eqn:Hplan;
    try discriminate.
  simpl.
  destruct (Ingest.ingest_steps db_type 0 steps) as [steps'|e] eqn:Hsteps;
    [|discriminate].
  simpl. intros [= <-]. exists members, steps, steps'. auto.
Qed.

Lemma parse_plan_ok db_type optimization_info model_output parsed plan :
  Ingest.parse_plan db_type optimization_info model_output parsed
  = Ok (Ingest.GenPlan plan) →
  ∃ result_json,
    parsed = inl result_json
    ∧ Ingest.ingest db_type optimization_info result_json = Ok plan.
Proof.
  unfold Ingest.parse_plan. destruct parsed as [result_json|e]; [|discriminate].
  destruct (Ingest.ingest _ _ _) as [p|[]] eqn:Hing; try discriminate.
  intros [= <-]. eauto.
Qed.

Lemma ingested_steps_complete db_type steps steps' :
  Forall2 (fun step step' =>
             ∃ j, Ingest.ingest_step db_type j step = Ok step')
    steps steps' →
  Forall (Shape.complete_step db_type) steps'.
Proof.
  induction 1 as [|st st' l l' [j Hst] _ IH]; [constructor|].
  constructor; [|exact IH].
  destruct (ingest_step_ok _ _ _ _ Hst)
    as (sm & v & v' & _ & Hkeys & _ & Htr & ->).
  exists (obj_set "sql" v' sm). split; [reflexivity|]. split.
  - intros key Hin. now apply obj_set_keeps, Hkeys.
  - intros Hlite. destruct (translate_ok _ _ _ Htr) as [Hs _].
    destruct (Hs Hlite) as (q & q' & _ & ->).
    exists q'. apply obj_get_set_eq.
Qed.

Lemma ingested_steps_same db_type steps steps' :
  Forall2 (fun step step' =>
             ∃ j, Ingest.ingest_step db_type j step = Ok step')
    steps steps' →
  Forall2 (Shape.same_but_sql db_type) steps steps'.
Proof.
  induction 1 as [|st st' l l' [j Hst] _ IH]; [constructor|].
  constructor; [|exact IH].
  destruct (ingest_step_ok _ _ _ _ Hst)
    as (sm & v & v' & -> & _ & Hsql & Htr & ->).
  exists sm, (obj_set "sql" v' sm). split_and!; try reflexivity.
  - intros key Hne. apply obj_get_set_ne. congruence.
  - intros Hother. destruct (translate_ok _ _ _ Htr) as [_ Hsame].
    rewrite (Hsame Hother). now apply obj_set_same.
Qed.

Lemma same_but_sql_other_dialect db_type steps steps' :
  Ingest.lower db_type ≠ "sqlite" →
  Forall2 (Shape.same_but_sql db_type) steps steps' → steps' = steps.
Proof.
  intros Hother.
  induction 1 as [|st st' l l' (sm & sm' & -> & -> & _ & Hsame) _ IH];
    [reflexivity|].
  now rewrite IH, (Hsame Hother).
Qed.

(** X15: what plan ingestion guarantees when it returns a plan. The plan
    is a dictionary with the four required keys and [optimization_info];
    its [execution_plan] is a list; and every step in it is a dictionary
    with the six required fields, whose [sql] is a string when the dialect
    is SQLite. *)
Theorem accepted_plan_shape (db_type : string) (optimization_info : JSON)
    (model_output : string) (parsed : JSON + string) (plan : JSON) :
  Ingest.parse_plan db_type optimization_info model_output parsed
  = Ok (Ingest.GenPlan plan) →
  ∃ members steps,
    plan = JObj members
    ∧ (∀ key, key ∈ Ingest.required_keys → is_Some (obj_get key members))
    ∧ obj_get "execution_plan" members = Some (JArr steps)
    ∧ obj_get "optimization_info" members = Some optimization_info
    ∧ Forall (Shape.complete_step db_type) steps.
Proof.
  intros Hparse.
  destruct (parse_plan_ok _ _ _ _ _ Hparse) as (rj & _ & Hing).
  destruct (ingest_ok _ _ _ _ Hing) as (m & steps & steps' & _ & Hall & _ & Hsteps & ->).
  eexists _, steps'. split; [reflexivity|]. split_and!.
  - intros key Hin. now apply obj_set_keeps, obj_set_keeps, Hall.
  - rewrite obj_get_set_ne by discriminate. apply obj_get_set_eq.
  - apply obj_get_set_eq.
  - eapply ingested_steps_complete, ingest_steps_ok, Hsteps.
Qed.

Lemma accepted_plan_shape_witness :
  ∃ members steps,
    Environments.accepted_plan = JObj members
    ∧ (∀ key, key ∈ Ingest.required_keys → is_Some (obj_get key members))
    ∧ obj_get "execution_plan" members = Some (JArr steps)
    ∧ obj_get "optimization_info" members = Some JNull
    ∧ Forall (Shape.complete_step "sqlite") steps.
Proof.
  apply (accepted_plan_shape "sqlite" JNull "plan" (inl Examples.plan_json)).
  vm_compute. reflexivity.
Defined.

(** X16: what plan ingestion changes. Given a dictionary, the plan it
    returns has the same value under every key other than [execution_plan]
    and [optimization_info]; it has as many steps, and each step is the
    step it was but for its [sql]; for a dialect other than SQLite the
    steps are returned as they were. *)
Theorem ingestion_changes_sql_only (db_type : string)
    (optimization_info : JSON) (model_output : string)
    (members : list (string * JSON)) (plan : JSON) :
  Ingest.parse_plan db_type optimization_info model_output
    (inl (JObj members))
  = Ok (Ingest.GenPlan plan) →
  ∃ members' steps steps',
    plan = JObj members'
    ∧ (∀ key, key ≠ "execution_plan" → key ≠ "optimization_info" →
              obj_get key members' = obj_get key members)
    ∧ obj_get "execution_plan" members = Some (JArr steps)
    ∧ obj_get "execution_plan" members' = Some (JArr steps')
    ∧ Forall2 (Shape.same_but_sql db_type) steps steps'
    ∧ (Ingest.lower db_type ≠ "sqlite" → steps' = steps).
Proof.
  intros Hparse.
  destruct (parse_plan_ok _ _ _ _ _ Hparse) as (rj & [= <-] & Hing).
  destruct (ingest_ok _ _ _ _ Hing)
    as (m & steps & steps' & [= <-] & _ & Hplan & Hsteps & ->).
  eexists _, steps, steps'. split; [reflexivity|].
  assert (Hrel : Forall2 (Shape.same_but_sql db_type) steps steps')
    by (eapply ingested_steps_same, ingest_steps_ok, Hsteps).
  split_and!.
  - intros key Hp Ho. now rewrite !obj_get_set_ne by congruence.
  - exact Hplan.
  - rewrite obj_get_set_ne by discriminate. apply obj_get_set_eq.
  - exact Hrel.
  - intros Hother. exact (same_but_sql_other_dialect _ _ _ Hother Hrel).
Qed.

Lemma ingestion_changes_sql_only_witness :
  ∃ members' steps steps',
    Environments.accepted_plan = JObj members'
    ∧ (∀ key, key ≠ "execution_plan" → key ≠ "optimization_info" →
              obj_get key members' = obj_get key Environments.plan_members)
    ∧ obj_get "execution_plan" Environments.plan_members = Some (JArr steps)
    ∧ obj_get "execution_plan" members' = Some (JArr steps')
    ∧ Forall2 (Shape.same_but_sql "mysql") steps steps'
    ∧ (Ingest.lower "mysql" ≠ "sqlite" → steps' = steps).
Proof.
  apply (ingestion_changes_sql_only "mysql" JNull "plan"
           Environments.plan_members Environments.accepted_plan).
  vm_compute. reflexivity.
Defined.

(** ** More on the generate/validate loop *)

Section LoopMore.

Context {World : Type}.
Variable plan_oracle : World -> option JSON -> World * string.
Variable plan_validator : World -> JSON -> World * Result string.
Variable json_loads : string -> JSON + string.
Variable db_type : string.
Variable optimization_info : JSON.
Variable progress : nat -> Result unit.

Local Abbreviation attempts :=
  (Acquisition.attempts World plan_oracle plan_validator json_loads db_type
     optimization_info progress).
Local Abbreviation attempt_body :=
  (Acquisition.attempt_body World plan_oracle plan_validator json_loads
     db_type optimization_info).

(** The ways through one iteration. *)
Lemma attempt_body_cases w last_error continue_with w' events fin :
  attempt_body w last_error continue_with = (w', events, fin) →
  (∃ e, fin = Crashed e
        ∧ (events = [OracleCall last_error]
           ∨ ∃ plan, events = [OracleCall last_error; ValidatorCall plan]))
  ∨ (∃ plan, events = [OracleCall last_error; ValidatorCall plan; Accepted]
             ∧ fin = Finished (Some plan) last_error)
  ∨ (∃ w1 message rest,
       continue_with w1 last_error = (w', rest, fin)
       ∧ events
         = OracleCall last_error :: GenerationFailed message :: rest)
  ∨ (∃ w2 plan reason rest,
       continue_with w2 (Some reason) = (w', rest, fin)
       ∧ events
         = OracleCall last_error :: ValidatorCall plan
             :: Rejected reason :: rest).
Proof.
  unfold Acquisition.attempt_body, generate_sql_with_dependencies.
  destruct (plan_oracle w last_error) as [w1 model_output].
  destruct (Ingest.parse_plan _ _ _ _) as [[message|plan]|e].
  - destruct (continue_with w1 last_error) as [[w2 rest] f] eqn:Hk.
    intros [= <- <- <-]. right. right. left. eauto.
  - destruct (validate_final_sql_result _ _ _ w1 plan)
      as [w2 [validation_result|e]].
    2:{ intros [= <- <- <-]. left. eauto. }
    destruct (py_get validation_result "is_valid" _) as [is_valid|e].
    2:{ intros [= <- <- <-]. left. eauto. }
    destruct (truthy is_valid).
    { intros [= <- <- <-]. right. left. eauto. }
    destruct (py_get validation_result "reason" _) as [reason|e].
    2:{ intros [= <- <- <-]. left. eauto. }
    destruct (continue_with w2 (Some reason)) as [[w3 rest] f] eqn:Hk.
    intros [= <- <- <-]. right. right. right. exists w2, plan, reason, rest.
    eauto.
  - intros [= <- <- <-]. left. eauto.
Qed.

Lemma attempts_step n attempt w last_error :
  attempts (S n) attempt w last_error
  = match progress (40 + attempt * 20) with
    | Raise e => (w, [], Crashed e)
    | Ok _ => attempt_body w last_error (attempts n (S attempt))
    end.
Proof. reflexivity. Qed.


Lemma attempts_counts n :
  ∀ attempt w last_error w' events fin,
    attempts n attempt w last_error = (w', events, fin) →
    LoopLog.counts_ok events.
Proof.
  induction n as [|n IH]; intros attempt w last_error w' events fin Hrun.
  - injection Hrun as <- <- <-. unfold LoopLog.counts_ok, count. simpl. lia.
  - rewrite attempts_step in Hrun.
    destruct (progress _) as [[]|e].
    2:{ injection Hrun as <- <- <-. unfold LoopLog.counts_ok, count.
        simpl. lia. }
    apply attempt_body_cases in Hrun
      as [(e & _ & [->|[plan ->]])
         |[(plan & -> & _)
          |[(w1 & message & rest & Hk & ->)
           |(w2 & plan & reason & rest & Hk & ->)]]];
      try (unfold LoopLog.counts_ok, count; simpl; lia).
    + apply IH in Hk. unfold LoopLog.counts_ok, count in *. simpl. lia.
    + apply IH in Hk. unfold LoopLog.counts_ok, count in *. simpl. lia.
Qed.

(** With a progress bar that rejects values above 100, the iterations from
    the fourth on do not start. *)
Lemma attempts_progress_bound n :
  (∀ value, (100 < value)%nat → ∃ e, progress value = Raise e) →
  ∀ attempt w last_error w' events fin,
    attempts n attempt w last_error = (w', events, fin) →
    (count is_oracle_call events ≤ 4 - attempt)%nat
    ∧ (∀ last, fin = Finished None last → n = 0%nat ∨ (attempt + n ≤ 4)%nat).
Proof.
  intros Hbar.
  induction n as [|n IH]; intros attempt w last_error w' events fin Hrun.
  - injection Hrun as <- <- <-. split; [unfold count; simpl; lia|auto].
  - rewrite attempts_step in Hrun.
    destruct (le_lt_dec 4 attempt) as [Hbig|Hsmall].
    { destruct (Hbar (40 + attempt * 20)%nat) as [e He]; [lia|].
      rewrite He in Hrun. injection Hrun as <- <- <-.
      split; [unfold count; simpl; lia|discriminate]. }
    destruct (progress _) as [[]|e].
    2:{ injection Hrun as <- <- <-.
        split; [unfold count; simpl; lia|discriminate]. }
    apply attempt_body_cases in Hrun
      as [(e & -> & [->|[plan ->]])
         |[(plan & -> & ->)
          |[(w1 & message & rest & Hk & ->)
           |(w2 & plan & reason & rest & Hk & ->)]]];
      try (split; [unfold count; simpl; lia|discriminate]).
    + destruct (IH _ _ _ _ _ _ Hk) as [Hc Hf].
      split; [unfold count in *; simpl; lia|].
      intros last Hlast. right. destruct (Hf _ Hlast); lia.
    + destruct (IH _ _ _ _ _ _ Hk) as [Hc Hf].
      split; [unfold count in *; simpl; lia|].
      intros last Hlast. right. destruct (Hf _ Hlast); lia.
Qed.

End LoopMore.

(** Streamlit's progress bar rejects every value above 100. *)
Lemma streamlit_progress_range value :
  (100 < value)%nat →
  ∃ e, Examples.streamlit_progress value = Raise e.
Proof.
  intros Hvalue. exists StreamlitAPIException.
  unfold Examples.streamlit_progress.
  destruct (Nat.leb_spec value 100) as [Hle|_]; [lia|reflexivity].
Qed.

(** C6: where the loop does what is claimed, and where it does not. For
    all services and every [max_attempts], the oracle is called at most
    [max_attempts] times; a run that ends with a plan to execute has a log
    that ends with the oracle call, the validator call and the acceptance
    of that plan, with no earlier acceptance, so nothing is called after
    the first accepted plan; and a run without acceptance executes no plan,
    and when no exception leaves it, it ends after [max_attempts] oracle
    calls with the reason of the last rejection. With two rejections then
    an acceptance and [max_attempts = 3] there are three oracle calls and
    two rejections; with rejections only and [max_attempts = 2] the loop
    ends without a plan, with the last reason.

    With [max_attempts] 4 or 5, which the slider allows, the fourth
    iteration sets the progress bar to 120 and Streamlit's progress bar
    raises: against a validator that rejects every plan the loop is left by
    the exception after three oracle calls instead of ending without a
    plan after four or five, and a validator that would accept the fourth
    plan is never asked. Under that progress bar no run with
    [max_attempts] above 3 ends in the branch without a valid plan. *)
Theorem C6_fourth_attempt_aborts {World : Type}
    (plan_oracle : World -> option JSON -> World * string)
    (plan_validator : World -> JSON -> World * Result string)
    (json_loads : string -> JSON + string)
    (db_type : string) (optimization_info : JSON)
    (progress : nat -> Result unit)
    (max_attempts : nat) (w : World) :
  let run :=
    acquire World plan_oracle plan_validator json_loads db_type
      optimization_info progress max_attempts w in
  let events := run.1.2 in
  let outcome := run.2 in
  let under_streamlit :=
    acquire World plan_oracle plan_validator json_loads db_type
      optimization_info Examples.streamlit_progress max_attempts w in
  let scripted accepting_from attempts_allowed :=
    acquire nat (Examples.counting_oracle "plan")
      (Examples.validator_accepting_from accepting_from)
      Examples.scripted_loads "sqlite" JNull Examples.streamlit_progress
      attempts_allowed 0%nat in
  (count is_oracle_call events ≤ max_attempts)%nat
  ∧ (∀ plan,
       outcome = ExecutePlan plan →
       ∃ pre e,
         events = pre ++ [OracleCall e; ValidatorCall plan; Accepted]
         ∧ Accepted ∉ pre)
  ∧ (Accepted ∉ events →
     (∀ plan, outcome ≠ ExecutePlan plan)
     ∧ ((∀ e, outcome ≠ Aborted e) →
        outcome = NoValidPlan (last_rejection events None)
        ∧ count is_oracle_call events = max_attempts))
  ∧ ((∃ plan, (scripted 3 3).2 = ExecutePlan plan)%nat
     ∧ count is_oracle_call (scripted 3 3).1.2 = 3
     ∧ count is_validator_call (scripted 3 3).1.2 = 3
     ∧ count is_rejection (scripted 3 3).1.2 = 2)%nat
  ∧ ((scripted 9 2).2 = NoValidPlan (Some (JStr "wrong join"))
     ∧ count is_oracle_call (scripted 9 2).1.2 = 2
     ∧ count is_rejection (scripted 9 2).1.2 = 2)%nat
  ∧ ((scripted 9 4).2 = Aborted StreamlitAPIException
     ∧ count is_oracle_call (scripted 9 4).1.2 = 3
     ∧ count is_rejection (scripted 9 4).1.2 = 3)%nat
  ∧ ((scripted 9 5).2 = Aborted StreamlitAPIException
     ∧ count is_oracle_call (scripted 9 5).1.2 = 3
     ∧ count is_rejection (scripted 9 5).1.2 = 3)%nat
  ∧ ((scripted 4 4).2 = Aborted StreamlitAPIException
     ∧ count is_oracle_call (scripted 4 4).1.2 = 3
     ∧ count LoopLog.is_accepted (scripted 4 4).1.2 = 0)%nat
  ∧ ((3 < max_attempts)%nat →
     (count is_oracle_call under_streamlit.1.2 ≤ 3)%nat
     ∧ ∀ last_error, under_streamlit.2 ≠ NoValidPlan last_error).
Proof.
  intros run events outcome under_streamlit scripted.
  assert (Hinv : ∃ fin,
            loop_invariant max_attempts None events fin
            ∧ outcome = match fin with
                        | Crashed e => Aborted e
                        | Finished None last_error => NoValidPlan last_error
                        | Finished (Some plan) last_error =>
                            if truthy plan then ExecutePlan plan
                            else NoValidPlan last_error
                        end).
  { subst events outcome run. unfold acquire.
    destruct (attempts _ _ _ _ _ _ _ max_attempts 1 w None)
      as [[w' evs] fin] eqn:Hrun.
    exists fin. split; [|reflexivity].
    exact (attempts_invariant _ _ _ _ _ _ _ _ _ _ _ _ _ Hrun). }
  destruct Hinv as (fin & [Hcount Hfin] & Hout).
  assert (Hplan : ∀ plan,
            outcome = ExecutePlan plan →
            ∃ pre e,
              events = pre ++ [OracleCall e; ValidatorCall plan; Accepted]
              ∧ Accepted ∉ pre).
  { intros plan Hplan. rewrite Hplan in Hout.
    destruct fin as [[p|] last|e]; try discriminate.
    destruct Hfin as (Ht & Hlog). rewrite Ht in Hout.
    injection Hout as ->. exact Hlog. }
  split; [exact Hcount|]. split; [exact Hplan|]. split.
  { intros Hnone. split.
    - intros plan Hp. destruct (Hplan plan Hp) as (pre & e & Hev & _).
      apply Hnone. rewrite Hev.
      apply elem_of_app. right. do 2 apply list_elem_of_further.
      apply list_elem_of_here.
    - intros Hlive. destruct fin as [[p|] last|e].
      + destruct Hfin as (Ht & pre & e & Hev & _). exfalso.
        apply Hnone. rewrite Hev.
        apply elem_of_app. right. do 2 apply list_elem_of_further.
        apply list_elem_of_here.
      + destruct Hfin as (-> & _ & Hn). now rewrite Hout.
      + exfalso. exact (Hlive e Hout). }
  split; [vm_compute; eauto 6|].
  split; [vm_compute; auto|].
  split; [vm_compute; auto|].
  split; [vm_compute; auto|].
  split; [vm_compute; auto|].
  intros Hmax. subst under_streamlit. unfold acquire.
  destruct (attempts _ _ _ _ _ _ _ max_attempts 1 w None)
    as [[w' evs] fin'] eqn:Hrun.
  destruct (attempts_progress_bound _ _ _ _ _ _ _ streamlit_progress_range
              _ _ _ _ _ _ Hrun) as [Hc Hf].
  destruct (attempts_invariant _ _ _ _ _ _ _ _ _ _ _ _ _ Hrun) as [_ Hi].
  simpl. split; [lia|].
  intros last_error.
  destruct fin' as [[plan|] last|e]; [|intros [= <-]|discriminate].
  - destruct Hi as [-> _]. discriminate.
  - destruct (Hf _ eq_refl); lia.
Qed.




(** X18: in the log of every run of the loop, the validator is called only
    for answers of the oracle that were ingested (validator calls plus
    failed generations are at most the oracle calls), every verdict belongs
    to a validator call, and at most one plan is accepted. *)
Theorem loop_log_counts {World : Type}
    (plan_oracle : World -> option JSON -> World * string)
    (plan_validator : World -> JSON -> World * Result string)
    (json_loads : string -> JSON + string)
    (db_type : string) (optimization_info : JSON)
    (progress : nat -> Result unit)
    (max_attempts : nat) (w : World) :
  let events :=
    (acquire World plan_oracle plan_validator json_loads db_type
       optimization_info progress max_attempts w).1.2 in
  (count is_validator_call events + count LoopLog.is_generation_failure events
   ≤ count is_oracle_call events)%nat
  ∧ (count is_rejection events + count LoopLog.is_accepted events
     ≤ count is_validator_call events)%nat
  ∧ (count LoopLog.is_accepted events ≤ 1)%nat.
Proof.
  unfold acquire.
  destruct (attempts _ _ _ _ _ _ _ max_attempts 1 w None)
    as [[w' events] fin] eqn:Hrun.
  simpl. exact (attempts_counts _ _ _ _ _ _ _ _ _ _ _ _ _ Hrun).
Qed.

(** X19: each iteration sets the progress bar to [40 + attempt * 20]. With
    a progress bar that rejects values above 100, the fourth iteration
    raises before it calls the oracle: the oracle is called at most three
    times whatever [max_attempts] is, and with [max_attempts] above 3 the
    loop never ends in the "no valid plan" branch: it runs a plan or is
    left by an exception. *)
Theorem progress_bar_caps_attempts {World : Type}
    (plan_oracle : World -> option JSON -> World * string)
    (plan_validator : World -> JSON -> World * Result string)
    (json_loads : string -> JSON + string)
    (db_type : string) (optimization_info : JSON)
    (progress : nat -> Result unit)
    (max_attempts : nat) (w : World) :
  (∀ value, (100 < value)%nat → ∃ e, progress value = Raise e) →
  let run :=
    acquire World plan_oracle plan_validator json_loads db_type
      optimization_info progress max_attempts w in
  (count is_oracle_call run.1.2 ≤ 3)%nat
  ∧ ((3 < max_attempts)%nat → ∀ last_error, run.2 ≠ NoValidPlan last_error).
Proof.
  intros Hbar run. subst run. unfold acquire.
  destruct (attempts _ _ _ _ _ _ _ max_attempts 1 w None)
    as [[w' events] fin] eqn:Hrun.
  destruct (attempts_progress_bound _ _ _ _ _ _ _ Hbar _ _ _ _ _ _ Hrun)
    as [Hcount Hfin].
  destruct (attempts_invariant _ _ _ _ _ _ _ _ _ _ _ _ _ Hrun) as [_ Hinv].
  simpl. split; [lia|].
  intros Hmax last_error.
  destruct fin as [[plan|] last|e]; [|intros [= <-]|discriminate].
  - destruct Hinv as [-> _]. discriminate.
  - destruct (Hfin _ eq_refl); lia.
Qed.

Lemma progress_bar_caps_attempts_witness :
  let run :=
    acquire nat (Examples.counting_oracle "plan")
      (Examples.validator_accepting_from 9) Examples.scripted_loads
      "sqlite" JNull Examples.streamlit_progress 5 0%nat in
  (count is_oracle_call run.1.2 ≤ 3)%nat
  ∧ ((3 < 5)%nat → ∀ last_error, run.2 ≠ NoValidPlan last_error).
Proof.
  apply (progress_bar_caps_attempts (Examples.counting_oracle "plan")
           (Examples.validator_accepting_from 9) Examples.scripted_loads
           "sqlite" JNull Examples.streamlit_progress 5 0%nat).
  intros value Hvalue. exists StreamlitAPIException.
  unfold Examples.streamlit_progress.
  destruct (Nat.leb_spec value 100) as [Hle|_]; [lia|reflexivity].
Defined.

(** ** Table selection *)

Lemma known_tables_exist table_names (items : list JSON) name :
  name ∈ omap (Selection.known_table table_names) items →
  name ∈ table_names ∧ JStr name ∈ items.
Proof.
  intros Hin. apply list_elem_of_omap in Hin as (table & Hitem & Hknown).
  destruct table; try discriminate. simpl in Hknown.
  case_bool_decide as Hname; [|discriminate].
  injection Hknown as <-. auto.
Qed.

Lemma selected_raises_type_error_only table_names result_json e :
  Selection.selected table_names result_json = Raise e → e = TypeError.
Proof.
  unfold Selection.selected.
  destruct result_json as [| | | |items|members]; simpl;
    try (intros [= <-]; reflexivity).
  - destruct (Py.contains _ _); simpl; [intros [= <-]; reflexivity|discriminate].
  - destruct (existsb _ items); simpl; [intros [= <-]; reflexivity|discriminate].
  - case_bool_decide as Hsome; simpl; [|discriminate].
    destruct Hsome as [v Hv]. rewrite Hv. simpl. now destruct v.
Qed.

(** X20: whatever the model answers, table selection returns a list and
    raises nothing; every table in the list exists in the database, and was
    named by the model as a string of its [relevant_tables] list. With the
    fallback of the application, the tables used for the query are not
    empty when the user selected some. *)
Theorem selected_tables_exist (all_table_names selected_tables : list string)
    (parsed : JSON + string) :
  ∃ tables,
    Selection.select_relevant_tables all_table_names parsed = Ok tables
    ∧ (∀ name, name ∈ tables →
         name ∈ all_table_names
         ∧ ∃ result_json items,
             parsed = inl result_json
             ∧ py_getitem result_json "relevant_tables" = Ok (JArr items)
             ∧ JStr name ∈ items)
    ∧ ∃ used,
        Selection.relevant_tables all_table_names selected_tables parsed
        = Ok used
        ∧ (selected_tables ≠ [] → used ≠ [])
        ∧ (tables ≠ [] → used = tables).
Proof.
  assert (Hsel : ∃ tables,
            Selection.select_relevant_tables all_table_names parsed = Ok tables
            ∧ ∀ name, name ∈ tables →
                name ∈ all_table_names
                ∧ ∃ result_json items,
                    parsed = inl result_json
                    ∧ py_getitem result_json "relevant_tables"
                      = Ok (JArr items)
                    ∧ JStr name ∈ items).
  { unfold Selection.select_relevant_tables.
    destruct parsed as [result_json|e].
    2:{ exists []. split; [reflexivity|].
        intros name Hin. now apply elem_of_nil in Hin. }
    destruct (Selection.selected all_table_names result_json)
      as [tables|e] eqn:Hs.
    - exists tables. split; [reflexivity|].
      intros name Hin. unfold Selection.selected in Hs.
      destruct (py_in "relevant_tables" result_json) as [[]|]; simpl in Hs;
        try discriminate.
      + destruct (py_getitem result_json "relevant_tables")
          as [[| | | |items|]|] eqn:Hget; simpl in Hs; try discriminate;
          injection Hs as <-; try (now apply elem_of_nil in Hin).
        destruct (known_tables_exist _ _ _ Hin) as [Hname Hitem].
        split; [exact Hname|]. exists result_json, items. auto.
      + injection Hs as <-. now apply elem_of_nil in Hin.
    - rewrite (selected_raises_type_error_only _ _ _ Hs).
      exists []. split; [reflexivity|].
      intros name Hin. now apply elem_of_nil in Hin. }
  destruct Hsel as (tables & Hsel & Htables).
  exists tables. split; [exact Hsel|]. split; [exact Htables|].
  unfold Selection.relevant_tables. rewrite Hsel. simpl.
  destruct tables as [|t tables].
  - exists selected_tables. split_and!; [reflexivity|auto|congruence].
  - exists (t :: tables). split_and!; [reflexivity|discriminate|reflexivity].
Qed.

(** ** The answer synthesis on the records of a run *)

Lemma filter_all_nonempty (records : list OutputRecord) :
  Forall (fun r => formatted_text r ≠ "") records →
  List.filter (fun res => negb (String.eqb (formatted_text res) "")) records
  = records.
Proof.
  induction 1 as [|r records Hr _ IH]; [reflexivity|]. simpl.
  destruct (String.eqb_spec (formatted_text r) ""); [contradiction|].
  simpl. now rewrite IH.
Qed.

Lemma find_last_with_rows (records : list OutputRecord) :
  match Synthesis.data_for_visualization records with
  | Some rows =>
      rows ≠ []
      ∧ ∃ before r after,
          records = before ++ r :: after ∧ raw_results r = rows
          ∧ Forall (fun r' => raw_results r' = []) after
  | None => Forall (fun r => raw_results r = []) records
  end.
Proof.
  unfold Synthesis.data_for_visualization.
  induction records as [|r records IH] using rev_ind; [constructor|].
  rewrite rev_app_distr. simpl.
  destruct (raw_results r) as [|row rows] eqn:Hr.
  - destruct (List.find _ (rev records)) as [found|].
    + destruct IH as (Hne & before & r' & after & -> & Hraw & Hafter).
      split; [exact Hne|].
      exists before, r', (after ++ [r]). split_and!.
      * now rewrite <- app_assoc.
      * exact Hraw.
      * apply Forall_app. split; [exact Hafter|]. now apply Forall_singleton.
    + apply Forall_app. split; [exact IH|]. now apply Forall_singleton.
  - split; [rewrite Hr; discriminate|].
    exists records, r, []. split_and!; [reflexivity|reflexivity|constructor].
Qed.

(** X21: what the answer synthesis takes from a run. The context it builds
    holds the text of every record, failed steps included, since no text of
    the runner is empty. The data it hands to the chart generation are the
    raw results of the last record that has rows; that record carries no
    error; and when no step returned a row there are none. *)
Theorem synthesis_reads_run {DB : Type}
    (db_execute : DB -> string -> Params -> DB * ExecResult)
    (connection : DB) (steps : list Step) :
  let records :=
    Runner.output_results (Runner.run_plan db_execute connection steps) in
  Synthesis.formatted_data records
  = Py.join (nl +:+ nl) (map formatted_text records)
  ∧ match Synthesis.data_for_visualization records with
    | Some rows =>
        rows ≠ []
        ∧ ∃ before r after,
            records = before ++ r :: after
            ∧ raw_results r = rows ∧ error r = None
            ∧ Forall (fun r' => raw_results r' = []) after
    | None => Forall (fun r => raw_results r = []) records
    end.
Proof.
  intros records.
  assert (Hwf : Forall (fun r => formatted_text r ≠ ""
                               ∧ (is_Some (error r) → raw_results r = []))
                  records).
  { apply (records_invariant db_execute); [|apply Forall_nil_2].
    intros st s r Hout.
    destruct (run_step_record db_execute st s) as (r' & Hout' & Htxt & Hcase).
    rewrite Hout' in Hout. apply app_inj_tail in Hout as [_ <-].
    split; [exact Htxt|].
    destruct Hcase as [[Herr _]|(_ & Hraw & _)]; [|auto].
    rewrite Herr. intros [? ?]. discriminate. }
  split.
  - unfold Synthesis.formatted_data. rewrite filter_all_nonempty; [reflexivity|].
    eapply Forall_impl; [exact Hwf|]. now intros r [? _].
  - pose proof (find_last_with_rows records) as Hfind.
    destruct (Synthesis.data_for_visualization records) as [rows|];
      [|exact Hfind].
    destruct Hfind as (Hne & before & r & after & Hrec & Hraw & Hafter).
    split; [exact Hne|]. exists before, r, after. split_and!; try assumption.
    rewrite Forall_forall in Hwf.
    destruct (Hwf r) as [_ Herr].
    { rewrite Hrec. apply elem_of_app. right. apply list_elem_of_here. }
    destruct (error r) as [e|]; [|reflexivity].
    rewrite Herr in Hraw by eauto. congruence.
Qed.

(** ** Schema texts *)

(** X22: without a readable cache file the generation prompt gets an error
    message in place of a schema. With relevant tables, the message of
    [get_specific_table_schemas] is used as the detailed schema whatever
    the table overview is: it does not hold the text that the fallback test
    looks for. Without relevant tables the overview is used, which the
    application sets to the message of [get_simplified_schemas_for_tables]. *)
Theorem missing_cache_reaches_prompt (table_overview : string)
    (table_names relevant_tables : list string) :
  (relevant_tables ≠ [] →
   Schema.detailed_schema None table_overview relevant_tables
   = "Error: Cache data not found. Please run get_table_overview() first.")
  ∧ Schema.detailed_schema None
      (Schema.get_simplified_schemas_for_tables None table_names) []
    = "Error: Cache data not found. Please run 'Get Table Overview' first.".
Proof.
  split; [|reflexivity].
  destruct relevant_tables as [|t rest]; [congruence|]. intros _.
  reflexivity.
Qed.

Lemma missing_cache_reaches_prompt_witness :
  Schema.detailed_schema None "-- Table: `t`" ["t"]
  = "Error: Cache data not found. Please run get_table_overview() first.".
Proof.
  apply (missing_cache_reaches_prompt "-- Table: `t`" [] ["t"]).
  discriminate.
Defined.

(** X23: the tables of the filtered overview. They are listed in ascending
    order of their names, each once, and they are exactly the tables at one
    end of some relationship. *)
Theorem related_tables_sorted (cache_data : Schema.CacheData) :
  StronglySorted String.le (Schema.related_tables cache_data)
  ∧ NoDup (Schema.related_tables cache_data)
  ∧ ∀ table_name,
      table_name ∈ Schema.related_tables cache_data
      ↔ ∃ rel,
          rel ∈ Schema.relationships cache_data
          ∧ (table_name = Schema.from_table rel
             ∨ table_name = Schema.to_table rel).
Proof.
  unfold Schema.related_tables. split_and!.
  - apply StronglySorted_merge_sort; apply _.
  - rewrite merge_sort_Permutation. apply NoDup_elements.
  - intros table_name.
    rewrite merge_sort_Permutation, elem_of_elements, elem_of_list_to_set,
      list_elem_of_In, in_flat_map.
    split.
    + intros (rel & Hrel & Hin). exists rel.
      split; [now apply list_elem_of_In|].
      destruct Hin as [<-|[<-|[]]]; auto.
    + intros (rel & Hrel & Hname). exists rel.
      split; [now apply list_elem_of_In|].
      destruct Hname as [-> | ->]; simpl; auto.
Qed.

(** ** The dialect translation *)

Lemma lower_char_paren c : Ingest.lower_char c = "("%char → c = "("%char.
Proof. destruct c as [[] [] [] [] [] [] [] []]; vm_compute; congruence. Qed.

Lemma prefix_ignorecase_paren pat s :
  Ingest.prefix_ignorecase pat s = true →
  "("%char ∈ list_ascii_of_string pat → "("%char ∈ list_ascii_of_string s.
Proof.
  revert s. induction pat as [|p pat IH]; intros s Hpre Hin.
  - now apply elem_of_nil in Hin.
  - destruct s as [|c s]; [discriminate|]. simpl in *.
    apply andb_prop in Hpre as [Hc Hrest].
    apply elem_of_cons in Hin as [<-|Hin].
    + apply Ascii.eqb_eq in Hc. symmetry in Hc.
      apply lower_char_paren in Hc. subst c. apply list_elem_of_here.
    + apply list_elem_of_further. now apply IH.
Qed.

Lemma sub_ignorecase_without_paren pat repl s :
  "("%char ∈ list_ascii_of_string pat →
  "("%char ∉ list_ascii_of_string s →
  Ingest.sub_ignorecase_from pat repl s 0 = s.
Proof.
  intros Hpat. induction s as [|c s IH]; intros Hno; [reflexivity|].
  simpl.
  destruct (Ingest.prefix_ignorecase pat (String c s)) eqn:Hpre.
  - exfalso. apply Hno. exact (prefix_ignorecase_paren _ _ Hpre Hpat).
  - rewrite IH; [reflexivity|].
    intros Hin. apply Hno. simpl. now apply list_elem_of_further.
Qed.

(** X24: the dialect translation only rewrites function calls: a query
    without an opening parenthesis is returned as it is, for every
    dialect. *)
Theorem translation_needs_parenthesis (sql_query db_type : string) :
  "("%char ∉ list_ascii_of_string sql_query →
  Ingest._translate_sql_for_dialect (JStr sql_query) db_type
  = Ok (JStr sql_query).
Proof.
  intros Hno. unfold Ingest._translate_sql_for_dialect.
  destruct (String.eqb _ _); [|reflexivity].
  assert (Hsub : ∀ pat repl,
             bool_decide ("("%char ∈ list_ascii_of_string pat) = true →
             Ingest.sub_ignorecase_from pat repl sql_query 0 = sql_query).
  { intros pat repl Hpat. apply sub_ignorecase_without_paren; [|exact Hno].
    now apply bool_decide_eq_true in Hpat. }
  unfold Ingest.translations. cbn [foldl].
  rewrite !Hsub by (vm_compute; reflexivity). reflexivity.
Qed.

Lemma translation_needs_parenthesis_witness :
  Ingest._translate_sql_for_dialect (JStr "SELECT now FROM t") "sqlite"
  = Ok (JStr "SELECT now FROM t").
Proof.
  apply (translation_needs_parenthesis "SELECT now FROM t" "sqlite").
  apply (bool_decide_unpack _). vm_compute. exact I.
Defined.

(** ** Column types *)

Lemma column_type_numerical col value :
  Charts.column_type col value = Charts.Numerical →
  Charts.is_number value = true
  ∧ Py.contains (Ingest.lower col) "id" = false
  ∧ Py.contains (Ingest.lower col) "date" = false
  ∧ Py.contains (Ingest.lower col) "time" = false.
Proof.
  unfold Charts.column_type.
  destruct (Py.contains (Ingest.lower col) "date");
    destruct (Py.contains (Ingest.lower col) "time"); simpl;
    try discriminate.
  destruct (Charts.is_number value), (Charts.is_str value),
    (Py.contains (Ingest.lower col) "id"); simpl; try discriminate; auto.
Qed.

Lemma columns_of_type_elem wanted (col_types : list (string * Charts.ColumnType))
    col :
  col ∈ Charts.columns_of_type wanted col_types → (col, wanted) ∈ col_types.
Proof.
  unfold Charts.columns_of_type. intros Hin.
  apply list_elem_of_fmap in Hin as ([c t] & -> & Hin).
  apply list_elem_of_In, filter_In in Hin as [Hin Ht].
  apply bool_decide_eq_true in Ht. subst t. now apply list_elem_of_In.
Qed.

Lemma inferred_type_elem (data : list Row) col t :
  (col, t) ∈ Charts._infer_column_types data →
  ∃ sample_row rest value,
    data = sample_row :: rest ∧ (col, value) ∈ sample_row
    ∧ t = Charts.column_type col value.
Proof.
  destruct data as [|sample_row rest]; simpl.
  - intros H. now apply elem_of_nil in H.
  - intros Hin. apply list_elem_of_fmap in Hin as ([c v] & [= -> ->] & Hin).
    eauto 6.
Qed.

(** X25: the columns of the fallback bar chart. The measure is a column of
    the first row whose value there is a number and whose name holds
    neither [id] nor [date] nor [time], letter case ignored; the category is
    a column of the first row whose name holds neither [date] nor [time].
    An empty result has no fallback chart. *)
Theorem fallback_chart_columns (data_results : list Row)
    (cat_col num_col : string) :
  Charts.fallback_columns data_results = Some (cat_col, num_col) →
  ∃ sample_row rest cat_value num_value,
    data_results = sample_row :: rest
    ∧ (cat_col, cat_value) ∈ sample_row
    ∧ (num_col, num_value) ∈ sample_row
    ∧ Charts.is_number num_value = true
    ∧ Py.contains (Ingest.lower num_col) "id" = false
    ∧ Py.contains (Ingest.lower num_col) "date" = false
    ∧ Py.contains (Ingest.lower num_col) "time" = false
    ∧ Py.contains (Ingest.lower cat_col) "date" = false
    ∧ Py.contains (Ingest.lower cat_col) "time" = false.
Proof.
  unfold Charts.fallback_columns.
  destruct (Charts.columns_of_type Charts.Categorical _) as [|c cs] eqn:Hc;
    [discriminate|].
  destruct (Charts.columns_of_type Charts.Numerical _) as [|n ns] eqn:Hn;
    [discriminate|].
  intros [= -> ->].
  assert (Hcat : cat_col ∈ Charts.columns_of_type Charts.Categorical
                   (Charts._infer_column_types data_results))
    by (rewrite Hc; apply list_elem_of_here).
  assert (Hnum : num_col ∈ Charts.columns_of_type Charts.Numerical
                   (Charts._infer_column_types data_results))
    by (rewrite Hn; apply list_elem_of_here).
  apply columns_of_type_elem, inferred_type_elem in Hcat
    as (row & rest & cv & Hdata & Hcv & Hct).
  apply columns_of_type_elem, inferred_type_elem in Hnum
    as (row' & rest' & nv & Hdata' & Hnv & Hnt).
  rewrite Hdata in Hdata'. injection Hdata' as <- <-.
  symmetry in Hnt. apply column_type_numerical in Hnt as (? & ? & ? & ?).
  exists row, rest, cv, nv. split_and!; try assumption.
  - unfold Charts.column_type in Hct.
    destruct (Py.contains (Ingest.lower cat_col) "date"); [|reflexivity].
    discriminate.
  - unfold Charts.column_type in Hct.
    destruct (Py.contains (Ingest.lower cat_col) "date"); [discriminate|].
    destruct (Py.contains (Ingest.lower cat_col) "time"); [|reflexivity].
    discriminate.
Qed.

Lemma fallback_chart_columns_witness :
  ∃ sample_row rest cat_value num_value,
    Examples.name_qty_rows = sample_row :: rest
    ∧ ("name", cat_value) ∈ sample_row
    ∧ ("qty", num_value) ∈ sample_row
    ∧ Charts.is_number num_value = true
    ∧ Py.contains (Ingest.lower "qty") "id" = false
    ∧ Py.contains (Ingest.lower "qty") "date" = false
    ∧ Py.contains (Ingest.lower "qty") "time" = false
    ∧ Py.contains (Ingest.lower "name") "date" = false
    ∧ Py.contains (Ingest.lower "name") "time" = false.
Proof.
  apply (fallback_chart_columns Examples.name_qty_rows "name" "qty").
  reflexivity.
Defined.

(** ** The simplified schema and the overview *)

Lemma table_get_unique (ts : list (string * Schema.TableData)) k d :
  NoDup (map fst ts) → (k, d) ∈ ts → Schema.table_get k ts = Some d.
Proof.
  induction ts as [|[k' d'] ts IH]; intros Hnd Hin.
  - now apply elem_of_nil in Hin.
  - simpl in Hnd. apply NoDup_cons in Hnd as [Hk' Hnd]. simpl.
    apply elem_of_cons in Hin as [[= -> ->]|Hin].
    + now rewrite String.eqb_refl.
    + destruct (String.eqb k' k) eqn:Heq.
      * apply String.eqb_eq in Heq. subst k'. exfalso. apply Hk'.
        apply list_elem_of_fmap. now exists (k, d).
      * now apply IH.
Qed.

Lemma known_lines_of_tables (cache_data : Schema.CacheData)
    (ts : list (string * Schema.TableData)) :
  (∀ k d, (k, d) ∈ ts →
          Schema.table_get k (Schema.tables cache_data) = Some d) →
  flat_map (Schema.known_table_lines cache_data) (map fst ts)
  = flat_map (fun '(table_name, table_data) =>
                Schema.table_lines table_name table_data) ts.
Proof.
  induction ts as [|[k d] ts IH]; intros Hget; [reflexivity|].
  simpl. unfold Schema.known_table_lines at 1.
  rewrite (Hget k d) by apply list_elem_of_here.
  f_equal. apply IH. intros k' d' Hin. apply Hget.
  now apply list_elem_of_further.
Qed.

Lemma filter_all {A} (f : A → bool) (l : list A) :
  (∀ x, x ∈ l → f x = true) → List.filter f l = l.
Proof.
  induction l as [|x l IH]; intros Hall; [reflexivity|]. simpl.
  rewrite (Hall x) by apply list_elem_of_here.
  f_equal. apply IH. intros y Hy. apply Hall. now apply list_elem_of_further.
Qed.

(** X26: for a cache whose table names are distinct and hold both ends of
    every relationship, the simplified schema asked for all the tables of
    the cache, in the order of the cache, is the unfiltered table
    overview. *)
Theorem simplified_schema_of_all_tables (cache_data : Schema.CacheData) :
  Caches.consistent cache_data →
  Schema.get_simplified_schemas_for_tables (Some cache_data)
    (map fst (Schema.tables cache_data))
  = Schema.format_table_overview cache_data.
Proof.
  intros [Hnd Hends].
  unfold Schema.get_simplified_schemas_for_tables,
    Schema.format_table_overview.
  rewrite known_lines_of_tables
    by (intros k d Hin; now apply table_get_unique).
  rewrite filter_all; [reflexivity|].
  intros rel Hrel. destruct (Hends rel Hrel) as [Hfrom Hto].
  unfold Schema.listed. now rewrite !bool_decide_eq_true_2.
Qed.

Lemma simplified_schema_of_all_tables_witness :
  Schema.get_simplified_schemas_for_tables (Some Caches.orders_cache)
    (map fst (Schema.tables Caches.orders_cache))
  = Schema.format_table_overview Caches.orders_cache.
Proof.
  apply (simplified_schema_of_all_tables Caches.orders_cache).
  split.
  - apply (bool_decide_unpack _). vm_compute. exact I.
  - intros rel Hrel. simpl in Hrel.
    apply list_elem_of_singleton in Hrel. subst rel.
    split; apply (bool_decide_unpack _); vm_compute; exact I.
Defined.
